(* ===================================================================== *)
(* AutoInfluencer: the quota-rotation, fetch, classification and          *)
(* transcription-queue core, embedded from the Python sources.            *)
(*                                                                        *)
(*   src/optimized_youtube_analyzer.py   OptimizedYouTubeAnalyzer         *)
(*   src/optimized_multi_api_finder.py   OptimizedMultiAPIKeyFinder       *)
(*   src/ai_analyzer.py                  AIAnalyzer                       *)
(*   src/whisper_api_server.py           WhisperAPIServer                 *)
(*                                                                        *)
(* Python objects become records, methods become computations in a small  *)
(* state-and-exception monad that also threads the log of external calls  *)
(* (YouTube Data API, LLM providers, CSV sink).  Python str is modelled   *)
(* as a sequence of ASCII characters.                                     *)
(* ===================================================================== *)

From stdpp Require Import gmap strings list pretty.
From Stdlib Require Import ZArith Lia Ascii.
From Stdlib Require String.

Local Open Scope Z_scope.

(* --------------------------------------------------------------------- *)
(* Python str methods used by the sources                                 *)
(* --------------------------------------------------------------------- *)
Module PyStr.

(* str.isspace on one ASCII character: \t \n \v \f \r, \x1c..\x1f, ' ' *)
Definition is_space (c : ascii) : bool :=
  let n := N_of_ascii c in
  ((9 <=? n) && (n <=? 13) || (28 <=? n) && (n <=? 32))%N.

Definition is_digit (c : ascii) : bool :=
  let n := N_of_ascii c in ((48 <=? n) && (n <=? 57))%N.

Fixpoint lstrip_by (p : ascii -> bool) (s : string) : string :=
  match s with
  | String c r => if p c then lstrip_by p r else s
  | EmptyString => EmptyString
  end.

Fixpoint rstrip_by (p : ascii -> bool) (s : string) : string :=
  match s with
  | String c r =>
      match rstrip_by p r with
      | EmptyString => if p c then EmptyString else String c EmptyString
      | r' => String c r'
      end
  | EmptyString => EmptyString
  end.

(* s.strip() *)
Definition strip (s : string) : string := rstrip_by is_space (lstrip_by is_space s).

(* s.lstrip('@') *)
Definition lstrip_char (a : ascii) (s : string) : string := lstrip_by (Ascii.eqb a) s.

(* s.replace(a, '') for a one-character a *)
Fixpoint remove_char (a : ascii) (s : string) : string :=
  match s with
  | String c r => if Ascii.eqb a c then remove_char a r else String c (remove_char a r)
  | EmptyString => EmptyString
  end.

Definition upper_char (c : ascii) : ascii :=
  let n := N_of_ascii c in
  if ((97 <=? n) && (n <=? 122))%N then ascii_of_N (n - 32) else c.

Definition lower_char (c : ascii) : ascii :=
  let n := N_of_ascii c in
  if ((65 <=? n) && (n <=? 90))%N then ascii_of_N (n + 32) else c.

Fixpoint map_chars (f : ascii -> ascii) (s : string) : string :=
  match s with
  | String c r => String (f c) (map_chars f r)
  | EmptyString => EmptyString
  end.

Definition upper : string -> string := map_chars upper_char.
Definition lower : string -> string := map_chars lower_char.

(* s.split(sep) for a one-character separator: never the empty list *)
Fixpoint split (sep : ascii) (s : string) : list string :=
  match s with
  | EmptyString => [EmptyString]
  | String c r =>
      if Ascii.eqb c sep then EmptyString :: split sep r
      else match split sep r with
           | h :: t => String c h :: t
           | [] => [String c EmptyString]
           end
  end.

(* sep.join(parts) *)
Fixpoint join (sep : string) (parts : list string) : string :=
  match parts with
  | [] => EmptyString
  | [p] => p
  | p :: ps => p +:+ sep +:+ join sep ps
  end.

(* s[:n] *)
Fixpoint take (n : nat) (s : string) : string :=
  match n, s with
  | S n', String c r => String c (take n' r)
  | _, _ => EmptyString
  end.

(* sub in s *)
Fixpoint contains (sub s : string) : bool :=
  String.prefix sub s ||
  match s with
  | String _ r => contains sub r
  | EmptyString => false
  end.

(* bool(s): a str is truthy when it is not empty *)
Definition truthy (s : string) : bool :=
  match s with EmptyString => false | _ => true end.

(* Code-point order on str, as used by sorted() on a list of str. *)
Fixpoint leb (a b : string) : bool :=
  match a, b with
  | EmptyString, _ => true
  | String _ _, EmptyString => false
  | String x a', String y b' =>
      if (N_of_ascii x <? N_of_ascii y)%N then true
      else if (N_of_ascii y <? N_of_ascii x)%N then false
      else leb a' b'
  end.

Fixpoint insert_sorted (x : string) (l : list string) : list string :=
  match l with
  | [] => [x]
  | y :: l' => if leb x y then x :: l else y :: insert_sorted x l'
  end.

(* sorted(keys) *)
Definition sorted (l : list string) : list string := foldr insert_sorted [] l.

Definition digit_val (c : ascii) : Z := Z.of_N (N_of_ascii c) - 48.

(* value of a run of decimal digits, with the groups of int(): a single
   underscore is allowed between two digits *)
Fixpoint digits_from (acc : Z) (prev_digit : bool) (s : string) : option Z :=
  match s with
  | EmptyString => if prev_digit then Some acc else None
  | String c r =>
      if is_digit c then digits_from (10 * acc + digit_val c) true r
      else if Ascii.eqb c "_" then
        if prev_digit then digits_from acc false r else None
      else None
  end.

(* int(s) for a str s: surrounding whitespace, an optional sign, decimal
   digits; None stands for ValueError *)
Definition int (s : string) : option Z :=
  match strip s with
  | String "-" r => Z.opp <$> digits_from 0 false r
  | String "+" r => digits_from 0 false r
  | r => digits_from 0 false r
  end.

End PyStr.

(* --------------------------------------------------------------------- *)
(* Exceptions, external calls and the monad of methods                    *)
(* --------------------------------------------------------------------- *)

(* The Exception subclasses the sources raise or catch.  HttpError carries
   resp.status and the text of str(e), KeyError the repr of the missing key. *)
Inductive Exc : Type :=
| HttpError (status : Z) (text : string)
| QuotaExceededError (msg : string)
| KeyError (key_repr : string)
| ValueError (msg : string)
| AttributeError (msg : string)
| OtherException (msg : string).

(* str(e) *)
Definition exc_str (e : Exc) : string :=
  match e with
  | HttpError _ text => text
  | QuotaExceededError msg => msg
  | KeyError key_repr => key_repr
  | ValueError msg => msg
  | AttributeError msg => msg
  | OtherException msg => msg
  end.

(* InfluencerData dataclass (optimized_multi_api_finder.py) *)
Record InfluencerData : Type := mkInfluencerData {
  name : string;
  sex : string;
  inf_handle : string;
  platform : string;
  follower_count : string;
  contact : string;
  engagement : string;
  niche : string;
  notes : string;
  status : string
}.

(* One call that leaves the process: a request to the YouTube Data API
   (with the developerKey the client was built with), a chat completion of
   one of the two LLM providers, a row appended to the CSV sink. *)
Inductive Event : Type :=
| YtSearchKeyword (developerKey q : string) (maxResults : Z)
| YtSearchChannel (developerKey channelId : string) (maxResults : Z)
| YtVideosList (developerKey ids : string)
| YtChannelsList (developerKey id : string)
| GroqCompletion (prompt : string)
| OpenAICompletion (prompt : string)
| CsvAppend (row : InfluencerData).

Definition is_youtube_call (ev : Event) : bool :=
  match ev with
  | YtSearchKeyword _ _ _ | YtSearchChannel _ _ _ | YtVideosList _ _ | YtChannelsList _ _ => true
  | _ => false
  end.

Definition is_llm_call (ev : Event) : bool :=
  match ev with
  | GroqCompletion _ | OpenAICompletion _ => true
  | _ => false
  end.

Definition is_channels_list_for (cid : string) (ev : Event) : bool :=
  match ev with
  | YtChannelsList _ id => bool_decide (id = cid)
  | _ => false
  end.

(* Result of running a method: the value returned or the exception raised,
   the object after the call, the log of external calls after the call. *)
Record Out (S A : Type) : Type := mkOut {
  out_res : Exc + A;
  out_st : S;
  out_log : list Event
}.
Arguments mkOut {S A} _ _ _.
Arguments out_res {S A} _.
Arguments out_st {S A} _.
Arguments out_log {S A} _.

Definition Py (S A : Type) : Type := S -> list Event -> Out S A.

Definition ret {S A} (a : A) : Py S A := fun s log => mkOut (inr a) s log.

Definition raise {S A} (e : Exc) : Py S A := fun s log => mkOut (inl e) s log.

Definition bind {S A B} (m : Py S A) (k : A -> Py S B) : Py S B :=
  fun s log =>
    let o := m s log in
    match out_res o with
    | inr a => k a (out_st o) (out_log o)
    | inl e => mkOut (inl e) (out_st o) (out_log o)
    end.

(* try: m  except Exception as e: h e *)
Definition try_except {S A} (m : Py S A) (h : Exc -> Py S A) : Py S A :=
  fun s log =>
    let o := m s log in
    match out_res o with
    | inr a => o
    | inl e => h e (out_st o) (out_log o)
    end.

Definition get {S} : Py S S := fun s log => mkOut (inr s) s log.
Definition put {S} (s' : S) : Py S unit := fun _ log => mkOut (inr tt) s' log.
Definition modify {S} (f : S -> S) : Py S unit := fun s log => mkOut (inr tt) (f s) log.

(* d[key] on an optional field: KeyError when the key is absent *)
Definition subscript {S A} (key : string) (o : option A) : Py S A :=
  match o with Some a => ret a | None => raise (KeyError ("'" +:+ key +:+ "'")) end.

(* int(s) *)
Definition py_int {S} (s : string) : Py S Z :=
  match PyStr.int s with
  | Some z => ret z
  | None => raise (ValueError ("invalid literal for int() with base 10: '" +:+ s +:+ "'"))
  end.

(* int(d.get(key, 0)) *)
Definition py_int_or_0 {S} (o : option string) : Py S Z :=
  match o with Some s => py_int s | None => ret 0 end.

(* An external call: the request is appended to the log and the
   environment answers as a function of the whole history, request
   included; it answers with a value or raises. *)
Definition external {S A} (ev : Event) (answer : list Event -> Exc + A) : Py S A :=
  fun s log => let log' := log ++ [ev] in mkOut (answer log') s log'.

Global Instance Py_ret {S} : MRet (Py S) := fun A a => ret a.
Global Instance Py_bind {S} : MBind (Py S) := fun A B k m => bind m k.

(* list comprehension / loop that appends one value per element *)
Fixpoint map_m {S A B} (f : A -> Py S B) (xs : list A) : Py S (list B) :=
  match xs with
  | [] => mret []
  | x :: xs' => y ← f x; ys ← map_m f xs'; mret (y :: ys)
  end.

(* [x for x in xs if p x] where p may raise *)
Fixpoint filter_m {S A} (p : A -> Py S bool) (xs : list A) : Py S (list A) :=
  match xs with
  | [] => mret []
  | x :: xs' => b ← p x; ys ← filter_m p xs'; mret (if (b : bool) then x :: ys else ys)
  end.

(* --------------------------------------------------------------------- *)
(* YouTube Data API resources, as far as the sources read them            *)
(* --------------------------------------------------------------------- *)

(* an item of a search().list(type='video') response *)
Record SearchItem : Type := mkSearchItem {
  si_videoId : string;               (* item['id']['videoId'] *)
  si_channelId : string;             (* item['snippet']['channelId'] *)
  si_channelTitle : option string    (* item['snippet'].get('channelTitle') *)
}.

Record Snippet : Type := mkSnippet {
  sn_title : option string;
  sn_description : option string
}.

Record Statistics : Type := mkStatistics {
  viewCount : option string;
  commentCount : option string
}.

(* an item of a videos().list(part='contentDetails,snippet,statistics') response *)
Record VideoResource : Type := mkVideoResource {
  vr_id : string;
  vr_snippet : Snippet;
  vr_statistics : option Statistics;
  vr_duration : option string        (* video['contentDetails']['duration'] *)
}.

Record ChannelStatistics : Type := mkChannelStatistics {
  subscriberCount : option string;
  videoCount : option string;
  cs_viewCount : option string
}.

(* an item of a channels().list(part='snippet,statistics') response *)
Record ChannelResource : Type := mkChannelResource {
  cr_title : option string;
  cr_customUrl : option string;
  cr_description : option string;
  cr_statistics : option ChannelStatistics
}.

(* the video_data dict built by get_channel_videos_with_stats *)
Record VideoData : Type := mkVideoData {
  vd_videoId : string;
  vd_snippet : Snippet;
  vd_statistics : Statistics;
  duration_seconds : Z
}.

(* the channel_info dict built by get_channel_details; the dict that
   search_channels_by_keyword builds for its first registry check has the
   keys handle, channel_id and title only, the other fields are then unread *)
Record ChannelInfo : Type := mkChannelInfo {
  channel_id : string;
  title : string;
  handle : string;
  description : string;
  subscriber_count : Z;
  video_count : Z;
  view_count : Z
}.

(* How the world outside answers: each answer depends on the history of
   external calls up to and including the request. *)
Record Env : Type := mkEnv {
  search_execute : list Event -> Exc + list SearchItem;
  videos_execute : list Event -> Exc + list VideoResource;
  channels_execute : list Event -> Exc + list ChannelResource;
  groq_create : list Event -> Exc + string;
  openai_create : list Event -> Exc + string;
  csv_write : list Event -> Exc + unit
}.

(* --------------------------------------------------------------------- *)
(* OptimizedYouTubeAnalyzer._parse_duration                                *)
(* --------------------------------------------------------------------- *)

Fixpoint span_digits (s : string) : string * string :=
  match s with
  | String c r =>
      if PyStr.is_digit c then let '(ds, rest) := span_digits r in (String c ds, rest)
      else (EmptyString, s)
  | EmptyString => (EmptyString, EmptyString)
  end.

(* (?:(\d+)U)? at the head of s: the group (None when it does not take
   part in the match) and what follows *)
Definition duration_group (u : ascii) (s : string) : option string * string :=
  match span_digits s with
  | (String d ds, String c rest) =>
      if Ascii.eqb c u then (Some (String d ds), rest) else (None, s)
  | _ => (None, s)
  end.

(* int(match.group(i) or 0) *)
Definition group_int (g : option string) : Z :=
  match g with
  | Some ds => default 0 (PyStr.digits_from 0 false ds)
  | None => 0
  end.

Definition _parse_duration (duration : string) : Z :=
  match duration with
  | String "P" (String "T" s) =>
      let '(h, s1) := duration_group "H" s in
      let '(m, s2) := duration_group "M" s1 in
      let '(sec, _) := duration_group "S" s2 in
      group_int h * 3600 + group_int m * 60 + group_int sec
  | _ => 0
  end.

(* --------------------------------------------------------------------- *)
(* Objects                                                                *)
(* --------------------------------------------------------------------- *)

(* AIAnalyzer: whether each client object was created by __init__ (None
   otherwise).  The Groq rate limiter only sleeps; it has no place in the
   log of calls. *)
Record AIAnalyzer : Type := mkAIAnalyzer {
  groq_client : bool;
  openai_client : bool
}.

(* OptimizedYouTubeAnalyzer: the key its client was built with and the
   video cache *)
Record Analyzer : Type := mkAnalyzer {
  developerKey : string;
  video_cache : gmap string VideoData
}.

Definition set_video_cache (c : gmap string VideoData) (a : Analyzer) : Analyzer :=
  {| developerKey := developerKey a; video_cache := c |}.

(* OptimizedYouTubeAnalyzer(api_key, ...) *)
Definition new_Analyzer (api_key : string) : Analyzer :=
  {| developerKey := api_key; video_cache := ∅ |}.

(* OptimizedMultiAPIKeyFinder *)
Record Finder : Type := mkFinder {
  api_keys : list string;
  current_key_index : nat;
  current_analyzer : option Analyzer;
  ai_analyzer : AIAnalyzer;
  api_calls_per_key : gmap nat Z;
  min_subscribers : Z;
  max_subscribers : Z;
  discovered_channels : gset string;
  discovered_handles : gset string;
  discovered_channel_ids : gset string
}.

Definition set_current_key_index (i : nat) (f : Finder) : Finder :=
  {| api_keys := api_keys f; current_key_index := i;
     current_analyzer := current_analyzer f; ai_analyzer := ai_analyzer f;
     api_calls_per_key := api_calls_per_key f;
     min_subscribers := min_subscribers f; max_subscribers := max_subscribers f;
     discovered_channels := discovered_channels f;
     discovered_handles := discovered_handles f;
     discovered_channel_ids := discovered_channel_ids f |}.

Definition set_current_analyzer (a : option Analyzer) (f : Finder) : Finder :=
  {| api_keys := api_keys f; current_key_index := current_key_index f;
     current_analyzer := a; ai_analyzer := ai_analyzer f;
     api_calls_per_key := api_calls_per_key f;
     min_subscribers := min_subscribers f; max_subscribers := max_subscribers f;
     discovered_channels := discovered_channels f;
     discovered_handles := discovered_handles f;
     discovered_channel_ids := discovered_channel_ids f |}.

Definition set_api_calls_per_key (m : gmap nat Z) (f : Finder) : Finder :=
  {| api_keys := api_keys f; current_key_index := current_key_index f;
     current_analyzer := current_analyzer f; ai_analyzer := ai_analyzer f;
     api_calls_per_key := m;
     min_subscribers := min_subscribers f; max_subscribers := max_subscribers f;
     discovered_channels := discovered_channels f;
     discovered_handles := discovered_handles f;
     discovered_channel_ids := discovered_channel_ids f |}.

Definition set_discovered_channels (d : gset string) (f : Finder) : Finder :=
  {| api_keys := api_keys f; current_key_index := current_key_index f;
     current_analyzer := current_analyzer f; ai_analyzer := ai_analyzer f;
     api_calls_per_key := api_calls_per_key f;
     min_subscribers := min_subscribers f; max_subscribers := max_subscribers f;
     discovered_channels := d;
     discovered_handles := discovered_handles f;
     discovered_channel_ids := discovered_channel_ids f |}.

(* self.current_analyzer.method(...): the method runs on the analyzer the
   finder holds; on None the attribute access raises *)
Definition on_analyzer {A} (m : Py Analyzer A) : Py Finder A :=
  fun f log =>
    match current_analyzer f with
    | Some a =>
        let o := m a log in
        mkOut (out_res o) (set_current_analyzer (Some (out_st o)) f) (out_log o)
    | None =>
        mkOut (inl (AttributeError "'NoneType' object has no attribute")) f log
    end.

Definition nl : string := String "010" EmptyString.

Section Program.

Variable env : Env.

(* the f-string of verify_niche_from_cached_videos (lines 147-187), as a
   function of the two values it interpolates: content_text and the first
   300 characters of the channel description *)
Variable verification_prompt : string -> string -> string.

(* OptimizedYouTubeAnalyzer.calculate_engagement_from_cached_videos: a
   display string built with float formatting; the method catches every
   Exception itself and makes no external call *)
Variable calculate_engagement_from_cached_videos : list VideoData -> string.

(* the follower_display f-string of process_channel_optimized (one decimal
   of sub_count/1000) *)
Variable follower_display : Z -> string.

(* ------------------------------------------------------------------- *)
(* AIAnalyzer (ai_analyzer.py)                                          *)
(* ------------------------------------------------------------------- *)

Definition _call_groq {S} (prompt : string) : Py S (option string) :=
  try_except
    (content ← external (GroqCompletion prompt) (groq_create env);
     mret (Some (PyStr.strip content)))
    (fun _ => mret None).

Definition _call_openai {S} (prompt : string) : Py S (option string) :=
  try_except
    (content ← external (OpenAICompletion prompt) (openai_create env);
     mret (Some (PyStr.strip content)))
    (fun _ => mret None).

(* `if response:` on an Optional[str] *)
Definition response_truthy (response : option string) : bool :=
  match response with Some s => PyStr.truthy s | None => false end.

(* One `if client: try: ... return response ... except` block of
   _call_ai_api: Some r when the block returns r from the method, None
   when control falls through to the next statement. *)
Definition provider_block {S} (client : bool) (call : Py S (option string))
  : Py S (option string) :=
  if client then
    try_except
      (response ← call;
       mret (if response_truthy response then response else None))
      (fun _ => mret None)
  else mret None.

Definition _call_ai_api {S} (self : AIAnalyzer) (prompt analysis_type : string)
  : Py S string :=
  g ← provider_block (groq_client self) (_call_groq prompt);
  match g with
  | Some response => mret response
  | None =>
      o ← provider_block (openai_client self) (_call_openai prompt);
      match o with
      | Some response => mret response
      | None =>
          mret ("Unable to generate " +:+ analysis_type +:+ " - AI services unavailable.")
      end
  end.

Definition analyze_content {S} (self : AIAnalyzer) (prompt : string) : Py S string :=
  _call_ai_api self prompt "content analysis".

(* ------------------------------------------------------------------- *)
(* OptimizedYouTubeAnalyzer (optimized_youtube_analyzer.py)             *)
(* ------------------------------------------------------------------- *)

(* `for video in videos_response['items']:` of get_channel_videos_with_stats *)
Fixpoint process_videos (items : list VideoResource) (processed_videos : list VideoData)
  : Py Analyzer (list VideoData) :=
  match items with
  | [] => mret processed_videos
  | video :: rest =>
      duration ← subscript "duration" (vr_duration video);
      let video_data :=
        {| vd_videoId := vr_id video;
           vd_snippet := vr_snippet video;
           vd_statistics := default (mkStatistics None None) (vr_statistics video);
           duration_seconds := _parse_duration duration |} in
      modify (fun self => set_video_cache (<[vr_id video := video_data]> (video_cache self)) self);;
      process_videos rest (processed_videos ++ [video_data])
  end.

Definition get_channel_videos_with_stats (channel_id : string) (max_results : Z)
  : Py Analyzer (list VideoData) :=
  try_except
    (self ← get;
     search_items ← external (YtSearchChannel (developerKey self) channel_id max_results)
                             (search_execute env);
     match search_items with
     | [] => mret []
     | _ =>
         let video_ids := si_videoId <$> search_items in
         videos_items ← external (YtVideosList (developerKey self) (PyStr.join "," video_ids))
                                 (videos_execute env);
         process_videos videos_items []
     end)
    (fun _ => mret []).

(* the `# Parse response` block of verify_niche_from_cached_videos *)
Definition parse_response (ai_response : string) : bool * string * string :=
  let parts := PyStr.split "|" ai_response in
  if (3 <=? length parts)%nat then
    let decision := PyStr.upper (PyStr.strip (nth 0 parts "")) in
    let explanation := PyStr.strip (nth 1 parts "") in
    let category := PyStr.strip (nth 2 parts "") in
    let is_match := String.eqb decision "YES" in
    (is_match, explanation, category)
  else (false, "Could not parse AI response", "").

Definition verify_niche_from_cached_videos {S}
    (channel_info : ChannelInfo) (videos : list VideoData) (ai_analyzer : AIAnalyzer)
  : Py S (bool * string * string) :=
  try_except
    (match videos with
     | [] => mret (false, "Could not fetch videos", "")
     | _ =>
         let sample_videos := take 5 videos in
         video_content ←
           map_m (fun video =>
                    title ← subscript "title" (sn_title (vd_snippet video));
                    let description :=
                      PyStr.take 200 (default "" (sn_description (vd_snippet video))) in
                    mret ("Title: " +:+ title +:+ nl +:+ "Description: " +:+ description +:+ "..."))
                 sample_videos;
         let content_text := PyStr.join (nl +:+ nl) video_content in
         let prompt :=
           verification_prompt content_text (PyStr.take 300 (description channel_info)) in
         ai_response ← analyze_content ai_analyzer prompt;
         mret (parse_response ai_response)
     end)
    (fun e => mret (false, "Verification error: " +:+ exc_str e, "")).

(* ------------------------------------------------------------------- *)
(* OptimizedMultiAPIKeyFinder (optimized_multi_api_finder.py)           *)
(* ------------------------------------------------------------------- *)

(* l[i] *)
Definition list_index {S A} (l : list A) (i : nat) : Py S A :=
  match l !! i with
  | Some a => mret a
  | None => raise (OtherException "list index out of range")
  end.

Definition _initialize_current_analyzer : Py Finder unit :=
  self ← get;
  if bool_decide (current_key_index self < length (api_keys self))%nat then
    api_key ← list_index (api_keys self) (current_key_index self);
    put (set_current_analyzer (Some (new_Analyzer api_key)) self)
  else raise (QuotaExceededError "All API keys exhausted").

(* The cleanup of the analyzer that is replaced only closes its Whisper
   client. *)
Definition switch_to_next_api_key : Py Finder unit :=
  modify (fun self => set_current_key_index (current_key_index self + 1)%nat self);;
  self ← get;
  if bool_decide (length (api_keys self) ≤ current_key_index self)%nat then
    raise (QuotaExceededError "All API keys exhausted")
  else _initialize_current_analyzer.

(* self.api_calls_per_key[self.current_key_index] += 1 *)
Definition track_api_usage : Py Finder unit :=
  self ← get;
  match api_calls_per_key self !! current_key_index self with
  | Some n =>
      put (set_api_calls_per_key
             (<[current_key_index self := n + 1]> (api_calls_per_key self)) self)
  | None => raise (KeyError (pretty (current_key_index self)))
  end.

(* __init__, given what it reads from outside: the keys found in the
   environment (_load_api_keys), the AI clients, the handles and channel
   ids loaded from discovered.csv *)
Definition Finder_init (keys : list string) (ai : AIAnalyzer)
    (handles ids : gset string) : Py unit Finder :=
  fun _ log =>
    match keys with
    | [] => mkOut (inl (ValueError "No YOUTUBE_API_KEY found in environment variables")) tt log
    | _ =>
        let self :=
          {| api_keys := keys; current_key_index := 0%nat; current_analyzer := None;
             ai_analyzer := ai; api_calls_per_key := ∅;
             min_subscribers := 10000; max_subscribers := 100000;
             discovered_channels := ∅;
             discovered_handles := handles; discovered_channel_ids := ids |} in
        let o := _initialize_current_analyzer self log in
        match out_res o with
        | inl e => mkOut (inl e) tt (out_log o)
        | inr _ =>
            let counters : gmap nat Z :=
              list_to_map ((fun i => (i, 0)) <$> seq 0 (length keys)) in
            mkOut (inr (set_api_calls_per_key counters (out_st o))) tt (out_log o)
        end
    end.

Definition _is_discovered (self : Finder) (channel_info : ChannelInfo)
    (item : option SearchItem) : bool :=
  let handle' := PyStr.lower (PyStr.lstrip_char "@" (PyStr.strip (handle channel_info))) in
  let custom_url := PyStr.lower (PyStr.remove_char "@" (PyStr.strip (handle channel_info))) in
  let channel_id' := PyStr.strip (channel_id channel_info) in
  let title' := PyStr.lower (PyStr.strip (title channel_info)) in
  let item_title :=
    match item with
    | Some it =>
        PyStr.lower (PyStr.lstrip_char "@" (PyStr.strip (default "" (si_channelTitle it))))
    | None => ""
    end in
  if existsb (fun h => PyStr.truthy h && bool_decide (h ∈ discovered_handles self))
             [handle'; custom_url; title'; item_title]
  then true
  else if PyStr.truthy channel_id' && bool_decide (channel_id' ∈ discovered_channel_ids self)
  then true
  else false.

(* self.current_analyzer.youtube: the client of the analyzer in use *)
Definition youtube : Py Finder string :=
  self ← get;
  match current_analyzer self with
  | Some a => mret (developerKey a)
  | None => raise (AttributeError "'NoneType' object has no attribute 'youtube'")
  end.

Definition get_channel_details (channel_id : string) : Py Finder (option ChannelInfo) :=
  try_except
    (track_api_usage;;
     key ← youtube;
     items ← external (YtChannelsList key channel_id) (channels_execute env);
     match items with
     | [] => mret None
     | channel :: _ =>
         stats ← subscript "statistics" (cr_statistics channel);
         match subscriberCount stats with
         | None => mret None
         | Some sc =>
             if negb (PyStr.truthy sc) then mret None
             else
               subscriber_count ← py_int sc;
               self ← get;
               if negb ((min_subscribers self <=? subscriber_count)
                        && (subscriber_count <=? max_subscribers self))
               then mret None
               else
                 title ← subscript "title" (cr_title channel);
                 video_count ← py_int_or_0 (videoCount stats);
                 view_count ← py_int_or_0 (cs_viewCount stats);
                 mret (Some {| channel_id := channel_id;
                               title := title;
                               handle := "@" +:+ default channel_id (cr_customUrl channel);
                               description := default "" (cr_description channel);
                               subscriber_count := subscriber_count;
                               video_count := video_count;
                               view_count := view_count |})
         end
     end)
    (fun _ => mret None).

(* the dict search_channels_by_keyword hands to its first registry check *)
Definition fake_channel_info (item : SearchItem) : ChannelInfo :=
  {| handle := default "" (si_channelTitle item);
     channel_id := si_channelId item;
     title := default "" (si_channelTitle item);
     description := ""; subscriber_count := 0; video_count := 0; view_count := 0 |}.

(* One iteration of `for item in search_response.get('items', [])`, on
   the loop's two locals channels_found and channel_ids_seen. *)
Definition search_item_step (item : SearchItem) (locals : list ChannelInfo * gset string)
  : Py Finder (list ChannelInfo * gset string) :=
  let '(channels_found, channel_ids_seen) := locals in
  let channel_id := si_channelId item in
  self ← get;
  if bool_decide (channel_id ∈ channel_ids_seen)
     || bool_decide (channel_id ∈ discovered_channels self)
  then mret locals
  else if _is_discovered self (fake_channel_info item) (Some item)
  then mret locals
  else
    let channel_ids_seen := channel_ids_seen ∪ {[channel_id]} in
    channel_info ← get_channel_details channel_id;
    match channel_info with
    | Some info =>
        self ← get;
        if _is_discovered self info (Some item)
        then mret (channels_found, channel_ids_seen)
        else mret (channels_found ++ [info], channel_ids_seen)
    | None => mret (channels_found, channel_ids_seen)
    end.

Fixpoint search_items_loop (items : list SearchItem) (locals : list ChannelInfo * gset string)
  : Py Finder (list ChannelInfo * gset string) :=
  match items with
  | [] => mret locals
  | item :: rest => locals' ← search_item_step item locals; search_items_loop rest locals'
  end.

(* e.resp.status == 403 and ('quotaExceeded' in str(e) or 'dailyLimitExceeded' in str(e)) *)
Definition is_quota_error (status : Z) (text : string) : bool :=
  (status =? 403)
  && (PyStr.contains "quotaExceeded" text || PyStr.contains "dailyLimitExceeded" text).

(* the try block of search_channels_by_keyword *)
Definition search_try_block (keyword : string) (max_results : Z)
  : Py Finder (list ChannelInfo) :=
  track_api_usage;;
  key ← youtube;
  items ← external (YtSearchKeyword key keyword max_results) (search_execute env);
  locals ← search_items_loop items ([], ∅);
  mret (locals : list ChannelInfo * gset string).1.

(* The method retries by calling itself after a key switch; depth bounds
   the nesting of these calls. *)
Fixpoint search_channels_by_keyword_rec (depth : nat) (keyword : string) (max_results : Z)
  : Py Finder (list ChannelInfo) :=
  try_except
    (search_try_block keyword max_results)
    (fun e =>
       match e with
       | HttpError status text =>
           if is_quota_error status text then
             switch_to_next_api_key;;
             match depth with
             | S depth' => search_channels_by_keyword_rec depth' keyword max_results
             | O => raise (OtherException "maximum recursion depth exceeded")
             end
           else mret []
       | _ => mret []
       end).

(* Every nested call follows a successful switch, so there are fewer of
   them than keys. *)
Definition search_channels_by_keyword (keyword : string) (max_results : Z)
  : Py Finder (list ChannelInfo) :=
  self ← get;
  search_channels_by_keyword_rec (length (api_keys self)) keyword max_results.

Definition save_to_csv (influencer : InfluencerData) : Py Finder unit :=
  external (CsvAppend influencer) (csv_write env).

Definition min_views_per_video : Z := 1000.
Definition min_videos_with_min_views : nat := 8.

(* int(v.get('statistics', {}).get('viewCount', 0)) >= min_views_per_video *)
Definition has_min_views {S} (v : VideoData) : Py S bool :=
  views ← py_int_or_0 (viewCount (vd_statistics v));
  mret (min_views_per_video <=? views).

(* _ensure_ai_rate_limit only sleeps and stores a time stamp; it is left
   out. *)
Definition process_channel_optimized (channel_info : ChannelInfo) : Py Finder bool :=
  try_except
    (self ← get;
     if bool_decide (channel_id channel_info ∈ discovered_channels self) then mret false
     else
       videos ← on_analyzer (get_channel_videos_with_stats (channel_id channel_info) 15);
       match videos with
       | [] => mret false
       | _ =>
           videos_with_min_views ← filter_m has_min_views videos;
           if bool_decide (length videos_with_min_views < min_videos_with_min_views)%nat
           then mret false
           else
             track_api_usage;;
             track_api_usage;;
             self ← get;
             verdict ← verify_niche_from_cached_videos channel_info videos (ai_analyzer self);
             let '(is_match, explanation, category) := verdict in
             if negb is_match then mret false
             else
               let engagement := calculate_engagement_from_cached_videos videos in
               let sub_count := subscriber_count channel_info in
               let influencer :=
                 {| name := title channel_info;
                    sex := "";
                    inf_handle := handle channel_info;
                    platform := "YT";
                    follower_count := follower_display sub_count;
                    contact := "";
                    engagement := engagement;
                    niche := category;
                    notes := "Optimized finder: " +:+ explanation;
                    status := "Found" |} in
               save_to_csv influencer;;
               modify (fun self =>
                         set_discovered_channels
                           (discovered_channels self ∪ {[channel_id channel_info]}) self);;
               mret true
       end)
    (fun _ => mret false).

(* `for channel_info in channels` of run_optimized_discovery, on the
   locals matches_found, channels_processed, channels_in_keyword *)
Fixpoint channels_loop (target_influencers max_channels_per_keyword : Z)
    (channels : list ChannelInfo) (locals : Z * Z * Z) : Py Finder (Z * Z * Z) :=
  match channels with
  | [] => mret locals
  | channel_info :: rest =>
      let '(matches_found, channels_processed, channels_in_keyword) := locals in
      if target_influencers <=? matches_found then mret locals
      else if max_channels_per_keyword <=? channels_in_keyword then mret locals
      else
        matched ← process_channel_optimized channel_info;
        let matches_found := if (matched : bool) then matches_found + 1 else matches_found in
        channels_loop target_influencers max_channels_per_keyword rest
          (matches_found, channels_processed + 1, channels_in_keyword + 1)
  end.

(* `for keyword in keywords` of run_optimized_discovery on the locals
   matches_found and channels_processed.  The method's
   `except QuotaExceededError` leaves the loop with the locals as they
   are; it is applied here to the one statement of the body that lets
   an exception out. *)
Fixpoint keywords_loop (target_influencers max_channels_per_keyword : Z)
    (keywords : list string) (locals : Z * Z) : Py Finder (Z * Z) :=
  match keywords with
  | [] => mret locals
  | keyword :: rest =>
      let '(matches_found, channels_processed) := locals in
      if target_influencers <=? matches_found then mret locals
      else
        searched ← try_except
                     (channels ← search_channels_by_keyword keyword 50; mret (Some channels))
                     (fun e => match e with
                               | QuotaExceededError _ => mret None
                               | _ => raise e
                               end);
        match searched with
        | None => mret locals
        | Some channels =>
            locals' ← channels_loop target_influencers max_channels_per_keyword channels
                        (matches_found, channels_processed, 0);
            keywords_loop target_influencers max_channels_per_keyword rest
              ((locals' : Z * Z * Z).1.1, (locals' : Z * Z * Z).1.2)
        end
  end.

(* keywords: self.search_keywords in the order random.shuffle left them.
   The closing log line divides by target_influencers. *)
Definition run_optimized_discovery (keywords : list string)
    (target_influencers max_channels_per_keyword : Z) : Py Finder Z :=
  locals ← keywords_loop target_influencers max_channels_per_keyword keywords (0, 0);
  if target_influencers =? 0 then raise (OtherException "division by zero")
  else mret (locals : Z * Z).1.

End Program.

(* --------------------------------------------------------------------- *)
(* WhisperAPIServer (whisper_api_server.py)                               *)
(* --------------------------------------------------------------------- *)
Module Whisper.

Record TranscriptionRequest : Type := mkRequest {
  req_request_id : string;
  req_video_id : string;
  max_duration_minutes : Z;
  timestamp : Z
}.

Record TranscriptionResult : Type := mkResult {
  request_id : string;
  video_id : string;
  success : bool;
  transcript : option string;
  error : option string;
  processing_time : Z
}.

Record Stats : Type := mkStats {
  total_requests : Z;
  completed : Z;
  failed : Z;
  queue_size : Z
}.

(* A Python dict keeps its keys in insertion order: an association list
   without repeated keys, oldest key first. *)
Definition dict (V : Type) : Type := list (string * V).

(* k in d *)
Definition dict_mem {V} (k : string) (d : dict V) : bool :=
  existsb (fun kv => String.eqb kv.1 k) d.

(* d[k] *)
Fixpoint dict_get {V} (k : string) (d : dict V) : option V :=
  match d with
  | [] => None
  | (k', v) :: d' => if String.eqb k' k then Some v else dict_get k d'
  end.

(* d[k] = v: a key already there keeps its place, a new key goes last *)
Fixpoint dict_set {V} (k : string) (v : V) (d : dict V) : dict V :=
  match d with
  | [] => [(k, v)]
  | (k', v') :: d' => if String.eqb k' k then (k', v) :: d' else (k', v') :: dict_set k v d'
  end.

(* del d[k] *)
Definition dict_del {V} (k : string) (d : dict V) : dict V :=
  List.filter (fun kv => negb (String.eqb kv.1 k)) d.

(* d.keys(), in insertion order *)
Definition dict_keys {V} (d : dict V) : list string := fst <$> d.

Record WhisperAPIServer : Type := mkServer {
  max_queue_size : nat;
  request_queue : list TranscriptionRequest;      (* head = next to get() *)
  results : dict TranscriptionResult;
  processing_stats : Stats
}.

Definition qsize (self : WhisperAPIServer) : Z := Z.of_nat (length (request_queue self)).

Definition set_queue (q : list TranscriptionRequest) (self : WhisperAPIServer) :=
  {| max_queue_size := max_queue_size self; request_queue := q;
     results := results self; processing_stats := processing_stats self |}.
Definition set_results (r : dict TranscriptionResult) (self : WhisperAPIServer) :=
  {| max_queue_size := max_queue_size self; request_queue := request_queue self;
     results := r; processing_stats := processing_stats self |}.
Definition set_stats (st : Stats) (self : WhisperAPIServer) :=
  {| max_queue_size := max_queue_size self; request_queue := request_queue self;
     results := results self; processing_stats := st |}.

Definition set_queue_size (n : Z) (st : Stats) : Stats :=
  {| total_requests := total_requests st; completed := completed st;
     failed := failed st; queue_size := n |}.
Definition incr_total (st : Stats) : Stats :=
  {| total_requests := total_requests st + 1; completed := completed st;
     failed := failed st; queue_size := queue_size st |}.
Definition incr_completed (st : Stats) : Stats :=
  {| total_requests := total_requests st; completed := completed st + 1;
     failed := failed st; queue_size := queue_size st |}.
Definition incr_failed (st : Stats) : Stats :=
  {| total_requests := total_requests st; completed := completed st;
     failed := failed st + 1; queue_size := queue_size st |}.

(* JSON values and HTTP responses of the routes *)
Inductive Json : Type :=
| JStr (s : string)
| JNum (z : Z)
| JNull.

Record Response : Type := mkResponse {
  http_status : Z;
  body : list (string * Json)
}.

(* jsonify(d) and jsonify(d), code *)
Definition jsonify (d : list (string * Json)) : Response := mkResponse 200 d.
Definition jsonify_code (d : list (string * Json)) (code : Z) : Response := mkResponse code d.

Definition body_get (k : string) (r : Response) : option Json := dict_get k (body r).

Definition opt_json (o : option string) : Json :=
  match o with Some s => JStr s | None => JNull end.

(* the response dict that get_result and transcribe_sync build from a
   stored result *)
Definition result_response (result : TranscriptionResult) : list (string * Json) :=
  [("request_id", JStr (request_id result));
   ("video_id", JStr (video_id result));
   ("status", JStr (if success result then "completed" else "failed"));
   ("processing_time", JNum (processing_time result))]
  ++ (if success result then [("transcript", opt_json (transcript result))]
      else [("error", opt_json (error result))]).

(* GET /result/<request_id> *)
Definition get_result (self : WhisperAPIServer) (request_id : string) : Response :=
  if negb (dict_mem request_id (results self)) then
    jsonify [("status", JStr "processing"); ("queue_size", JNum (qsize self))]
  else
    match dict_get request_id (results self) with
    | Some result => jsonify (result_response result)
    | None => jsonify_code [("error", JStr ("'" +:+ request_id +:+ "'"))] 500
    end.

(* POST /transcribe with JSON body {video_id, max_duration_minutes};
   fresh_id is str(uuid.uuid4()) and now is time.time() *)
Definition transcribe_video (self : WhisperAPIServer) (video_id : option string)
    (max_duration : option Z) (fresh_id : string) (now : Z)
  : WhisperAPIServer * Response :=
  match video_id with
  | None => (self, jsonify_code [("error", JStr "video_id required")] 400)
  | Some vid =>
      if negb (PyStr.truthy vid)
      then (self, jsonify_code [("error", JStr "video_id required")] 400)
      else if Z.of_nat (max_queue_size self) <=? qsize self
      then (self, jsonify_code [("error", JStr "Queue full, try again later")] 503)
      else
        let transcription_request :=
          {| req_request_id := fresh_id; req_video_id := vid;
             max_duration_minutes := default 120 max_duration; timestamp := now |} in
        let self1 := set_queue (request_queue self ++ [transcription_request]) self in
        let self2 := set_stats (incr_total (processing_stats self1)) self1 in
        let self3 := set_stats (set_queue_size (qsize self2) (processing_stats self2)) self2 in
        (self3, jsonify [("request_id", JStr fresh_id);
                         ("status", JStr "queued");
                         ("queue_position", JNum (qsize self3))])
  end.

(* What request.json gives the POST routes.  For a missing body, a body
   that is not JSON and a JSON value that is not an object, request.json
   or data.get raises inside the route's try block; error is str(e).  Of
   a JSON object the route reads video_id and max_duration_minutes.
   BodyObject stands for the objects whose video_id is a string, null or
   missing (data.get gives None for the last two) and whose
   max_duration_minutes is an integer or missing; a TranscriptionRequest
   holds no other value. *)
Inductive Body : Type :=
| BodyError (error : string)
| BodyObject (video_id : option string) (max_duration_minutes : option Z).

(* POST /transcribe on the body received: the `except Exception` of the
   route (lines 129-131) answers 500 with the text of the exception;
   otherwise the route goes on as transcribe_video above *)
Definition transcribe_video_route (self : WhisperAPIServer) (body : Body)
    (fresh_id : string) (now : Z) : WhisperAPIServer * Response :=
  match body with
  | BodyError error => (self, jsonify_code [("error", JStr error)] 500)
  | BodyObject video_id max_duration => transcribe_video self video_id max_duration fresh_id now
  end.

(* the `# Clean up old results (keep last 100)` block *)
Definition clean_up_old_results (res : dict TranscriptionResult) : dict TranscriptionResult :=
  if bool_decide (100 < length res)%nat then
    let oldest_keys := take 50 (PyStr.sorted (dict_keys res)) in
    foldl (fun d key => dict_del key d) res oldest_keys
  else res.

Section Worker.

(* self.whisper.transcribe_video(video_id, max_duration_minutes): the
   transcript, None, or an exception *)
Variable whisper_transcribe_video : string -> Z -> Exc + option string.

(* One turn of the `while True` loop of _process_queue; elapsed is the
   measured processing time.  An empty queue (queue.Empty after the
   timeout) and an exception of the transcriber both leave the results
   as they are. *)
Definition _process_queue_step (elapsed : Z) (self : WhisperAPIServer) : WhisperAPIServer :=
  match request_queue self with
  | [] => self
  | req :: rest =>
      let self1 := set_queue rest self in
      let self2 := set_stats (set_queue_size (qsize self1) (processing_stats self1)) self1 in
      match whisper_transcribe_video (req_video_id req) (max_duration_minutes req) with
      | inl _ => self2
      | inr transcript =>
          let ok := match transcript with Some t => PyStr.truthy t | None => false end in
          let result :=
            if ok then
              {| request_id := req_request_id req; video_id := req_video_id req;
                 success := true; transcript := transcript; error := None;
                 processing_time := elapsed |}
            else
              {| request_id := req_request_id req; video_id := req_video_id req;
                 success := false; transcript := None;
                 error := Some "Transcription failed";
                 processing_time := elapsed |} in
          let self3 :=
            set_stats ((if ok then incr_completed else incr_failed) (processing_stats self2))
                      self2 in
          let self4 := set_results (dict_set (req_request_id req) result (results self3)) self3 in
          set_results (clean_up_old_results (results self4)) self4
      end
  end.

End Worker.

End Whisper.

(* --------------------------------------------------------------------- *)
(* Start-up of the finder: keys from the environment, registry from        *)
(* discovered.csv (optimized_multi_api_finder.py, __init__ and             *)
(* _load_api_keys)                                                         *)
(* --------------------------------------------------------------------- *)
Module Startup.

(* os.environ is a gmap string string below *)

(* key = os.getenv(name) followed by `if key:` *)
Definition getenv_truthy (environ : gmap string string) (name : string) : option string :=
  match environ !! name with
  | Some key => if PyStr.truthy key then Some key else None
  | None => None
  end.

(* f'YOUTUBE_API_KEY_{i}' *)
Definition secondary_name (i : nat) : string := "YOUTUBE_API_KEY_" +:+ pretty i.

(* The `while True` loop of _load_api_keys from i on: the keys it appends.
   None stands for a loop that has not ended after the given number of
   turns. *)
Fixpoint secondary_keys (turns : nat) (environ : gmap string string) (i : nat) : option (list string) :=
  match turns with
  | O => None
  | S turns' =>
      match getenv_truthy environ (secondary_name i) with
      | Some key => cons key <$> secondary_keys turns' environ (S i)
      | None => Some []
      end
  end.

(* Every turn but the last finds a variable of the environment that no
   earlier turn found, so the loop ends within size environ + 1 turns. *)
Definition _load_api_keys (environ : gmap string string) : option (Exc + list string) :=
  let primary := match getenv_truthy environ "YOUTUBE_API_KEY" with
                 | Some primary_key => [primary_key]
                 | None => []
                 end in
  match secondary_keys (S (size environ)) environ 2 with
  | Some secondary =>
      match primary ++ secondary with
      | [] => Some (inl (ValueError "No YOUTUBE_API_KEY found in environment variables"))
      | api_keys => Some (inr api_keys)
      end
  | None => None
  end.

(* A cell of a csv.DictReader row under a column name: the column is not
   in the header, the row is too short to have a value for it (restval
   None), or the text. *)
Inductive Cell : Type :=
| NoColumn
| NoValue
| Value (text : string).

(* row.get(name, '').strip(): None stands for the AttributeError of
   None.strip() *)
Definition cell_strip (c : Cell) : option string :=
  match c with
  | NoColumn => Some EmptyString
  | NoValue => None
  | Value text => Some (PyStr.strip text)
  end.

Record Row : Type := mkRow {
  Handle : Cell;        (* row.get('Handle', '') *)
  Channel_ID : Cell     (* row.get('Channel ID', '') *)
}.

Definition is_sep (c : ascii) : bool := Ascii.eqb c " " || Ascii.eqb c ",".

(* re.split(r'[ ,]+', s): the pieces between the maximal runs of spaces
   and commas; prev_sep tells that the character before s belongs to a
   run *)
Fixpoint re_split (prev_sep : bool) (s : string) : list string :=
  match s with
  | EmptyString => [EmptyString]
  | String c r =>
      if is_sep c then
        if prev_sep then re_split true r else EmptyString :: re_split true r
      else
        match re_split false r with
        | piece :: pieces => String c piece :: pieces
        | [] => [String c EmptyString]
        end
  end.

(* s.startswith(prefix) *)
Fixpoint startswith (prefix s : string) : bool :=
  match prefix, s with
  | EmptyString, _ => true
  | String a p, String b r => Ascii.eqb a b && startswith p r
  | String _ _, EmptyString => false
  end.

(* `for h in re.split(...)`: the handles one Handle cell adds *)
Definition row_handles (handle : string) : list string :=
  List.filter PyStr.truthy
    ((fun h => PyStr.lower (PyStr.lstrip_char "@" (PyStr.strip h))) <$> re_split false handle).

(* `for row in reader` on the two sets; an exception in the body leaves
   the loop and the try block with the sets as they are *)
Fixpoint load_rows (rows : list Row) (handles ids : gset string) : gset string * gset string :=
  match rows with
  | [] => (handles, ids)
  | row :: rest =>
      match cell_strip (Handle row) with
      | None => (handles, ids)
      | Some handle =>
          let handles := handles ∪ list_to_set (row_handles handle) in
          match cell_strip (Channel_ID row) with
          | None => (handles, ids)
          | Some channel_id =>
              let ids :=
                if PyStr.truthy channel_id && startswith "UC" channel_id
                then ids ∪ {[channel_id]} else ids in
              load_rows rest handles ids
          end
      end
  end.

(* the try block of __init__, lines 140-155; file is None when
   discovered.csv cannot be opened *)
Definition load_registry (file : option (list Row)) : gset string * gset string :=
  match file with
  | Some rows => load_rows rows ∅ ∅
  | None => (∅, ∅)
  end.

End Startup.

(* --------------------------------------------------------------------- *)
(* The Streamlit app's key manager and error handler (app.py)              *)
(* --------------------------------------------------------------------- *)
Module App.

Record MultiAPIManager : Type := mkManager {
  api_keys : list string;
  current_key_index : nat;
  api_calls_per_key : gmap nat Z
}.

(* MultiAPIManager(), given the keys _load_api_keys found *)
Definition new_manager (keys : list string) : MultiAPIManager :=
  {| api_keys := keys; current_key_index := 0%nat;
     api_calls_per_key := list_to_map ((fun i => (i, 0)) <$> seq 0 (length keys)) |}.

Definition get_current_key (self : MultiAPIManager) : Exc + option string :=
  match api_keys self with
  | [] => inr None
  | _ =>
      match api_keys self !! current_key_index self with
      | Some key => inr (Some key)
      | None => inl (OtherException "list index out of range")
      end
  end.

Definition switch_to_next_key (self : MultiAPIManager) : MultiAPIManager * bool :=
  if (length (api_keys self) <=? 1)%nat then (self, false)
  else
    ({| api_keys := api_keys self;
        current_key_index := (current_key_index self + 1) mod length (api_keys self);
        api_calls_per_key := api_calls_per_key self |}, true).

(* the errors handle_youtube_api_error tells apart: an HttpError with its
   status and decoded content, anything else *)
Inductive ApiError : Type :=
| ApiHttpError (status : Z) (error_content : string)
| ApiOtherError (text : string).

(* handle_youtube_api_error: the 'type' of the dict it returns, and the
   manager after the call; api_manager is None when the caller passes
   none *)
Definition handle_youtube_api_error (error : ApiError) (api_manager : option MultiAPIManager)
  : option MultiAPIManager * string :=
  match error with
  | ApiHttpError status error_content =>
      if status =? 403 then
        if PyStr.contains "quotaExceeded" error_content
           || PyStr.contains "dailyLimitExceeded" error_content
        then
          match api_manager with
          | Some manager =>
              let '(manager', switched) := switch_to_next_key manager in
              if switched then (Some manager', "quota_exceeded_switched")
              else (Some manager', "quota_exceeded")
          | None => (None, "quota_exceeded")
          end
        else if PyStr.contains "accessNotConfigured" error_content
        then (api_manager, "api_not_enabled")
        else (api_manager, "access_forbidden")
      else if status =? 400 then (api_manager, "bad_request")
      else if status =? 404 then (api_manager, "not_found")
      else if status =? 500 then (api_manager, "server_error")
      else (api_manager, "unknown_http")
  | ApiOtherError _ => (api_manager, "unknown")
  end.

End App.

(* --------------------------------------------------------------------- *)
(* Definitions used to state the properties                               *)
(* --------------------------------------------------------------------- *)

(* number of calls to the quota-bounded API in a log *)
Definition youtube_calls (log : list Event) : nat := length (filter is_youtube_call log).

(* number of classification (LLM) calls in a log *)
Definition llm_calls (log : list Event) : nat := length (filter is_llm_call log).

Definition raised {A} (r : Exc + A) : Prop := exists e, r = inl e.
Definition returned {A} (r : Exc + A) : Prop := exists a, r = inr a.

(* a computation that neither changes its object nor makes a call *)
Definition no_effect {S A} (m : Py S A) : Prop :=
  forall s log, out_st (m s log) = s /\ out_log (m s log) = log.

(* what the registry checks read of the finder *)
Definition same_registry (self self' : Finder) : Prop :=
  discovered_handles self' = discovered_handles self
  /\ discovered_channel_ids self' = discovered_channel_ids self
  /\ discovered_channels self' = discovered_channels self.

(* self' is self but for the usage counters *)
Definition only_counters (self self' : Finder) : Prop :=
  exists counters, self' = set_api_calls_per_key counters self.

(* The pool operations a run interleaves: rotate() is
   switch_to_next_api_key, record_usage() is track_api_usage. *)
Inductive PoolOp : Type := OpRotate | OpRecordUsage.

Definition pool_op (op : PoolOp) : Py Finder unit :=
  match op with
  | OpRotate => switch_to_next_api_key
  | OpRecordUsage => track_api_usage
  end.

(* The pool after a sequence of operations, with the outcome of each; an
   operation that raises is caught by its caller and the run goes on with
   the object as the operation left it. *)
Fixpoint pool_run (ops : list PoolOp) (self : Finder) : Finder * list (Exc + unit) :=
  match ops with
  | [] => (self, [])
  | op :: ops' =>
      let o := pool_op op self [] in
      let '(self', outcomes) := pool_run ops' (out_st o) in
      (self', out_res o :: outcomes)
  end.

(* the pool after k calls of switch_to_next_api_key *)
Definition rotations (k : nat) (self : Finder) : Finder :=
  (pool_run (replicate k OpRotate) self).1.

Definition rotation_raised (r : Exc + unit) : bool :=
  match r with inl (QuotaExceededError _) => true | _ => false end.

(* the call this invocation makes to a provider fails: its client was
   never created, or the completion request raises at this point of the
   history (the history with the request appended) *)
Definition call_fails (client : bool) (create : list Event -> Exc + string)
    (history : list Event) : Prop :=
  client = false \/ raised (create history).

Definition unavailable (analysis_type : string) : string :=
  "Unable to generate " +:+ analysis_type +:+ " - AI services unavailable.".

(* equality of two ASCII strings up to letter case *)
Definition eq_ignore_case (a b : string) : bool :=
  String.eqb (PyStr.lower a) (PyStr.lower b).

(* view count of a fetched item as process_channel_optimized reads it: 0
   without the statistic, no number when the text is not an integer *)
Definition views_of (v : VideoData) : option Z :=
  match viewCount (vd_statistics v) with
  | Some s => PyStr.int s
  | None => Some 0
  end.

Definition at_or_above_min_views (v : VideoData) : bool :=
  match views_of v with
  | Some n => min_views_per_video <=? n
  | None => false
  end.

(* How a search result matches the discovery registry: by its channel id
   (which the code strips before it looks it up), or by the only handle a
   search result carries, its channel title, stripped, with leading '@'
   removed and lowercased.  An empty string never matches. *)
Definition normalized_handle (h : string) : string :=
  PyStr.lower (PyStr.lstrip_char "@" (PyStr.strip h)).

Definition matches_registry (self : Finder) (item : SearchItem) : Prop :=
  (PyStr.strip (si_channelId item) ∈ discovered_channel_ids self
   /\ PyStr.strip (si_channelId item) ≠ "")
  \/ (normalized_handle (default "" (si_channelTitle item)) ∈ discovered_handles self
      /\ normalized_handle (default "" (si_channelTitle item)) ≠ "").

(* request ids as uuid.uuid4() prints them, numbered in the last group *)
Definition hex_digit (n : nat) : ascii :=
  ascii_of_nat (if (n <? 10)%nat then 48 + n else 87 + n).

Definition uuid_of (n : nat) : string :=
  "00000000-0000-4000-8000-0000000000"
  +:+ String (hex_digit (n / 16)) (String (hex_digit (n mod 16)) EmptyString).

(* a server that has just started *)
Definition new_server : Whisper.WhisperAPIServer :=
  Whisper.mkServer 50 [] [] (Whisper.mkStats 0 0 0 0).

(* a transcriber that always succeeds *)
Definition transcriber_ok (video_id : string) (max_duration_minutes : Z) : Exc + option string :=
  inr (Some "never gonna give you up").

(* One POST /transcribe per request id, each followed by one turn of the
   worker. *)
Fixpoint serve (ids : list string) (self : Whisper.WhisperAPIServer)
  : Whisper.WhisperAPIServer :=
  match ids with
  | [] => self
  | id :: rest =>
      let queued := (Whisper.transcribe_video self (Some "dQw4w9WgXcQ") None id 0).1 in
      serve rest (Whisper._process_queue_step transcriber_ok 1 queued)
  end.

(* 100 jobs served, whose ids happened to come out in decreasing order *)
Definition server_100 : Whisper.WhisperAPIServer :=
  serve (uuid_of <$> rev (seq 1 100)) new_server.

(* What _call_ai_api comes to, in closed form: the answer a provider block
   lets through, then the text returned and the log after the call. *)
Definition provider_answer (create : list Event -> Exc + string) (ev : Event)
    (log : list Event) : option string :=
  match create (log ++ [ev]) with
  | inr content => if PyStr.truthy (PyStr.strip content) then Some (PyStr.strip content) else None
  | inl _ => None
  end.

Definition ai_api_outcome (env : Env) (self : AIAnalyzer) (prompt analysis_type : string)
    (log : list Event) : string * list Event :=
  let log1 := if groq_client self then log ++ [GroqCompletion prompt] else log in
  let g := if groq_client self
           then provider_answer (groq_create env) (GroqCompletion prompt) log else None in
  match g with
  | Some response => (response, log1)
  | None =>
      let log2 := if openai_client self then log1 ++ [OpenAICompletion prompt] else log1 in
      let o := if openai_client self
               then provider_answer (openai_create env) (OpenAICompletion prompt) log1
               else None in
      match o with
      | Some response => (response, log2)
      | None => (unavailable analysis_type, log2)
      end
  end.

(* The text verify_niche_from_cached_videos writes for one sampled video,
   and the prompt it sends: None when a sampled video has no title (the
   KeyError the method catches before any classifier call). *)
Definition video_text (video : VideoData) : option string :=
  match sn_title (vd_snippet video) with
  | Some title =>
      Some ("Title: " +:+ title +:+ nl +:+ "Description: "
            +:+ PyStr.take 200 (default "" (sn_description (vd_snippet video))) +:+ "...")
  | None => None
  end.

Fixpoint video_texts (videos : list VideoData) : option (list string) :=
  match videos with
  | [] => Some []
  | video :: rest =>
      match video_text video, video_texts rest with
      | Some t, Some ts => Some (t :: ts)
      | _, _ => None
      end
  end.

Definition niche_prompt (verification_prompt : string -> string -> string)
    (channel_info : ChannelInfo) (videos : list VideoData) : option string :=
  match video_texts (take 5 videos) with
  | Some video_content =>
      Some (verification_prompt (PyStr.join (nl +:+ nl) video_content)
                                (PyStr.take 300 (description channel_info)))
  | None => None
  end.

(* the object __init__ leaves behind for a non-empty list of keys *)
Definition fresh_finder (first : string) (others : list string) (ai : AIAnalyzer)
    (handles ids : gset string) : Finder :=
  {| api_keys := first :: others; current_key_index := 0%nat;
     current_analyzer := Some (new_Analyzer first);
     ai_analyzer := ai;
     api_calls_per_key :=
       list_to_map ((fun i => (i, 0)) <$> seq 0 (length (first :: others)));
     min_subscribers := 10000; max_subscribers := 100000;
     discovered_channels := ∅;
     discovered_handles := handles; discovered_channel_ids := ids |}.

(* sample objects *)
Definition both_clients : AIAnalyzer := mkAIAnalyzer true true.

(* a world in which both LLM providers are down and YouTube knows nothing *)
Definition env_down : Env :=
  {| search_execute := fun _ => inr [];
     videos_execute := fun _ => inr [];
     channels_execute := fun _ => inr [];
     groq_create := fun _ => inl (OtherException "503 Service Unavailable");
     openai_create := fun _ => inl (OtherException "Connection error.");
     csv_write := fun _ => inr tt |}.
(* a world in which the LLM providers fail at first and answer later: a
   completion request raises while the history holds at most two calls *)
Definition env_flaky : Env :=
  {| search_execute := fun _ => inr [];
     videos_execute := fun _ => inr [];
     channels_execute := fun _ => inr [];
     groq_create := fun history =>
       if (length history <=? 2)%nat then inl (OtherException "429 Too Many Requests")
       else inr "YES | Dating tips for men | Dating Advice";
     openai_create := fun history =>
       if (length history <=? 2)%nat then inl (OtherException "Connection error.")
       else inr "YES | Dating tips for men | Dating Advice";
     csv_write := fun _ => inr tt |}.
Definition pool1 : Finder := fresh_finder "key-a" [] both_clients ∅ ∅.
Definition pool3 : Finder := fresh_finder "key-a" ["key-b"; "key-c"] both_clients ∅ ∅.

(* the text of an HttpError 403 of the YouTube Data API on an exhausted key *)
Definition quota_text : string :=
  "<HttpError 403 when requesting https://youtube.googleapis.com/youtube/v3/search returned 'The request cannot be completed because you have exceeded your quota.'. Details: [{'message': 'The request cannot be completed because you have exceeded your quota.', 'domain': 'youtube.quota', 'reason': 'quotaExceeded'}]>".

(* a world in which every YouTube call hits the quota *)
Definition env_quota : Env :=
  {| search_execute := fun _ => inl (HttpError 403 quota_text);
     videos_execute := fun _ => inl (HttpError 403 quota_text);
     channels_execute := fun _ => inl (HttpError 403 quota_text);
     groq_create := fun _ => inr "NO | unrelated | None";
     openai_create := fun _ => inr "NO | unrelated | None";
     csv_write := fun _ => inr tt |}.

(* A small world: a keyword search finds one video of the channel
   UCexisting0000000000000a, titled 'Existing Creator', whose profile has
   the handle @existingcreator and 50,000 subscribers; the channel has one
   recent video with 5 views; Groq answers with the given text. *)
Definition sample_video : VideoResource :=
  {| vr_id := "vid00000001";
     vr_snippet := mkSnippet (Some "First date tips") (Some "What to say on a first date");
     vr_statistics := Some (mkStatistics (Some "5") (Some "0"));
     vr_duration := Some "PT1M30S" |}.

Definition sample_video_data : VideoData :=
  {| vd_videoId := "vid00000001";
     vd_snippet := mkSnippet (Some "First date tips") (Some "What to say on a first date");
     vd_statistics := mkStatistics (Some "5") (Some "0");
     duration_seconds := 90 |}.

Definition env_sample (groq_answer : Exc + string) : Env :=
  {| search_execute := fun history =>
       match last history with
       | Some (YtSearchKeyword _ _ _) =>
           inr [mkSearchItem "vid00000001" "UCexisting0000000000000a" (Some "Existing Creator")]
       | Some (YtSearchChannel _ channel _) => inr [mkSearchItem "vid00000001" channel None]
       | _ => inr []
       end;
     videos_execute := fun _ => inr [sample_video];
     channels_execute := fun _ =>
       inr [mkChannelResource (Some "Existing Creator") (Some "existingcreator")
              (Some "Dating advice for men")
              (Some (mkChannelStatistics (Some "50000") (Some "120") (Some "9000000")))];
     groq_create := fun _ => groq_answer;
     openai_create := fun _ => inl (OtherException "Connection error.");
     csv_write := fun _ => inr tt |}.

Definition sample_channel : ChannelInfo :=
  {| channel_id := "UCexisting0000000000000a"; title := "Existing Creator";
     handle := "@existingcreator"; description := "Dating advice for men";
     subscriber_count := 50000; video_count := 120; view_count := 9000000 |}.

Definition sample_template (content_text channel_description : string) : string :=
  "Video Content:" +:+ nl +:+ content_text +:+ nl
  +:+ "Channel Description: " +:+ channel_description +:+ nl
  +:+ "Format: YES/NO | Explanation | Category".

Definition sample_prompt : string :=
  default "" (niche_prompt sample_template sample_channel [sample_video_data]).

Definition sample_engagement (videos : list VideoData) : string := "0 avg comments per video".
Definition sample_follower_display (sub_count : Z) : string := "50.0K YT".

(* a finder whose registry knows the handle existingcreator *)
Definition finder_with_registry : Finder :=
  fresh_finder "key-a" ["key-b"] both_clients {["existingcreator"]} ∅.

(* a search result whose channel title is the registered handle *)
Definition item_titled_as_handle : SearchItem :=
  mkSearchItem "vid00000002" "UCexisting0000000000000a" (Some " @ExistingCreator ").

(* a profile inside the subscriber range of the finder *)
Definition admitted (self : Finder) (info : ChannelInfo) : Prop :=
  min_subscribers self <= subscriber_count info <= max_subscribers self.

(* A finder as __init__ and successful key switches leave it: the index
   points at a key, the analyzer in use was built with that key, every key
   has its usage counter. *)
Definition well_formed (self : Finder) : Prop :=
  (exists a, current_analyzer self = Some a
             /\ api_keys self !! current_key_index self = Some (developerKey a))
  /\ forall i, (i < length (api_keys self))%nat -> is_Some (api_calls_per_key self !! i).

(* what the loop of search_channels_by_keyword keeps true of its locals
   channels_found and channel_ids_seen *)
Definition found_invariant (self : Finder) (locals : list ChannelInfo * gset string) : Prop :=
  NoDup (channel_id <$> locals.1)
  /\ forall info, info ∈ locals.1 ->
       (channel_id info ∈ locals.2)
       /\ (channel_id info ∉ discovered_channels self)
       /\ admitted self info.

(* log' is log followed by calls that all satisfy P *)
Definition adds_only (P : Event -> bool) (log log' : list Event) : Prop :=
  exists calls, log' = log ++ calls /\ forallb P calls = true.

Definition is_csv_row (ev : Event) : bool :=
  match ev with CsvAppend _ => true | _ => false end.

(* number of rows handed to the CSV sink in a log *)
Definition csv_rows (log : list Event) : nat := length (filter is_csv_row log).

(* what processing a candidate never touches in the finder: the keys and
   the index of the key in use, the AI clients, the subscriber range, the
   registry loaded from discovered.csv *)
Definition same_pool (self self' : Finder) : Prop :=
  api_keys self' = api_keys self
  /\ current_key_index self' = current_key_index self
  /\ ai_analyzer self' = ai_analyzer self
  /\ min_subscribers self' = min_subscribers self
  /\ max_subscribers self' = max_subscribers self
  /\ discovered_handles self' = discovered_handles self
  /\ discovered_channel_ids self' = discovered_channel_ids self.

(* the row process_channel_optimized writes is the row of this candidate *)
Definition row_of (channel_info : ChannelInfo) (row : InfluencerData) : Prop :=
  name row = title channel_info
  /\ inf_handle row = handle channel_info
  /\ platform row = "YT"
  /\ status row = "Found".

(* What a stretch of a discovery run keeps true, from the finder, the log
   and the local matches_found at its start to those at its end: the
   matches counted are the channel ids added to discovered_channels, each
   has its row in the log, and the key index only moves forward. *)
Definition run_progress (env : Env) (self : Finder) (log : list Event) (m : Z)
    (self' : Finder) (log' : list Event) (m' : Z) : Prop :=
  m <= m'
  /\ discovered_channels self ⊆ discovered_channels self'
  /\ Z.of_nat (size (discovered_channels self'))
     = Z.of_nat (size (discovered_channels self)) + (m' - m)
  /\ Z.of_nat (csv_rows log) + (m' - m) <= Z.of_nat (csv_rows log')
  /\ ((forall history, csv_write env history = inr tt) ->
      Z.of_nat (csv_rows log') = Z.of_nat (csv_rows log) + (m' - m))
  /\ api_keys self' = api_keys self
  /\ (current_key_index self <= current_key_index self')%nat.

(* A world in which the sample channel qualifies: eight recent videos with
   2,500 views each, and Groq answers YES. *)
Definition popular_video : VideoResource :=
  {| vr_id := "vid00000001";
     vr_snippet := mkSnippet (Some "First date tips") (Some "What to say on a first date");
     vr_statistics := Some (mkStatistics (Some "2500") (Some "40"));
     vr_duration := Some "PT12M5S" |}.

Definition env_match : Env :=
  {| search_execute := fun history =>
       match last history with
       | Some (YtSearchKeyword _ _ _) =>
           inr [mkSearchItem "vid00000001" "UCexisting0000000000000a" (Some "Existing Creator")]
       | Some (YtSearchChannel _ channel _) => inr [mkSearchItem "vid00000001" channel None]
       | _ => inr []
       end;
     videos_execute := fun _ => inr (replicate 8 popular_video);
     channels_execute := fun _ =>
       inr [mkChannelResource (Some "Existing Creator") (Some "existingcreator")
              (Some "Dating advice for men")
              (Some (mkChannelStatistics (Some "50000") (Some "120") (Some "9000000")))];
     groq_create := fun _ => inr "YES | Dating tips for men | Dating Advice";
     openai_create := fun _ => inl (OtherException "Connection error.");
     csv_write := fun _ => inr tt |}.

(* What happens to the transcription server, one event at a time: a
   POST /transcribe, or one turn of the worker loop. *)
Inductive ServerOp : Type :=
| OpSubmit (video_id : option string) (max_duration : option Z) (fresh_id : string) (now : Z)
| OpWork (elapsed : Z).

Definition server_step (transcriber : string -> Z -> Exc + option string) (op : ServerOp)
    (self : Whisper.WhisperAPIServer) : Whisper.WhisperAPIServer :=
  match op with
  | OpSubmit video_id max_duration fresh_id now =>
      (Whisper.transcribe_video self video_id max_duration fresh_id now).1
  | OpWork elapsed => Whisper._process_queue_step transcriber elapsed self
  end.

Definition server_run (transcriber : string -> Z -> Exc + option string) (ops : list ServerOp)
    (self : Whisper.WhisperAPIServer) : Whisper.WhisperAPIServer :=
  foldl (fun s op => server_step transcriber op s) self ops.

(* the server as __init__ leaves it *)
Definition started_server (max_queue_size : nat) : Whisper.WhisperAPIServer :=
  Whisper.mkServer max_queue_size [] [] (Whisper.mkStats 0 0 0 0).

(* the result the worker stores for a request, given the transcriber's
   answer and the measured time *)
Definition result_of (req : Whisper.TranscriptionRequest) (answer : option string)
    (elapsed : Z) : Whisper.TranscriptionResult :=
  if match answer with Some t => PyStr.truthy t | None => false end
  then Whisper.mkResult (Whisper.req_request_id req) (Whisper.req_video_id req)
         true answer None elapsed
  else Whisper.mkResult (Whisper.req_request_id req) (Whisper.req_video_id req)
         false None (Some "Transcription failed") elapsed.

(* a later event that does not reuse the request id *)
Definition op_avoids (id : string) (op : ServerOp) : Prop :=
  match op with
  | OpSubmit _ _ fresh_id _ => fresh_id <> id
  | OpWork _ => True
  end.

(* a transcriber that crashes on every video *)
Definition transcriber_crash (video_id : string) (max_duration_minutes : Z)
  : Exc + option string :=
  inl (OtherException "CUDA out of memory").






(* a run of quota errors handled one after the other: the types reported *)
Fixpoint quota_errors (n : nat) (content : string) (manager : App.MultiAPIManager)
  : App.MultiAPIManager * list string :=
  match n with
  | O => (manager, [])
  | S n' =>
      match App.handle_youtube_api_error (App.ApiHttpError 403 content) (Some manager) with
      | (Some manager', type) =>
          let '(final, types) := quota_errors n' content manager' in (final, type :: types)
      | (None, type) => (manager, [type])
      end
  end.

(* k calls of switch_to_next_key *)
Fixpoint switches (k : nat) (manager : App.MultiAPIManager) : App.MultiAPIManager :=
  match k with
  | O => manager
  | S k' => switches k' (App.switch_to_next_key manager).1
  end.

(* a character of a handle in the registry *)
Definition no_sep (s : string) : Prop :=
  forall c, In c (String.list_ascii_of_string s) -> Startup.is_sep c = false.

(* a row of discovered.csv that has a value (possibly empty) under both
   columns the loader reads *)
Definition row_complete (row : Startup.Row) : Prop :=
  Startup.Handle row <> Startup.NoValue /\ Startup.Channel_ID row <> Startup.NoValue.

(* an environment with a gap in the numbering of its keys *)
Definition environ_with_gap : gmap string string :=
  <["YOUTUBE_API_KEY" := "key-a"]>
    (<["YOUTUBE_API_KEY_2" := "key-b"]> (<["YOUTUBE_API_KEY_4" := "key-d"]> ∅)).

(* a discovered.csv with two handles in one cell, and a short row *)
Definition sample_rows : list Startup.Row :=
  [Startup.mkRow (Startup.Value " @ExistingCreator, @Other_Guy ") (Startup.Value "");
   Startup.mkRow (Startup.Value "someone") (Startup.Value "UCsomeone000000000000000")].

(* a finder whose registry was loaded from the sample file *)
Definition finder_from_file : Finder :=
  fresh_finder "key-a" [] both_clients
    (Startup.load_registry (Some sample_rows)).1 (Startup.load_registry (Some sample_rows)).2.

(* --------------------------------------------------------------------- *)
(* StreamlitOptimizedAnalyzer (streamlit_optimized_analyzer.py)            *)
(* --------------------------------------------------------------------- *)
Module Streamlit.

Section Analyzer.

Variable env : Env.

(* random.sample(population, k) *)
Variable random_sample : list VideoData -> nat -> list VideoData.

(* The except clause the methods share:
     if hasattr(e, 'resp') and e.resp.status == 403 and (...): raise e
     else: return <fallback> *)
Definition reraise_quota {S A} (fallback : A) (e : Exc) : Py S A :=
  match e with
  | HttpError status text => if is_quota_error status text then raise e else mret fallback
  | _ => mret fallback
  end.

Definition _get_channel_info (channel_id : string) : Py Analyzer (option ChannelResource) :=
  try_except
    (self ← get;
     items ← external (YtChannelsList (developerKey self) channel_id) (channels_execute env);
     match items with
     | channel :: _ => mret (Some channel)
     | [] => mret None
     end)
    (reraise_quota None).

(* duration_seconds <= 60 *)
Definition is_short (v : VideoData) : bool := duration_seconds v <=? 60.

(* `for video in videos_response['items']` on all_videos, shorts and
   long_form *)
Fixpoint classify_videos (items : list VideoResource)
    (locals : list VideoData * list VideoData * list VideoData)
  : Py Analyzer (list VideoData * list VideoData * list VideoData) :=
  match items with
  | [] => mret locals
  | video :: rest =>
      let '(all_videos, shorts, long_form) := locals in
      duration ← subscript "duration" (vr_duration video);
      let video_data :=
        {| vd_videoId := vr_id video;
           vd_snippet := vr_snippet video;
           vd_statistics := default (mkStatistics None None) (vr_statistics video);
           duration_seconds := _parse_duration duration |} in
      classify_videos rest
        (all_videos ++ [video_data],
         if is_short video_data then shorts ++ [video_data] else shorts,
         if is_short video_data then long_form else long_form ++ [video_data])
  end.

(* the `# Smart selection` block *)
Definition select_videos (max_results : nat)
    (all_videos shorts long_form : list VideoData) : list VideoData :=
  if (max_results =? 10)%nat then
    let target_shorts := Nat.min 5 (length shorts) in
    let target_long_form := Nat.min 5 (length long_form) in
    let target_long_form :=
      if (length shorts <? 5)%nat
      then Nat.min (max_results - target_shorts) (length long_form)
      else target_long_form in
    let target_shorts :=
      if (length shorts <? 5)%nat then target_shorts
      else if (length long_form <? 5)%nat
           then Nat.min (max_results - target_long_form) (length shorts)
           else target_shorts in
    (match shorts with
     | [] => []
     | _ => if (0 <? target_shorts)%nat then random_sample shorts target_shorts else []
     end)
    ++ (match long_form with
        | [] => []
        | _ => if (0 <? target_long_form)%nat then random_sample long_form target_long_form
               else []
        end)
  else if (max_results <? length all_videos)%nat then random_sample all_videos max_results
  else all_videos.

Definition _get_optimized_random_videos (channel_id : string) (max_results : nat)
  : Py Analyzer (list VideoData) :=
  try_except
    (self ← get;
     search_items ← external (YtSearchChannel (developerKey self) channel_id 15)
                             (search_execute env);
     match search_items with
     | [] => mret []
     | _ =>
         let video_ids := si_videoId <$> search_items in
         videos_items ← external (YtVideosList (developerKey self) (PyStr.join "," video_ids))
                                 (videos_execute env);
         locals ← classify_videos videos_items ([], [], []);
         let '(all_videos, shorts, long_form) :=
           (locals : list VideoData * list VideoData * list VideoData) in
         mret (select_videos max_results all_videos shorts long_form)
     end)
    (reraise_quota []).

End Analyzer.

End Streamlit.

(* --------------------------------------------------------------------- *)
(* AIAnalyzer.generate_insights (ai_analyzer.py)                           *)
(* --------------------------------------------------------------------- *)
Section Insights.

Variable env : Env.

(* the two f-string prompts, as functions of the text they interpolate:
   transcripts[:8000] and comments[:6000] *)
Variable tone_prompt : string -> string.
Variable engagement_prompt : string -> string.

(* `not text or text.strip() == ""` *)
Definition blank (text : string) : bool :=
  negb (PyStr.truthy text) || String.eqb (PyStr.strip text) "".

Definition _generate_tone_content_summary {S} (self : AIAnalyzer) (transcripts : string)
  : Py S string :=
  if blank transcripts then mret "No transcript data available for analysis."
  else _call_ai_api env self (tone_prompt (PyStr.take (Z.to_nat 8000) transcripts))
         "tone and content summary".

Definition _generate_engagement_notes {S} (self : AIAnalyzer) (comments : string)
  : Py S string :=
  if blank comments then mret "No comment data available for analysis."
  else _call_ai_api env self (engagement_prompt (PyStr.take (Z.to_nat 6000) comments))
         "engagement notes".

(* the dict returned, as the pair (tone_content_summary, engagement_notes) *)
Definition generate_insights {S} (self : AIAnalyzer) (transcripts comments : string)
  : Py S (string * string) :=
  tone_content_summary ← _generate_tone_content_summary self transcripts;
  engagement_notes ← _generate_engagement_notes self comments;
  mret (tone_content_summary, engagement_notes).

End Insights.

(* the video_data dict built from an item of the detail response *)
Definition video_data_of (video : VideoResource) : VideoData :=
  {| vd_videoId := vr_id video;
     vd_snippet := vr_snippet video;
     vd_statistics := default (mkStatistics None None) (vr_statistics video);
     duration_seconds := _parse_duration (default "" (vr_duration video)) |}.

(* how many of the videos are shorts (at most 60 seconds), how many are not *)
Definition count_shorts (videos : list VideoData) : nat :=
  length (List.filter Streamlit.is_short videos).

Definition count_long_form (videos : list VideoData) : nat :=
  length (List.filter (fun v => negb (Streamlit.is_short v)) videos).

(* --------------------------------------------------------------------- *)
(* WhisperAPIClient.transcribe_video_async (whisper_client.py), talking    *)
(* to the server above.  HTTP transport errors are left out: each request  *)
(* reaches the server and its answer comes back.                           *)
(* --------------------------------------------------------------------- *)
Module WhisperClient.

Section Client.

Variable transcriber : string -> Z -> Exc + option string.

(* what one poll makes of the answer to GET /result/<id>: the value the
   method returns (JNull for None), or go on polling *)
Inductive PollOutcome : Type :=
| Done (result : Whisper.Json)
| Continue.

Definition read_result (response : Whisper.Response) : PollOutcome :=
  if negb (Whisper.http_status response =? 200) then Continue
  else
    match Whisper.body_get "status" response with
    | Some (Whisper.JStr status) =>
        if String.eqb status "completed" then
          match Whisper.body_get "transcript" response with
          | Some transcript => Done transcript
          | None => Done Whisper.JNull          (* KeyError, caught: return None *)
          end
        else if String.eqb status "failed" then Done Whisper.JNull
        else Continue
    | Some _ => Continue
    | None => Done Whisper.JNull                (* KeyError, caught: return None *)
    end.

(* `for poll in range(max_polls)`: before each poll the client sleeps, and
   the server goes through the events of that sleep (the head of world).
   The result carries the number of polls made. *)
Fixpoint poll_loop (polls : nat) (request_id : string) (world : list (list ServerOp))
    (server : Whisper.WhisperAPIServer) : Whisper.Json * Whisper.WhisperAPIServer * nat :=
  match polls with
  | O => (Whisper.JNull, server, O)
  | S polls' =>
      let server1 := server_run transcriber (hd [] world) server in
      match read_result (Whisper.get_result server1 request_id) with
      | Done result => (result, server1, 1%nat)
      | Continue =>
          let '(result, server2, n) := poll_loop polls' request_id (tl world) server1 in
          (result, server2, S n)
      end
  end.

(* fresh_id and now are the uuid and the time the server draws for the
   submission *)
Definition transcribe_video_async (video_id : string) (max_duration_minutes : Z)
    (fresh_id : string) (now : Z) (world : list (list ServerOp))
    (server : Whisper.WhisperAPIServer) : Whisper.Json * Whisper.WhisperAPIServer * nat :=
  let '(server1, response) :=
    Whisper.transcribe_video server (Some video_id) (Some max_duration_minutes) fresh_id now in
  if negb (Whisper.http_status response =? 200) then (Whisper.JNull, server1, O)
  else
    match Whisper.body_get "request_id" response with
    | Some (Whisper.JStr request_id) => poll_loop 60 request_id world server1
    | _ => (Whisper.JNull, server1, O)
    end.

End Client.

End WhisperClient.

(* --------------------------------------------------------------------- *)
(* The threads of the server (whisper_api_server.py).  The worker thread   *)
(* of _process_queue and the handler threads that Flask starts for the     *)
(* POST routes (app.run(..., threaded=True)) run side by side on the same  *)
(* queue, results and statistics.  A thread is followed from one operation *)
(* on these shared objects to the next; one such operation (a Queue call,  *)
(* a read or a write of a dict entry) is indivisible, a statement that     *)
(* reads and then writes is two operations.                                *)
(* --------------------------------------------------------------------- *)
Module Threads.

Import Whisper.

(* where the worker is in the `while True` loop of _process_queue *)
Inductive Worker : Type :=
| WGet                                                   (* line 252: request_queue.get *)
| WQueueSize (req : TranscriptionRequest)                (* line 253: qsize() *)
| WQueueSizeStore (req : TranscriptionRequest) (n : Z)   (* line 253: the store *)
| WTranscribe (req : TranscriptionRequest)               (* lines 259-262 *)
| WCount (req : TranscriptionRequest) (transcript : option string)
                                                         (* lines 267-288 *)
| WStore (req : TranscriptionRequest) (result : TranscriptionResult)
                                                         (* line 291 *)
| WLen                                                   (* lines 294-295 *)
| WDelete (keys : list string)                           (* lines 296-297 *)
| WTaskDone.                                             (* line 300 *)

(* One operation of the worker; elapsed is the processing time it
   measures.  queue.Empty keeps it at the get; an exception of the
   transcriber, or of a del, takes it back there through the except
   clause of lines 305-307.  Only the worker writes results, completed
   and failed: `+= 1` on these two, and len(self.results) followed by
   sorted(self.results.keys()), are each taken as one operation.  The GET
   routes only read and are no threads below. *)
Definition worker_step (transcriber : string -> Z -> Exc + option string) (elapsed : Z)
    (w : Worker) (self : WhisperAPIServer) : Worker * WhisperAPIServer :=
  match w with
  | WGet =>
      match request_queue self with
      | [] => (WGet, self)
      | req :: rest => (WQueueSize req, set_queue rest self)
      end
  | WQueueSize req => (WQueueSizeStore req (qsize self), self)
  | WQueueSizeStore req n =>
      (WTranscribe req, set_stats (set_queue_size n (processing_stats self)) self)
  | WTranscribe req =>
      match transcriber (req_video_id req) (max_duration_minutes req) with
      | inl _ => (WGet, self)
      | inr transcript => (WCount req transcript, self)
      end
  | WCount req transcript =>
      let ok := match transcript with Some t => PyStr.truthy t | None => false end in
      let result :=
        if ok then
          {| request_id := req_request_id req; video_id := req_video_id req;
             success := true; transcript := transcript; error := None;
             processing_time := elapsed |}
        else
          {| request_id := req_request_id req; video_id := req_video_id req;
             success := false; transcript := None;
             error := Some "Transcription failed";
             processing_time := elapsed |} in
      (WStore req result,
       set_stats ((if ok then incr_completed else incr_failed) (processing_stats self)) self)
  | WStore req result =>
      (WLen, set_results (dict_set (req_request_id req) result (results self)) self)
  | WLen =>
      if bool_decide (100 < length (results self))%nat
      then (WDelete (take 50 (PyStr.sorted (dict_keys (results self)))), self)
      else (WTaskDone, self)
  | WDelete [] => (WTaskDone, self)
  | WDelete (key :: keys) =>
      if dict_mem key (results self)
      then (WDelete keys, set_results (dict_del key (results self)) self)
      else (WGet, self)
  | WTaskDone => (WGet, self)
  end.

(* where a handler of POST /transcribe (lines 92-131) or of
   POST /transcribe/sync (lines 164-232, the same statements up to line
   192) is.  HAnswered: the handler has nothing left to write; status is
   what POST /transcribe answers, while POST /transcribe/sync, on 200,
   goes on to wait for the result, which only reads. *)
Inductive Handler : Type :=
| HRequest (body : Body)                               (* lines 96-101 *)
| HCapacity (video_id : string) (max_duration : Z)     (* line 104: qsize() *)
| HPut (request : TranscriptionRequest)                (* line 117: put *)
| HTotal                                               (* line 118: the read *)
| HTotalStore (n : Z)                                  (* line 118: the store *)
| HQueueSize                                           (* line 119: qsize() *)
| HQueueSizeStore (n : Z)                              (* line 119: the store *)
| HAnswered (status : Z).

(* One operation of a handler; fresh_id and now are the uuid and the time
   it draws.  Queue(maxsize=n).put waits while the queue holds n items
   (never, for n = 0): a handler that waits stays where it is. *)
Definition handler_step (fresh_id : string) (now : Z) (h : Handler) (self : WhisperAPIServer)
  : Handler * WhisperAPIServer :=
  match h with
  | HRequest (BodyError _) => (HAnswered 500, self)
  | HRequest (BodyObject None _) => (HAnswered 400, self)
  | HRequest (BodyObject (Some vid) max_duration) =>
      if negb (PyStr.truthy vid) then (HAnswered 400, self)
      else (HCapacity vid (default 120 max_duration), self)
  | HCapacity vid max_duration =>
      if Z.of_nat (max_queue_size self) <=? qsize self then (HAnswered 503, self)
      else (HPut {| req_request_id := fresh_id; req_video_id := vid;
                    max_duration_minutes := max_duration; timestamp := now |}, self)
  | HPut request =>
      if (max_queue_size self =? 0)%nat
         || (length (request_queue self) <? max_queue_size self)%nat
      then (HTotal, set_queue (request_queue self ++ [request]) self)
      else (HPut request, self)
  | HTotal => (HTotalStore (total_requests (processing_stats self)), self)
  | HTotalStore n =>
      (HQueueSize,
       set_stats {| total_requests := n + 1;
                    completed := completed (processing_stats self);
                    failed := failed (processing_stats self);
                    queue_size := queue_size (processing_stats self) |} self)
  | HQueueSize => (HQueueSizeStore (qsize self), self)
  | HQueueSizeStore n =>
      (HAnswered 200, set_stats (set_queue_size n (processing_stats self)) self)
  | HAnswered status => (HAnswered status, self)
  end.

(* the shared objects and the threads *)
Record System : Type := mkSystem {
  shared : WhisperAPIServer;
  worker : Worker;
  handlers : list Handler
}.

(* what happens next: a POST arrives and gets its thread, handler i makes
   its next operation, the worker makes its next operation *)
Inductive Tick : Type :=
| TArrive (body : Body)
| THandler (i : nat) (fresh_id : string) (now : Z)
| TWorker (elapsed : Z).

Definition tick (transcriber : string -> Z -> Exc + option string) (t : Tick) (sys : System)
  : System :=
  match t with
  | TArrive body => mkSystem (shared sys) (worker sys) (handlers sys ++ [HRequest body])
  | THandler i fresh_id now =>
      match handlers sys !! i with
      | Some h =>
          let '(h', self') := handler_step fresh_id now h (shared sys) in
          mkSystem self' (worker sys) (<[i := h']> (handlers sys))
      | None => sys
      end
  | TWorker elapsed =>
      let '(w', self') := worker_step transcriber elapsed (worker sys) (shared sys) in
      mkSystem self' w' (handlers sys)
  end.

(* the system after a schedule, any interleaving of the threads *)
Definition run (transcriber : string -> Z -> Exc + option string) (schedule : list Tick)
    (sys : System) : System :=
  foldl (fun sys t => tick transcriber t sys) sys schedule.

(* the server after __init__: the worker waits for a request, no POST yet *)
Definition started (max_queue_size : nat) : System :=
  mkSystem (started_server max_queue_size) WGet [].

(* What holds of the shared objects whichever way the threads are
   scheduled: the bound on the queue, a store without a repeated id, the
   store within 100 results except between the worker's store and the end
   of its clean-up, when it holds one result more (during the deletions,
   the 51 that stay and the keys still to delete), and completed and
   failed counting every stored result. *)
Definition threads_invariant (sys : System) : Prop :=
  let self := shared sys in
  (length (request_queue self) <= max_queue_size self)%nat
  /\ Forall (fun h => match h with
                      | HPut _ => (0 < max_queue_size self)%nat
                      | _ => True
                      end) (handlers sys)
  /\ NoDup (dict_keys (results self))
  /\ (length (results self) <= 101)%nat
  /\ 0 <= completed (processing_stats self)
  /\ 0 <= failed (processing_stats self)
  /\ Z.of_nat (length (results self))
     <= completed (processing_stats self) + failed (processing_stats self)
  /\ match worker sys with
     | WStore _ _ =>
         (length (results self) <= 100)%nat
         /\ Z.of_nat (length (results self)) + 1
            <= completed (processing_stats self) + failed (processing_stats self)
     | WLen => True
     | WDelete keys =>
         NoDup keys
         /\ (forall key, key ∈ keys -> key ∈ dict_keys (results self))
         /\ length (results self) = (51 + length keys)%nat
     | _ => (length (results self) <= 100)%nat
     end.

(* the worker alone, for a number of operations *)
Fixpoint worker_alone (transcriber : string -> Z -> Exc + option string) (elapsed : Z)
    (n : nat) (w : Worker) (self : WhisperAPIServer) : Worker * WhisperAPIServer :=
  match n with
  | O => (w, self)
  | S n' =>
      let '(w', self') := worker_step transcriber elapsed w self in
      worker_alone transcriber elapsed n' w' self'
  end.

(* a handler alone, for a number of operations *)
Fixpoint handler_alone (fresh_id : string) (now : Z) (n : nat) (h : Handler)
    (self : WhisperAPIServer) : Handler * WhisperAPIServer :=
  match n with
  | O => (h, self)
  | S n' =>
      let '(h', self') := handler_step fresh_id now h self in
      handler_alone fresh_id now n' h' self'
  end.

(* the operations of one POST with a video id handled to its end, as
   ticks of handler i *)
Definition handle_post (i : nat) (fresh_id : string) : list Tick :=
  replicate 7 (THandler i fresh_id 0).

(* two POSTs whose handlers both read total_requests before either
   writes it back *)
Definition racing_posts : list Tick :=
  [TArrive (BodyObject (Some "dQw4w9WgXcQ") None);
   TArrive (BodyObject (Some "9bZkp7q19f0") None)]
  ++ replicate 4 (THandler 0 (uuid_of 1) 0)
  ++ replicate 4 (THandler 1 (uuid_of 2) 0)
  ++ replicate 3 (THandler 0 (uuid_of 1) 0)
  ++ replicate 3 (THandler 1 (uuid_of 2) 0).

(* jobs submitted and served one after the other, ids in the order given,
   job number j by handler j *)
Fixpoint jobs_in_turn (first : nat) (ids : list string) : list Tick :=
  match ids with
  | [] => []
  | id :: rest =>
      TArrive (BodyObject (Some "dQw4w9WgXcQ") None)
      :: handle_post first id ++ replicate 8 (TWorker 1) ++ jobs_in_turn (S first) rest
  end.

(* 100 jobs in turn, then one more, followed up to the worker's store of
   its result *)
Definition one_more_than_100 : list Tick :=
  jobs_in_turn 0 (uuid_of <$> seq 1 100)
  ++ [TArrive (BodyObject (Some "dQw4w9WgXcQ") None)]
  ++ handle_post 100 (uuid_of 101)
  ++ replicate 6 (TWorker 1).

End Threads.

(* ===================================================================== *)
(* Properties                                                             *)
(* ===================================================================== *)

Example strip_ex : PyStr.strip "  YES " = "YES".
Proof. reflexivity. Qed.
Example split_ex : PyStr.split "|" "a|b||c" = ["a"; "b"; ""; "c"].
Proof. reflexivity. Qed.
Example int_ex : PyStr.int " 1_000 " = Some 1000.
Proof. reflexivity. Qed.
Example sorted_ex : PyStr.sorted ["b"; "a"; "ab"] = ["a"; "ab"; "b"].
Proof. reflexivity. Qed.
Example parse_duration_1 : _parse_duration "PT1M30S" = 90.
Proof. reflexivity. Qed.
Example parse_duration_2 : _parse_duration "PT2H5M30S" = 7530.
Proof. reflexivity. Qed.
Example parse_duration_3 : _parse_duration "PT" = 0.
Proof. reflexivity. Qed.
Example parse_duration_4 : _parse_duration "PT45S" = 45.
Proof. reflexivity. Qed.
Example uuid_of_ex : uuid_of 27 = "00000000-0000-4000-8000-00000000001b".
Proof. reflexivity. Qed.

Arguments PyStr.take : simpl never.
Arguments PyStr.strip : simpl never.
Arguments PyStr.join : simpl never.
Arguments PyStr.int : simpl never.
Arguments PyStr.contains : simpl never.
Arguments String.append : simpl never.

Ltac py_unfold :=
  unfold mbind, mret, Py_bind, Py_ret, bind, ret, raise, get, put, modify,
         try_except, external, subscript in *.

(* The monad, step by step. *)
Lemma bind_returns {S A B} (m : Py S A) (k : A -> Py S B) s log a s' log' :
  m s log = mkOut (inr a) s' log' -> (m ≫= k) s log = k a s' log'.
Proof. intros H. unfold mbind, Py_bind, bind. rewrite H. reflexivity. Qed.

Lemma bind_raises {S A B} (m : Py S A) (k : A -> Py S B) s log e s' log' :
  m s log = mkOut (inl e) s' log' -> (m ≫= k) s log = mkOut (inl e) s' log'.
Proof. intros H. unfold mbind, Py_bind, bind. rewrite H. reflexivity. Qed.

Lemma try_except_returned {S A} (m : Py S A) (h : Exc -> Py S A) s log a s' log' :
  m s log = mkOut (inr a) s' log' -> try_except m h s log = mkOut (inr a) s' log'.
Proof. intros H. unfold try_except. rewrite H. reflexivity. Qed.

Lemma try_except_raised {S A} (m : Py S A) (h : Exc -> Py S A) s log e s' log' :
  m s log = mkOut (inl e) s' log' -> try_except m h s log = h e s' log'.
Proof. intros H. unfold try_except. rewrite H. reflexivity. Qed.

Lemma bind_external {S A B} ev (answer : list Event -> Exc + A) (k : A -> Py S B) s log :
  (external ev answer ≫= k) s log
  = match answer (log ++ [ev]) with
    | inr a => k a s (log ++ [ev])
    | inl e => mkOut (inl e) s (log ++ [ev])
    end.
Proof. reflexivity. Qed.

(* a try/except whose handler returns never raises *)
Lemma try_except_returns {S A} (m : Py S A) (h : Exc -> Py S A) s log :
  (forall e s' log', returned (out_res (h e s' log'))) ->
  returned (out_res (try_except m h s log)).
Proof.
  intros H. unfold try_except.
  destruct (out_res (m s log)) as [e|a] eqn:E; [apply H|].
  rewrite E. eexists; reflexivity.
Qed.

(* --------------------------------------------------------------------- *)
(* The credential pool                                                    *)
(* --------------------------------------------------------------------- *)
Section Pool.

Implicit Types (self : Finder) (log : list Event).

(* What one rotation does, in closed form. *)
Lemma switch_to_next_api_key_unfold self log :
  switch_to_next_api_key self log =
    let self1 := set_current_key_index (S (current_key_index self)) self in
    match api_keys self !! S (current_key_index self) with
    | Some api_key =>
        mkOut (inr tt) (set_current_analyzer (Some (new_Analyzer api_key)) self1) log
    | None => mkOut (inl (QuotaExceededError "All API keys exhausted")) self1 log
    end.
Proof.
  unfold switch_to_next_api_key, _initialize_current_analyzer, list_index.
  py_unfold. cbn. rewrite Nat.add_1_r.
  destruct (api_keys self !! S (current_key_index self)) as [k|] eqn:Hk.
  - pose proof (lookup_lt_Some _ _ _ Hk) as Hlt.
    rewrite bool_decide_eq_false_2 by lia. cbn.
    rewrite bool_decide_eq_true_2 by lia. cbn.
    rewrite Hk. reflexivity.
  - apply lookup_ge_None in Hk.
    rewrite bool_decide_eq_true_2 by lia. reflexivity.
Qed.

Lemma switch_index self log :
  current_key_index (out_st (switch_to_next_api_key self log))
  = S (current_key_index self).
Proof.
  rewrite switch_to_next_api_key_unfold. cbn.
  destruct (api_keys self !! _); reflexivity.
Qed.

Lemma switch_keys self log :
  api_keys (out_st (switch_to_next_api_key self log)) = api_keys self.
Proof.
  rewrite switch_to_next_api_key_unfold. cbn.
  destruct (api_keys self !! _); reflexivity.
Qed.

Lemma switch_log self log : out_log (switch_to_next_api_key self log) = log.
Proof.
  rewrite switch_to_next_api_key_unfold. cbn.
  destruct (api_keys self !! _); reflexivity.
Qed.

Lemma switch_ok self log :
  (S (current_key_index self) < length (api_keys self))%nat ->
  out_res (switch_to_next_api_key self log) = inr tt.
Proof.
  intros H. rewrite switch_to_next_api_key_unfold. cbn.
  destruct (api_keys self !! _) eqn:Hk; [reflexivity|].
  apply lookup_ge_None in Hk. lia.
Qed.

Lemma switch_exhausted self log :
  (length (api_keys self) <= S (current_key_index self))%nat ->
  out_res (switch_to_next_api_key self log)
  = inl (QuotaExceededError "All API keys exhausted").
Proof.
  intros H. rewrite switch_to_next_api_key_unfold. cbn.
  destruct (api_keys self !! _) eqn:Hk; [|reflexivity].
  apply lookup_lt_Some in Hk. lia.
Qed.

Lemma track_api_usage_index self log :
  current_key_index (out_st (track_api_usage self log)) = current_key_index self
  /\ api_keys (out_st (track_api_usage self log)) = api_keys self.
Proof.
  unfold track_api_usage. py_unfold. cbn.
  destruct (api_calls_per_key self !! current_key_index self); cbn; auto.
Qed.

Lemma rotations_S k self :
  rotations (S k) self = rotations k (out_st (switch_to_next_api_key self [])).
Proof.
  unfold rotations. cbn.
  destruct (pool_run (replicate k OpRotate) _); reflexivity.
Qed.

Lemma rotations_index k : forall self,
  current_key_index (rotations k self) = (current_key_index self + k)%nat
  /\ api_keys (rotations k self) = api_keys self.
Proof.
  induction k as [|k IH]; intros self.
  - unfold rotations; cbn. split; [lia | reflexivity].
  - rewrite rotations_S. destruct (IH (out_st (switch_to_next_api_key self []))) as [Hi Hk].
    rewrite Hi, Hk, switch_index, switch_keys. split; [lia | reflexivity].
Qed.

(** C2: in a pool of n >= 2 keys that stands at its first key, each of
    the first n-1 calls of switch_to_next_api_key returns normally, moves
    the index up by exactly one (to k+1 at the call number k+1) and binds
    the analyzer to the key at the new index; the n-th call raises
    QuotaExceededError; and over any number of calls the index never
    goes back. *)
Theorem C2_rotation_forward_only self :
  current_key_index self = 0%nat ->
  (2 <= length (api_keys self))%nat ->
  let n := length (api_keys self) in
  (forall k log, (k < n - 1)%nat ->
     let before := rotations k self in
     let o := switch_to_next_api_key before log in
     out_res o = inr tt
     /\ current_key_index (out_st o) = S (current_key_index before)
     /\ current_key_index (out_st o) = S k
     /\ developerKey <$> current_analyzer (out_st o) = api_keys self !! S k)
  /\ (forall log,
        out_res (switch_to_next_api_key (rotations (n - 1) self) log)
        = inl (QuotaExceededError "All API keys exhausted"))
  /\ (forall j k, (j <= k)%nat ->
        (current_key_index (rotations j self) <= current_key_index (rotations k self))%nat).
Proof.
  intros H0 Hn n. repeat split.
  - apply switch_ok. destruct (rotations_index k self) as [-> ->]. lia.
  - apply switch_index.
  - rewrite switch_index. destruct (rotations_index k self) as [-> _]. lia.
  - rewrite switch_to_next_api_key_unfold. cbn.
    destruct (rotations_index k self) as [Hi Hk]. rewrite Hi, Hk, H0. cbn.
    destruct (api_keys self !! S k) eqn:E; cbn; [reflexivity|].
    apply lookup_ge_None in E. lia.
  - intros log. apply switch_exhausted.
    destruct (rotations_index (n - 1) self) as [-> ->]. lia.
  - intros j k Hjk.
    destruct (rotations_index j self) as [-> _].
    destruct (rotations_index k self) as [-> _]. lia.
Qed.

Lemma C2_rotation_forward_only_witness :
  current_key_index pool3 = 0%nat
  /\ (2 <= length (api_keys pool3))%nat
  /\ current_key_index (out_st (switch_to_next_api_key (rotations 1 pool3) [])) = 2%nat
  /\ out_res (switch_to_next_api_key (rotations 2 pool3) [])
     = inl (QuotaExceededError "All API keys exhausted").
Proof.
  assert (H0 : current_key_index pool3 = 0%nat) by reflexivity.
  assert (Hn : (2 <= length (api_keys pool3))%nat) by (cbn; lia).
  destruct (C2_rotation_forward_only pool3 H0 Hn) as (Hok & Hlast & _).
  split; [exact H0|]. split; [exact Hn|]. split.
  - assert (Hk : (1 < length (api_keys pool3) - 1)%nat) by (cbn; lia).
    exact (proj1 (proj2 (proj2 (Hok 1%nat [] Hk)))).
  - exact (Hlast []).
Defined.

Lemma Finder_init_nonempty first others ai handles ids log :
  Finder_init (first :: others) ai handles ids tt log
  = mkOut (inr (fresh_finder first others ai handles ids)) tt log.
Proof. reflexivity. Qed.

Lemma Finder_init_empty ai handles ids log :
  raised (out_res (Finder_init [] ai handles ids tt log)).
Proof. eexists; reflexivity. Qed.

Lemma pool_op_index op self :
  let o := pool_op op self [] in
  api_keys (out_st o) = api_keys self
  /\ (current_key_index self <= current_key_index (out_st o))%nat
  /\ (rotation_raised (out_res o) = true ->
      (length (api_keys self) <= current_key_index (out_st o))%nat)
  /\ (rotation_raised (out_res o) = false ->
      (current_key_index self < length (api_keys self))%nat ->
      (current_key_index (out_st o) < length (api_keys self))%nat).
Proof.
  destruct op; cbn.
  - rewrite switch_keys, switch_index. repeat split; try lia.
    + intros Hr.
      destruct (decide (S (current_key_index self) < length (api_keys self))%nat) as [Hlt|Hge];
        [|lia].
      rewrite (switch_ok _ _ Hlt) in Hr. discriminate.
    + intros Hr _.
      destruct (decide (S (current_key_index self) < length (api_keys self))%nat) as [Hlt|Hge];
        [lia|].
      rewrite switch_exhausted in Hr by lia. discriminate.
  - destruct (track_api_usage_index self []) as [-> ->]. repeat split; try lia.
    unfold track_api_usage. py_unfold. cbn.
    destruct (api_calls_per_key self !! current_key_index self); cbn; discriminate.
Qed.

Lemma pool_run_invariant ops : forall self,
  let self' := (pool_run ops self).1 in
  let outcomes := (pool_run ops self).2 in
  api_keys self' = api_keys self
  /\ (current_key_index self <= current_key_index self')%nat
  /\ (existsb rotation_raised outcomes = true ->
      (length (api_keys self) <= current_key_index self')%nat)
  /\ (existsb rotation_raised outcomes = false ->
      (current_key_index self < length (api_keys self))%nat ->
      (current_key_index self' < length (api_keys self))%nat).
Proof.
  induction ops as [|op ops IH]; intros self; cbn.
  - repeat split; auto; discriminate.
  - destruct (pool_op_index op self) as (Hk & Hle & Hr & Hnr).
    specialize (IH (out_st (pool_op op self []))).
    destruct (pool_run ops (out_st (pool_op op self []))) as [self' outcomes].
    cbn in *. destruct IH as (IHk & IHle & IHr & IHnr).
    rewrite Hk in *. repeat split.
    + exact IHk.
    + lia.
    + intros Hex. apply orb_true_iff in Hex as [Hex|Hex].
      * specialize (Hr Hex). lia.
      * auto.
    + intros Hex Hlt. apply orb_false_iff in Hex as [Hex1 Hex2]. auto.
Qed.

(** C5 (as the code has it): a pool built from a non-empty key list
    starts with 0 <= index < len; after any sequence of
    track_api_usage and switch_to_next_api_key calls in which no
    rotation raised, the index is still below len(api_keys); once a
    rotation has raised QuotaExceededError the index is at or beyond
    len(api_keys), because the method advances the index before it tests
    for exhaustion. *)
Theorem C5_index_in_range_until_exhausted keys ai handles ids log self ops :
  out_res (Finder_init keys ai handles ids tt log) = inr self ->
  let self' := (pool_run ops self).1 in
  let outcomes := (pool_run ops self).2 in
  api_keys self' = keys
  /\ keys <> []
  /\ (existsb rotation_raised outcomes = false ->
      (0 <= current_key_index self' < length (api_keys self'))%nat)
  /\ (existsb rotation_raised outcomes = true ->
      (length (api_keys self') <= current_key_index self')%nat).
Proof.
  intros Hinit. destruct keys as [|first others]; [discriminate|].
  rewrite Finder_init_nonempty in Hinit. cbn in Hinit.
  injection Hinit as <-.
  destruct (pool_run_invariant ops (fresh_finder first others ai handles ids))
    as (Hk & Hle & Hr & Hnr).
  cbn zeta. rewrite Hk. cbn [api_keys fresh_finder] in *.
  split; [reflexivity|]. split; [discriminate|]. split.
  - intros Hex. split; [lia|]. apply Hnr; [exact Hex | cbn; lia].
  - intros Hex. apply Hr. exact Hex.
Qed.

Lemma C5_index_in_range_until_exhausted_witness :
  out_res (Finder_init ["key-a"; "key-b"; "key-c"] both_clients ∅ ∅ tt []) = inr pool3
  /\ (0 <= current_key_index
             (pool_run [OpRecordUsage; OpRotate; OpRecordUsage; OpRotate] pool3).1
       < 3)%nat.
Proof.
  assert (Hinit : out_res (Finder_init ["key-a"; "key-b"; "key-c"] both_clients ∅ ∅ tt [])
                  = inr pool3) by reflexivity.
  split; [exact Hinit|].
  destruct (C5_index_in_range_until_exhausted _ _ _ _ _ _
              [OpRecordUsage; OpRotate; OpRecordUsage; OpRotate] Hinit)
    as (Hk & _ & Hin & _).
  rewrite Hk in Hin. apply Hin. vm_compute. reflexivity.
Defined.

(* The invariant as the specification words it fails after a rotation
   that raises: a pool of one key, one rotation attempt. *)
Lemma C5_counterexample :
  out_res (Finder_init ["key-a"] both_clients ∅ ∅ tt []) = inr pool1
  /\ api_keys pool1 <> []
  /\ out_res (switch_to_next_api_key pool1 [])
     = inl (QuotaExceededError "All API keys exhausted")
  /\ ~ (0 <= current_key_index (out_st (switch_to_next_api_key pool1 []))
        < length (api_keys (out_st (switch_to_next_api_key pool1 []))))%nat.
Proof.
  split; [reflexivity|]. split; [discriminate|]. split; [reflexivity|].
  rewrite switch_index, switch_keys. cbn. lia.
Qed.

End Pool.

(* --------------------------------------------------------------------- *)
(* The classifier gateway                                                 *)
(* --------------------------------------------------------------------- *)
Section Classifier.

Context {S : Type}.
Variable env : Env.
Implicit Types (self : AIAnalyzer) (s : S) (log : list Event).

Lemma _call_groq_unfold prompt s log :
  _call_groq env prompt s log
  = mkOut (inr match groq_create env (log ++ [GroqCompletion prompt]) with
               | inr content => Some (PyStr.strip content)
               | inl _ => None
               end) s (log ++ [GroqCompletion prompt]).
Proof.
  unfold _call_groq. py_unfold. cbn.
  destruct (groq_create env _); reflexivity.
Qed.

Lemma _call_openai_unfold prompt s log :
  _call_openai env prompt s log
  = mkOut (inr match openai_create env (log ++ [OpenAICompletion prompt]) with
               | inr content => Some (PyStr.strip content)
               | inl _ => None
               end) s (log ++ [OpenAICompletion prompt]).
Proof.
  unfold _call_openai. py_unfold. cbn.
  destruct (openai_create env _); reflexivity.
Qed.

Lemma groq_block_unfold self prompt s log :
  provider_block (groq_client self) (_call_groq env prompt) s log
  = mkOut (inr (if groq_client self
                then provider_answer (groq_create env) (GroqCompletion prompt) log
                else None))
          s (if groq_client self then log ++ [GroqCompletion prompt] else log).
Proof.
  unfold provider_block, provider_answer, response_truthy.
  destruct (groq_client self); [|reflexivity].
  py_unfold. rewrite _call_groq_unfold. cbn.
  destruct (groq_create env _); cbn; [reflexivity|].
  destruct (PyStr.truthy _); reflexivity.
Qed.

Lemma openai_block_unfold self prompt s log :
  provider_block (openai_client self) (_call_openai env prompt) s log
  = mkOut (inr (if openai_client self
                then provider_answer (openai_create env) (OpenAICompletion prompt) log
                else None))
          s (if openai_client self then log ++ [OpenAICompletion prompt] else log).
Proof.
  unfold provider_block, provider_answer, response_truthy.
  destruct (openai_client self); [|reflexivity].
  py_unfold. rewrite _call_openai_unfold. cbn.
  destruct (openai_create env _); cbn; [reflexivity|].
  destruct (PyStr.truthy _); reflexivity.
Qed.

Lemma _call_ai_api_unfold self prompt analysis_type s log :
  _call_ai_api env self prompt analysis_type s log
  = mkOut (inr (ai_api_outcome env self prompt analysis_type log).1) s
          (ai_api_outcome env self prompt analysis_type log).2.
Proof.
  unfold _call_ai_api, ai_api_outcome.
  unfold mbind, Py_bind, bind at 1. rewrite groq_block_unfold. cbn.
  destruct (if groq_client self then _ else None) as [r|]; [reflexivity|].
  unfold bind. rewrite openai_block_unfold. cbn.
  destruct (if openai_client self then _ else None) as [r|]; reflexivity.
Qed.

Lemma _call_ai_api_returns self prompt analysis_type s log :
  returned (out_res (_call_ai_api env self prompt analysis_type s log)).
Proof. rewrite _call_ai_api_unfold. eexists; reflexivity. Qed.

(* Both calls of this invocation fail: the fixed text, whatever the
   providers do at any other point of the history. *)
Lemma _call_ai_api_calls_fail self prompt analysis_type s log :
  let log1 := if groq_client self then log ++ [GroqCompletion prompt] else log in
  call_fails (groq_client self) (groq_create env) (log ++ [GroqCompletion prompt]) ->
  call_fails (openai_client self) (openai_create env) (log1 ++ [OpenAICompletion prompt]) ->
  out_res (_call_ai_api env self prompt analysis_type s log)
  = inr (unavailable analysis_type).
Proof.
  intros log1 Hg Ho. rewrite _call_ai_api_unfold. cbn [out_res]. unfold ai_api_outcome.
  fold log1.
  assert (Eg : (if groq_client self
                then provider_answer (groq_create env) (GroqCompletion prompt) log
                else None) = None).
  { destruct (groq_client self); [|reflexivity]. unfold provider_answer.
    destruct Hg as [Hg | [e Hg]]; [discriminate|]. rewrite Hg. reflexivity. }
  rewrite Eg.
  assert (Eo : (if openai_client self
                then provider_answer (openai_create env) (OpenAICompletion prompt) log1
                else None) = None).
  { destruct (openai_client self); [|reflexivity]. unfold provider_answer.
    destruct Ho as [Ho | [e Ho]]; [discriminate|]. rewrite Ho. reflexivity. }
  rewrite Eo. reflexivity.
Qed.

(** C6: analyze_content (through _call_ai_api) returns a string and
    raises nothing, for every prompt, client configuration, provider
    behaviour and history; when the call this invocation makes to the
    primary provider fails and the call it makes to the secondary
    provider fails too (the client is missing, or the completion request
    raises at that point of the history, whatever the provider does at
    other times), the string is the fixed unavailability message. *)
Theorem C6_classifier_never_raises self prompt s log :
  returned (out_res (analyze_content env self prompt s log))
  /\ (let log1 := if groq_client self then log ++ [GroqCompletion prompt] else log in
      call_fails (groq_client self) (groq_create env) (log ++ [GroqCompletion prompt]) ->
      call_fails (openai_client self) (openai_create env) (log1 ++ [OpenAICompletion prompt]) ->
      out_res (analyze_content env self prompt s log)
      = inr "Unable to generate content analysis - AI services unavailable.").
Proof.
  split.
  - apply _call_ai_api_returns.
  - intros log1 Hg Ho. unfold analyze_content.
    rewrite (_call_ai_api_calls_fail _ _ _ _ _ Hg Ho). reflexivity.
Qed.

End Classifier.

(* The providers of env_flaky fail on the two calls of this invocation and
   answer afterwards: the invocation gives the fixed text. *)
Lemma C6_classifier_never_raises_witness :
  let prompt := "Format: YES/NO | Explanation | Category" in
  call_fails (groq_client both_clients) (groq_create env_flaky) ([] ++ [GroqCompletion prompt])
  /\ call_fails (openai_client both_clients) (openai_create env_flaky)
       (([] ++ [GroqCompletion prompt]) ++ [OpenAICompletion prompt])
  /\ ~ (forall history, raised (groq_create env_flaky history))
  /\ out_res (analyze_content env_flaky both_clients prompt tt [])
     = inr "Unable to generate content analysis - AI services unavailable.".
Proof.
  cbv zeta.
  assert (Hg : call_fails (groq_client both_clients) (groq_create env_flaky)
                 ([] ++ [GroqCompletion "Format: YES/NO | Explanation | Category"]))
    by (right; eexists; reflexivity).
  assert (Ho : call_fails (openai_client both_clients) (openai_create env_flaky)
                 (([] ++ [GroqCompletion "Format: YES/NO | Explanation | Category"])
                  ++ [OpenAICompletion "Format: YES/NO | Explanation | Category"]))
    by (right; eexists; reflexivity).
  split; [exact Hg|]. split; [exact Ho|]. split.
  - intros H. destruct (H (replicate 3 (GroqCompletion ""))) as [e He]. discriminate.
  - exact (proj2 (C6_classifier_never_raises env_flaky both_clients _ tt []) Hg Ho).
Defined.

(* --------------------------------------------------------------------- *)
(* Parsing the classifier's answer                                        *)
(* --------------------------------------------------------------------- *)
Section NicheVerification.

Lemma upper_is_Y c : Ascii.eqb (PyStr.upper_char c) "Y" = Ascii.eqb (PyStr.lower_char c) "y".
Proof. destruct c as [[] [] [] [] [] [] [] []]; reflexivity. Qed.

Lemma upper_is_E c : Ascii.eqb (PyStr.upper_char c) "E" = Ascii.eqb (PyStr.lower_char c) "e".
Proof. destruct c as [[] [] [] [] [] [] [] []]; reflexivity. Qed.

Lemma upper_is_S c : Ascii.eqb (PyStr.upper_char c) "S" = Ascii.eqb (PyStr.lower_char c) "s".
Proof. destruct c as [[] [] [] [] [] [] [] []]; reflexivity. Qed.

(* decision.upper() == "YES" is equality with YES up to letter case *)
Lemma upper_eq_YES s : String.eqb (PyStr.upper s) "YES" = eq_ignore_case s "YES".
Proof.
  unfold eq_ignore_case, PyStr.upper, PyStr.lower.
  destruct s as [|c1 [|c2 [|c3 [|c4 s]]]]; cbn [PyStr.map_chars String.eqb];
    try reflexivity.
  - rewrite upper_is_Y.
    change (PyStr.lower_char "Y") with "y"%char. reflexivity.
  - rewrite upper_is_Y, upper_is_E.
    change (PyStr.lower_char "Y") with "y"%char.
    change (PyStr.lower_char "E") with "e"%char. reflexivity.
  - rewrite upper_is_Y, upper_is_E, upper_is_S.
    change (PyStr.lower_char "Y") with "y"%char.
    change (PyStr.lower_char "E") with "e"%char.
    change (PyStr.lower_char "S") with "s"%char. reflexivity.
  - rewrite upper_is_Y, upper_is_E, upper_is_S.
    change (PyStr.lower_char "Y") with "y"%char.
    change (PyStr.lower_char "E") with "e"%char.
    change (PyStr.lower_char "S") with "s"%char. reflexivity.
Qed.

Lemma split_nonempty sep s : PyStr.split sep s <> [].
Proof.
  destruct s as [|c r]; cbn; [discriminate|].
  destruct (Ascii.eqb c sep); [discriminate|].
  destruct (PyStr.split sep r); discriminate.
Qed.

Lemma parse_response_short ai_response :
  (length (PyStr.split "|" ai_response) < 3)%nat ->
  parse_response ai_response = (false, "Could not parse AI response", "").
Proof.
  intros H. unfold parse_response.
  destruct (Nat.leb_spec 3 (length (PyStr.split "|" ai_response))); [lia | reflexivity].
Qed.

Lemma parse_response_fields ai_response :
  let parts := PyStr.split "|" ai_response in
  (3 <= length parts)%nat ->
  parse_response ai_response
  = (eq_ignore_case (PyStr.strip (nth 0 parts "")) "YES",
     PyStr.strip (nth 1 parts ""), PyStr.strip (nth 2 parts "")).
Proof.
  intros parts H. unfold parse_response. fold parts.
  destruct (Nat.leb_spec 3 (length parts)); [|lia].
  rewrite upper_eq_YES. reflexivity.
Qed.

Context {S : Type}.
Variable env : Env.
Variable verification_prompt : string -> string -> string.

Lemma video_content_unfold (videos : list VideoData) (s : S) log :
  map_m (fun video =>
           title ← subscript "title" (sn_title (vd_snippet video));
           let description :=
             PyStr.take 200 (default "" (sn_description (vd_snippet video))) in
           mret ("Title: " +:+ title +:+ nl +:+ "Description: " +:+ description +:+ "..."))
        videos s log
  = match video_texts videos with
    | Some video_content => mkOut (inr video_content) s log
    | None => mkOut (inl (KeyError "'title'")) s log
    end.
Proof.
  py_unfold.
  induction videos as [|video videos IH]; [reflexivity|].
  cbn [map_m video_texts]. py_unfold. unfold video_text at 1.
  destruct (sn_title (vd_snippet video)) as [title|]; cbn [out_res out_st out_log];
    [|reflexivity].
  rewrite IH. destruct (video_texts videos); reflexivity.
Qed.

(* The method as a whole never raises. *)
Lemma verify_niche_returns channel_info videos ai (s : S) log :
  returned (out_res (verify_niche_from_cached_videos env verification_prompt
                       channel_info videos ai s log)).
Proof.
  apply try_except_returns. intros e s' log'. eexists; reflexivity.
Qed.

(** C7: when niche verification has put its prompt to the classifier and
    the answer splits on '|' into fewer than three fields, the method
    returns exactly (False, "Could not parse AI response", "") and raises
    nothing; with three fields or more it returns the stripped second and
    third fields, and the match flag is true exactly when the stripped
    first field equals YES up to letter case. *)
Theorem C7_parse_classifier_response channel_info videos ai (s : S) log prompt ai_response :
  videos <> [] ->
  niche_prompt verification_prompt channel_info videos = Some prompt ->
  out_res (analyze_content env ai prompt s log) = inr ai_response ->
  let parts := PyStr.split "|" ai_response in
  let o := verify_niche_from_cached_videos env verification_prompt
             channel_info videos ai s log in
  ((length parts < 3)%nat ->
     out_res o = inr (false, "Could not parse AI response", ""))
  /\ ((3 <= length parts)%nat ->
     out_res o = inr (eq_ignore_case (PyStr.strip (nth 0 parts "")) "YES",
                      PyStr.strip (nth 1 parts ""), PyStr.strip (nth 2 parts ""))).
Proof.
  intros Hne Hprompt Hresp parts o.
  assert (Ho : out_res o = inr (parse_response ai_response)).
  { subst o. unfold verify_niche_from_cached_videos.
    destruct videos as [|v vs]; [congruence|].
    unfold niche_prompt in Hprompt.
    destruct (video_texts (take 5 (v :: vs))) as [video_content|] eqn:Htexts;
      [|discriminate].
    injection Hprompt as Hprompt.
    unfold analyze_content in *. rewrite _call_ai_api_unfold in Hresp.
    cbn in Hresp. injection Hresp as Hresp.
    erewrite try_except_returned; [reflexivity|].
    erewrite bind_returns; [|rewrite video_content_unfold, Htexts; reflexivity].
    cbv zeta. rewrite Hprompt.
    erewrite bind_returns; [|apply _call_ai_api_unfold].
    rewrite Hresp. reflexivity. }
  rewrite Ho. split; intros H.
  - f_equal. apply parse_response_short. exact H.
  - f_equal. apply parse_response_fields. exact H.
Qed.

End NicheVerification.

Lemma C7_parse_classifier_response_witness :
  let env := env_sample (inr "NO - this channel is about cooking") in
  [sample_video_data] <> []
  /\ niche_prompt sample_template sample_channel [sample_video_data] = Some sample_prompt
  /\ out_res (analyze_content env both_clients sample_prompt tt [])
     = inr "NO - this channel is about cooking"
  /\ out_res (verify_niche_from_cached_videos env sample_template sample_channel
                [sample_video_data] both_clients tt [])
     = inr (false, "Could not parse AI response", "").
Proof.
  cbv zeta.
  assert (Hne : [sample_video_data] <> []) by discriminate.
  assert (Hp : niche_prompt sample_template sample_channel [sample_video_data]
               = Some sample_prompt) by reflexivity.
  assert (Hr : out_res (analyze_content (env_sample (inr "NO - this channel is about cooking"))
                          both_clients sample_prompt tt [])
               = inr "NO - this channel is about cooking") by (vm_compute; reflexivity).
  split; [exact Hne|]. split; [exact Hp|]. split; [exact Hr|].
  apply (proj1 (C7_parse_classifier_response
                  (env_sample (inr "NO - this channel is about cooking"))
                  sample_template sample_channel [sample_video_data] both_clients tt []
                  sample_prompt _ Hne Hp Hr)).
  vm_compute. lia.
Defined.

Example niche_verification_yes :
  out_res (verify_niche_from_cached_videos
             (env_sample (inr " yes | Dating tips for men | Dating Advice "))
             sample_template sample_channel [sample_video_data] both_clients tt [])
  = inr (true, "Dating tips for men", "Dating Advice").
Proof. vm_compute. reflexivity. Qed.

(* --------------------------------------------------------------------- *)
(* The transcription server                                               *)
(* --------------------------------------------------------------------- *)
Section Transcription.

Import Whisper.
Implicit Types (self : WhisperAPIServer) (request_id : string).

(** C10: for a request id that is not a key of the results store,
    GET /result/<id> answers 200 with status 'processing' and the
    current queue size; the status is not 'queued', there is no error
    field, and the answer is the same for every absent id, whether the
    job is pending, was never submitted, or had its result evicted. *)
Theorem C10_absent_id_reports_processing self request_id :
  dict_mem request_id (results self) = false ->
  get_result self request_id
  = jsonify [("status", JStr "processing"); ("queue_size", JNum (qsize self))]
  /\ http_status (get_result self request_id) = 200
  /\ body_get "status" (get_result self request_id) = Some (JStr "processing")
  /\ body_get "status" (get_result self request_id) <> Some (JStr "queued")
  /\ body_get "error" (get_result self request_id) = None
  /\ (forall other, dict_mem other (results self) = false ->
        get_result self other = get_result self request_id).
Proof.
  intros Habsent.
  assert (E : forall id, dict_mem id (results self) = false ->
                get_result self id
                = jsonify [("status", JStr "processing"); ("queue_size", JNum (qsize self))]).
  { intros id H. unfold get_result. rewrite H. reflexivity. }
  rewrite (E _ Habsent). repeat split; try reflexivity.
  - discriminate.
  - intros other H. apply E. exact H.
Qed.

(* An id that was never submitted, on a server with one job waiting. *)
Lemma C10_absent_id_reports_processing_witness :
  let self := (transcribe_video new_server (Some "dQw4w9WgXcQ") None (uuid_of 1) 0).1 in
  dict_mem (uuid_of 2) (results self) = false
  /\ get_result self (uuid_of 2)
     = jsonify [("status", JStr "processing"); ("queue_size", JNum 1)].
Proof.
  cbv zeta.
  assert (H : dict_mem (uuid_of 2)
                (results (transcribe_video new_server (Some "dQw4w9WgXcQ") None (uuid_of 1) 0).1)
              = false) by reflexivity.
  split; [exact H|].
  exact (proj1 (C10_absent_id_reports_processing _ _ H)).
Defined.

Lemma dict_mem_del {V} (k key : string) (d : dict V) :
  dict_mem k (dict_del key d) = dict_mem k d && negb (String.eqb key k).
Proof.
  unfold dict_mem, dict_del. induction d as [|[k' v] d IH]; [reflexivity|].
  cbn [List.filter existsb fst].
  destruct (String.eqb_spec k' key) as [->|Hne]; cbn [negb existsb fst].
  - rewrite IH. destruct (String.eqb key k); cbn; [rewrite andb_false_r|]; reflexivity.
  - rewrite IH. destruct (String.eqb_spec k' k) as [->|Hne']; cbn [orb]; [|reflexivity].
    destruct (String.eqb_spec key k) as [->|_]; [congruence|]. reflexivity.
Qed.

Lemma dict_mem_del_all {V} (k : string) (keys : list string) : forall d : dict V,
  dict_mem k (foldl (fun d key => dict_del key d) d keys)
  = dict_mem k d && forallb (fun key => negb (String.eqb key k)) keys.
Proof.
  induction keys as [|key keys IH]; intros d; cbn [foldl forallb].
  - rewrite andb_true_r. reflexivity.
  - rewrite IH, dict_mem_del, andb_assoc. reflexivity.
Qed.

(* Which results survive the clean-up of a store of more than 100: those
   whose key is not among the first 50 of the sorted keys.  The places of
   the results in the store, their insertion order, play no part. *)
Lemma clean_up_old_results_survivors (k : string) (res : dict TranscriptionResult) :
  (100 < length res)%nat ->
  dict_mem k (clean_up_old_results res)
  = dict_mem k res
    && forallb (fun key => negb (String.eqb key k)) (take 50 (PyStr.sorted (dict_keys res))).
Proof.
  intros H. unfold clean_up_old_results.
  rewrite bool_decide_eq_true_2 by exact H. apply dict_mem_del_all.
Qed.

(* The store before the 101st result: ids in the order they were stored. *)
Lemma server_100_keys :
  dict_keys (results server_100) = uuid_of <$> rev (seq 1 100).
Proof. vm_compute. reflexivity. Qed.

(** C8: the clean-up sorts the keys of the store and deletes the first
    50 in key order, not in insertion order.  On a store of 100 results
    whose ids were generated in decreasing order, storing a 101st result
    with a smaller id leaves the 51 oldest results in place and deletes
    the 50 newest, the result just stored among them. *)
Theorem C8_eviction_follows_key_order :
  let self' := serve [uuid_of 0] server_100 in
  dict_keys (results self') = uuid_of <$> rev (seq 50 51)
  /\ dict_mem (uuid_of 100) (results self') = true
  /\ dict_mem (uuid_of 0) (results self') = false
  /\ get_result self' (uuid_of 0)
     = jsonify [("status", JStr "processing"); ("queue_size", JNum 0)].
Proof. vm_compute. repeat split; reflexivity. Qed.

End Transcription.

(* --------------------------------------------------------------------- *)
(* Fetching a channel's videos                                            *)
(* --------------------------------------------------------------------- *)
Section Fetch.

Variable env : Env.
Implicit Types (self : Analyzer) (log : list Event).

(* The loop over the detail response makes no external call. *)
Lemma process_videos_log items : forall processed self log,
  out_log (process_videos items processed self log) = log.
Proof.
  induction items as [|video rest IH]; intros processed self log; [reflexivity|].
  cbn [process_videos]. py_unfold.
  destruct (vr_duration video) as [duration|]; cbn [out_res out_st out_log]; [|reflexivity].
  apply IH.
Qed.

(* The body of the try block of get_channel_videos_with_stats, call by
   call. *)
Lemma get_channel_videos_with_stats_unfold channel_id max_results self log :
  let search := YtSearchChannel (developerKey self) channel_id max_results in
  get_channel_videos_with_stats env channel_id max_results self log
  = match search_execute env (log ++ [search]) with
    | inl _ => mkOut (inr []) self (log ++ [search])
    | inr [] => mkOut (inr []) self (log ++ [search])
    | inr (item :: items) =>
        let details :=
          YtVideosList (developerKey self)
                       (PyStr.join "," (si_videoId <$> item :: items)) in
        match videos_execute env ((log ++ [search]) ++ [details]) with
        | inl _ => mkOut (inr []) self ((log ++ [search]) ++ [details])
        | inr videos_items =>
            try_except (process_videos videos_items []) (fun _ => mret [])
                       self ((log ++ [search]) ++ [details])
        end
    end.
Proof.
  unfold get_channel_videos_with_stats. py_unfold. cbn [out_res out_st out_log].
  destruct (search_execute env _) as [e|[|item items]]; cbn [out_res out_st out_log];
    try reflexivity.
  destruct (videos_execute env _) as [e|videos_items]; cbn [out_res out_st out_log];
    reflexivity.
Qed.

(* The method never raises, whatever the transport does. *)
Lemma get_channel_videos_with_stats_returns channel_id max_results self log :
  returned (out_res (get_channel_videos_with_stats env channel_id max_results self log)).
Proof.
  apply try_except_returns. intros e s' log'. eexists; reflexivity.
Qed.

(* the calls the fetch adds to the log *)
Lemma get_channel_videos_with_stats_log channel_id max_results self log :
  let search := YtSearchChannel (developerKey self) channel_id max_results in
  out_log (get_channel_videos_with_stats env channel_id max_results self log)
  = match search_execute env (log ++ [search]) with
    | inr (item :: items) =>
        log ++ [search;
                YtVideosList (developerKey self)
                             (PyStr.join "," (si_videoId <$> item :: items))]
    | _ => log ++ [search]
    end.
Proof.
  cbv zeta. rewrite get_channel_videos_with_stats_unfold. cbv zeta.
  destruct (search_execute env _) as [e|[|item items]]; try reflexivity.
  rewrite <- app_assoc. cbn [app].
  destruct (videos_execute env _) as [e|videos_items]; [reflexivity|].
  unfold try_except.
  destruct (out_res (process_videos videos_items [] self _)) eqn:E;
    cbn [out_log mret Py_ret ret]; apply process_videos_log.
Qed.

Lemma youtube_calls_app log log' :
  youtube_calls (log ++ log') = (youtube_calls log + youtube_calls log')%nat.
Proof. unfold youtube_calls. rewrite filter_app, length_app. reflexivity. Qed.

Lemma llm_calls_app log log' :
  llm_calls (log ++ log') = (llm_calls log + llm_calls log')%nat.
Proof. unfold llm_calls. rewrite filter_app, length_app. reflexivity. Qed.

(** C3 (as the code has it): for every channel id and every requested
    count, in [1, 50] or not, get_channel_videos_with_stats first issues
    the search call bounded to that count; when the search answers with
    at least one item it issues exactly one videos().list call for all
    returned ids joined in one request, two calls in all however many
    items came back; when the search answers with no item or raises, the
    search call is the only call. *)
Theorem C3_fetch_issues_search_then_one_batch channel_id count self log :
  let search := YtSearchChannel (developerKey self) channel_id count in
  let o := get_channel_videos_with_stats env channel_id count self log in
  match search_execute env (log ++ [search]) with
  | inr (item :: items) =>
      out_log o
      = log ++ [search;
                YtVideosList (developerKey self)
                             (PyStr.join "," (si_videoId <$> item :: items))]
      /\ youtube_calls (out_log o) = (youtube_calls log + 2)%nat
  | _ =>
      out_log o = log ++ [search]
      /\ youtube_calls (out_log o) = (youtube_calls log + 1)%nat
  end.
Proof.
  cbv zeta.
  pose proof (get_channel_videos_with_stats_log channel_id count self log) as H.
  cbv zeta in H.
  destruct (search_execute env _) as [e|[|item items]]; rewrite H;
    (split; [reflexivity|]); rewrite youtube_calls_app; reflexivity.
Qed.

(** C1: a quota signal of the transport does not leave
    get_channel_videos_with_stats as an exception.  Whether the search
    call or the batch-detail call raises HttpError 403 quotaExceeded, the
    except clause of the method catches it and the method returns the
    empty list. *)
Theorem C1_quota_signal_returns_empty_list channel_id max_results self log text :
  is_quota_error 403 text = true ->
  let search := YtSearchChannel (developerKey self) channel_id max_results in
  let o := get_channel_videos_with_stats env channel_id max_results self log in
  (search_execute env (log ++ [search]) = inl (HttpError 403 text) ->
     o = mkOut (inr []) self (log ++ [search]))
  /\ (forall item items,
        search_execute env (log ++ [search]) = inr (item :: items) ->
        let details :=
          YtVideosList (developerKey self)
                       (PyStr.join "," (si_videoId <$> item :: items)) in
        videos_execute env ((log ++ [search]) ++ [details]) = inl (HttpError 403 text) ->
        o = mkOut (inr []) self ((log ++ [search]) ++ [details])).
Proof.
  intros _. cbv zeta. rewrite get_channel_videos_with_stats_unfold. cbv zeta.
  split.
  - intros ->. reflexivity.
  - intros item items -> ->. reflexivity.
Qed.

End Fetch.

Lemma C1_quota_signal_returns_empty_list_witness :
  is_quota_error 403 quota_text = true
  /\ search_execute env_quota ([] ++ [YtSearchChannel "key-a" "UCexisting0000000000000a" 15])
     = inl (HttpError 403 quota_text)
  /\ get_channel_videos_with_stats env_quota "UCexisting0000000000000a" 15
       (new_Analyzer "key-a") []
     = mkOut (inr []) (new_Analyzer "key-a")
             [YtSearchChannel "key-a" "UCexisting0000000000000a" 15].
Proof.
  assert (Hq : is_quota_error 403 quota_text = true) by (vm_compute; reflexivity).
  split; [exact Hq|]. split; [reflexivity|].
  exact (proj1 (C1_quota_signal_returns_empty_list env_quota "UCexisting0000000000000a" 15
                  (new_Analyzer "key-a") [] quota_text Hq) eq_refl).
Defined.

(* The specification's two calls for every count fail on a channel without
   videos: the empty search answer ends the method after one call. *)
Lemma C3_counterexample :
  1 <= 10 <= 50
  /\ out_log (get_channel_videos_with_stats env_down "UCexisting0000000000000a" 10
                (new_Analyzer "key-a") [])
     = [YtSearchChannel "key-a" "UCexisting0000000000000a" 10]
  /\ youtube_calls (out_log (get_channel_videos_with_stats env_down
                               "UCexisting0000000000000a" 10 (new_Analyzer "key-a") []))
     <> 2%nat.
Proof.
  split; [lia|]. split; [reflexivity|]. vm_compute. discriminate.
Qed.

(* --------------------------------------------------------------------- *)
(* Processing one candidate                                               *)
(* --------------------------------------------------------------------- *)
Section Processing.

Variable env : Env.
Variable verification_prompt : string -> string -> string.
Variable calculate_engagement_from_cached_videos : list VideoData -> string.
Variable follower_display : Z -> string.
Implicit Types (self : Finder) (log : list Event).

Lemma on_analyzer_unfold {A} (m : Py Analyzer A) self log a :
  current_analyzer self = Some a ->
  on_analyzer m self log
  = mkOut (out_res (m a log)) (set_current_analyzer (Some (out_st (m a log))) self)
          (out_log (m a log)).
Proof. intros H. unfold on_analyzer. rewrite H. reflexivity. Qed.

Lemma on_analyzer_index {A} (m : Py Analyzer A) self log :
  current_key_index (out_st (on_analyzer m self log)) = current_key_index self.
Proof. unfold on_analyzer. destruct (current_analyzer self); reflexivity. Qed.

(* the fetch, seen from the finder, adds YouTube calls only *)
Lemma fetch_llm_calls self log channel_id max_results :
  llm_calls (out_log (on_analyzer (get_channel_videos_with_stats env channel_id max_results)
                                  self log))
  = llm_calls log.
Proof.
  unfold on_analyzer. destruct (current_analyzer self) as [a|]; [|reflexivity].
  cbn [out_log]. rewrite get_channel_videos_with_stats_log.
  destruct (search_execute env _) as [e|[|item items]];
    rewrite llm_calls_app;
    match goal with |- (_ + ?n)%nat = _ => change n with 0%nat end; lia.
Qed.

Lemma has_min_views_unfold {S} (v : VideoData) (s : S) log :
  has_min_views v s log
  = match views_of v with
    | Some n => mkOut (inr (min_views_per_video <=? n)) s log
    | None =>
        mkOut (inl (ValueError ("invalid literal for int() with base 10: '"
                                +:+ default "" (viewCount (vd_statistics v)) +:+ "'")))
              s log
    end.
Proof.
  unfold has_min_views, views_of, py_int_or_0, py_int. py_unfold.
  destruct (viewCount (vd_statistics v)) as [text|]; cbn [out_res out_st out_log default];
    [|reflexivity].
  destruct (PyStr.int text); reflexivity.
Qed.

Lemma filter_at_or_above_cons v videos :
  filter at_or_above_min_views (v :: videos)
  = if at_or_above_min_views v then v :: filter at_or_above_min_views videos
    else filter at_or_above_min_views videos.
Proof.
  rewrite filter_cons. case_decide as H; destruct (at_or_above_min_views v);
    try reflexivity; [destruct H | exfalso; apply H; exact I].
Qed.

(* The comprehension keeps the items at or above the threshold, or
   raises on a view count that is not a number; no call, no change. *)
Lemma filter_min_views {S} (videos : list VideoData) (s : S) log :
  let o := filter_m has_min_views videos s log in
  out_st o = s /\ out_log o = log
  /\ (forall kept, out_res o = inr kept -> kept = filter at_or_above_min_views videos).
Proof.
  cbv zeta. induction videos as [|v videos IH]; cbn [filter_m].
  - unfold mret, Py_ret, ret. cbn. repeat split. intros kept [= <-]. reflexivity.
  - destruct IH as (IHs & IHl & IHr).
    pose proof (has_min_views_unfold v s log) as Hv.
    rewrite filter_at_or_above_cons. unfold at_or_above_min_views at 1.
    destruct (views_of v) as [n|] eqn:Ev.
    + erewrite bind_returns by exact Hv.
      destruct (filter_m has_min_views videos s log) as [[e|kept'] s' log'] eqn:Ef;
        cbn [out_res out_st out_log] in *; subst s' log'.
      * erewrite bind_raises by exact Ef. repeat split. discriminate.
      * erewrite bind_returns by exact Ef.
        unfold mret, Py_ret, ret. cbn [out_res out_st out_log].
        repeat split. intros kept [= <-]. rewrite <- (IHr kept' eq_refl).
        reflexivity.
    + erewrite bind_raises by exact Hv. repeat split. discriminate.
Qed.

Lemma try_except_false {S} (m : Py S bool) (s : S) log :
  out_res (m s log) = inr false \/ raised (out_res (m s log)) ->
  out_res (try_except m (fun _ => mret false) s log) = inr false
  /\ out_st (try_except m (fun _ => mret false) s log) = out_st (m s log)
  /\ out_log (try_except m (fun _ => mret false) s log) = out_log (m s log).
Proof.
  unfold try_except. intros [H|[e H]]; rewrite H; [rewrite H|]; repeat split.
Qed.

Lemma bind_get {S B} (k : S -> Py S B) (s : S) log : (get ≫= k) s log = k s s log.
Proof. reflexivity. Qed.

Lemma out_eta {S A} (o : Out S A) : o = mkOut (out_res o) (out_st o) (out_log o).
Proof. destruct o; reflexivity. Qed.

(* A candidate that is rejected at the view threshold, or earlier: what
   process_channel_optimized returns and the log it leaves. *)
Lemma process_channel_rejected channel_info self log videos :
  let fetched :=
    on_analyzer (get_channel_videos_with_stats env (channel_id channel_info) 15) self log in
  out_res fetched = inr videos ->
  (length (filter at_or_above_min_views videos) < min_videos_with_min_views)%nat ->
  let o := process_channel_optimized env verification_prompt
             calculate_engagement_from_cached_videos follower_display
             channel_info self log in
  out_res o = inr false
  /\ (out_log o = log \/ out_log o = out_log fetched)
  /\ current_key_index (out_st o) = current_key_index self.
Proof.
  intros fetched Hfetched Hfew o. subst o. unfold process_channel_optimized.
  match goal with |- context [try_except ?m _ _ _] => set (body := m) end.
  assert (Hbody : (out_res (body self log) = inr false \/ raised (out_res (body self log)))
                  /\ (out_log (body self log) = log
                      \/ out_log (body self log) = out_log fetched)
                  /\ current_key_index (out_st (body self log)) = current_key_index self).
  { subst body. rewrite bind_get.
    destruct (bool_decide _); [repeat split; auto|].
    erewrite bind_returns by (rewrite (out_eta (on_analyzer _ _ _)); fold fetched;
                              rewrite Hfetched; reflexivity).
    assert (Hidx : current_key_index (out_st fetched) = current_key_index self)
      by apply on_analyzer_index.
    destruct videos as [|v vs]; [repeat split; auto|].
    destruct (filter_min_views (v :: vs) (out_st fetched) (out_log fetched))
      as (Hs & Hl & Hr).
    cbv zeta in Hs, Hl, Hr.
    destruct (out_res (filter_m has_min_views (v :: vs) (out_st fetched) (out_log fetched)))
      as [e|kept] eqn:Ef.
    - erewrite bind_raises
        by (rewrite (out_eta (filter_m _ _ _ _)), Ef, Hs, Hl; reflexivity).
      cbn [out_res out_st out_log].
      split; [right; eexists; reflexivity|]. split; [right; reflexivity | exact Hidx].
    - erewrite bind_returns
        by (rewrite (out_eta (filter_m _ _ _ _)), Ef, Hs, Hl; reflexivity).
      rewrite (Hr kept eq_refl).
      rewrite bool_decide_eq_true_2 by exact Hfew.
      repeat split; auto. }
  destruct Hbody as (Hres & Hlog & Hidx).
  destruct (try_except_false body self log Hres) as (-> & -> & ->).
  auto.
Qed.

(** C4: a candidate whose fetched videos hold fewer than
    min_videos_with_min_views (8) items with a view count at or above
    min_views_per_video (1000) is rejected by process_channel_optimized
    with no call to either LLM provider: the number of classification
    calls in the log is what it was before. *)
Theorem C4_low_views_rejected_before_classifier channel_info self log videos :
  out_res (on_analyzer (get_channel_videos_with_stats env (channel_id channel_info) 15)
                       self log) = inr videos ->
  (length (filter at_or_above_min_views videos) < min_videos_with_min_views)%nat ->
  let o := process_channel_optimized env verification_prompt
             calculate_engagement_from_cached_videos follower_display
             channel_info self log in
  out_res o = inr false
  /\ llm_calls (out_log o) = llm_calls log
  /\ (llm_calls (out_log o) - llm_calls log = 0)%nat.
Proof.
  intros Hfetched Hfew o.
  destruct (process_channel_rejected channel_info self log videos Hfetched Hfew)
    as (Hres & Hlog & _).
  fold o in Hres, Hlog.
  assert (Hllm : llm_calls (out_log o) = llm_calls log).
  { destruct Hlog as [-> | ->]; [reflexivity | apply fetch_llm_calls]. }
  rewrite Hllm. repeat split; [exact Hres | lia].
Qed.

End Processing.

Lemma C4_low_views_rejected_before_classifier_witness :
  let env := env_sample (inr "YES | Dating tips | Dating Advice") in
  out_res (on_analyzer (get_channel_videos_with_stats env (channel_id sample_channel) 15)
                       pool3 []) = inr [sample_video_data]
  /\ (length (filter at_or_above_min_views [sample_video_data]) < min_videos_with_min_views)%nat
  /\ out_res (process_channel_optimized env sample_template sample_engagement
                sample_follower_display sample_channel pool3 []) = inr false
  /\ llm_calls (out_log (process_channel_optimized env sample_template sample_engagement
                           sample_follower_display sample_channel pool3 [])) = 0%nat.
Proof.
  cbv zeta.
  assert (Hf : out_res (on_analyzer
                          (get_channel_videos_with_stats
                             (env_sample (inr "YES | Dating tips | Dating Advice"))
                             (channel_id sample_channel) 15) pool3 [])
               = inr [sample_video_data]) by (vm_compute; reflexivity).
  assert (Hn : (length (filter at_or_above_min_views [sample_video_data])
                < min_videos_with_min_views)%nat) by (vm_compute; lia).
  destruct (C4_low_views_rejected_before_classifier
              (env_sample (inr "YES | Dating tips | Dating Advice"))
              sample_template sample_engagement sample_follower_display
              sample_channel pool3 [] [sample_video_data] Hf Hn) as (Hres & Hllm & _).
  split; [exact Hf|]. split; [exact Hn|]. split; [exact Hres | exact Hllm].
Defined.

(* The caller of the fetch on an exhausted key: the candidate is turned
   down, the key index stays where it was. *)
Example process_channel_on_exhausted_key :
  let o := process_channel_optimized env_quota sample_template sample_engagement
             sample_follower_display sample_channel pool3 [] in
  out_res o = inr false
  /\ current_key_index (out_st o) = current_key_index pool3
  /\ out_log o = [YtSearchChannel "key-a" "UCexisting0000000000000a" 15].
Proof. vm_compute. repeat split; reflexivity. Qed.

(* --------------------------------------------------------------------- *)
(* Searching channels and the discovery registry                          *)
(* --------------------------------------------------------------------- *)
Section Discovery.

Variable env : Env.
Implicit Types (self : Finder) (log : list Event).

Lemma no_effect_ret {S A} (a : A) : no_effect (mret a : Py S A).
Proof. intros s log. split; reflexivity. Qed.

Lemma no_effect_raise {S A} (e : Exc) : no_effect (raise e : Py S A).
Proof. intros s log. split; reflexivity. Qed.

Lemma no_effect_get {S} : no_effect (get : Py S S).
Proof. intros s log. split; reflexivity. Qed.

Lemma no_effect_bind {S A B} (m : Py S A) (k : A -> Py S B) :
  no_effect m -> (forall a, no_effect (k a)) -> no_effect (m ≫= k).
Proof.
  intros Hm Hk s log. unfold mbind, Py_bind, bind.
  destruct (Hm s log) as [Hs Hl].
  destruct (out_res (m s log)) as [e|a]; cbn [out_st out_log]; [auto|].
  rewrite Hs, Hl. apply Hk.
Qed.

Lemma no_effect_subscript {S A} key (o : option A) : no_effect (subscript key o : Py S A).
Proof. destruct o; [apply no_effect_ret | apply no_effect_raise]. Qed.

Lemma no_effect_py_int {S} text : no_effect (py_int text : Py S Z).
Proof. unfold py_int. destruct (PyStr.int text); [apply no_effect_ret | apply no_effect_raise]. Qed.

Lemma no_effect_py_int_or_0 {S} o : no_effect (py_int_or_0 o : Py S Z).
Proof. destruct o; [apply no_effect_py_int | apply no_effect_ret]. Qed.

Ltac no_effect_step :=
  first [ apply no_effect_ret | apply no_effect_raise | apply no_effect_get
        | apply no_effect_subscript | apply no_effect_py_int | apply no_effect_py_int_or_0
        | apply no_effect_bind; [|intros ?]
        | match goal with
          | |- no_effect (if ?b then _ else _) => destruct b
          | |- no_effect (match ?x with _ => _ end) => destruct x
          end ].

Lemma try_except_const {S A} (m : Py S A) (a : A) (s : S) log :
  returned (out_res (try_except m (fun _ => mret a) s log))
  /\ out_st (try_except m (fun _ => mret a) s log) = out_st (m s log)
  /\ out_log (try_except m (fun _ => mret a) s log) = out_log (m s log)
  /\ (forall b, out_res (try_except m (fun _ => mret a) s log) = inr b ->
        b = a \/ out_res (m s log) = inr b).
Proof.
  unfold try_except. destruct (out_res (m s log)) as [e|b] eqn:E.
  - cbn. repeat split; [eexists; reflexivity|]. intros b [= <-]. auto.
  - rewrite E. repeat split; [eexists; reflexivity|]. intros b' [= <-]. auto.
Qed.

Lemma track_api_usage_unfold self log :
  track_api_usage self log
  = match api_calls_per_key self !! current_key_index self with
    | Some n =>
        mkOut (inr tt)
              (set_api_calls_per_key
                 (<[current_key_index self := n + 1]> (api_calls_per_key self)) self)
              log
    | None => mkOut (inl (KeyError (pretty (current_key_index self)))) self log
    end.
Proof.
  unfold track_api_usage. py_unfold. cbn [out_res out_st out_log].
  destruct (api_calls_per_key self !! current_key_index self); reflexivity.
Qed.

Lemma youtube_unfold self log :
  youtube self log
  = match current_analyzer self with
    | Some a => mkOut (inr (developerKey a)) self log
    | None =>
        mkOut (inl (AttributeError "'NoneType' object has no attribute 'youtube'")) self log
    end.
Proof.
  unfold youtube. py_unfold. cbn [out_res out_st out_log].
  destruct (current_analyzer self); reflexivity.
Qed.

Lemma only_counters_refl self : only_counters self self.
Proof. exists (api_calls_per_key self). destruct self; reflexivity. Qed.

Lemma only_counters_trans self self1 self2 :
  only_counters self self1 -> only_counters self1 self2 -> only_counters self self2.
Proof. intros [m1 ->] [m2 ->]. exists m2. reflexivity. Qed.

Lemma only_counters_registry self self' : only_counters self self' -> same_registry self self'.
Proof. intros [m ->]. repeat split. Qed.

Lemma only_counters_pool self self' :
  only_counters self self' ->
  api_keys self' = api_keys self /\ current_key_index self' = current_key_index self.
Proof. intros [m ->]. split; reflexivity. Qed.

Lemma _is_discovered_same_registry self self' info item :
  same_registry self self' ->
  _is_discovered self' info item = _is_discovered self info item.
Proof. intros (Hh & Hi & _). unfold _is_discovered. rewrite Hh, Hi. reflexivity. Qed.

(* get_channel_details: never raises, one profile call at most, no LLM
   call, registry untouched, and the profile it returns is the profile
   of the channel asked for. *)
Lemma get_channel_details_facts channel_id self log :
  let o := get_channel_details env channel_id self log in
  returned (out_res o)
  /\ only_counters self (out_st o)
  /\ (out_log o = log \/ exists key, out_log o = log ++ [YtChannelsList key channel_id]).
Proof.
  cbv zeta. unfold get_channel_details.
  match goal with |- context [try_except ?m _ _ _] => set (body := m) end.
  destruct (try_except_const body None self log) as (Hret & -> & -> & _).
  split; [exact Hret|]. subst body.
  pose proof (track_api_usage_unfold self log) as Ht.
  destruct (api_calls_per_key self !! current_key_index self) as [n|].
  2:{ erewrite bind_raises by exact Ht. cbn.
      split; [apply only_counters_refl | auto]. }
  erewrite bind_returns by exact Ht.
  set (self1 := set_api_calls_per_key _ self).
  assert (Hreg : only_counters self self1) by (eexists; reflexivity).
  pose proof (youtube_unfold self1 log) as Hy.
  destruct (current_analyzer self1) as [a|].
  2:{ erewrite bind_raises by exact Hy. cbn. split; [exact Hreg | auto]. }
  erewrite bind_returns by exact Hy.
  match goal with
  | |- context [mbind ?k (external ?ev ?ans)] =>
      assert (Hk : forall items, no_effect (k items))
  end.
  { intros items. repeat no_effect_step. }
  rewrite bind_external.
  destruct (channels_execute env _) as [e|items]; cbn [out_st out_log].
  - split; [exact Hreg|]. right. eexists; reflexivity.
  - destruct (Hk items self1 (log ++ [YtChannelsList (developerKey a) channel_id]))
      as [-> ->].
    split; [exact Hreg|]. right. eexists; reflexivity.
Qed.

Lemma truthy_nonempty (h : string) : h <> "" -> PyStr.truthy h = true.
Proof. destruct h; [congruence | reflexivity]. Qed.

(* The first registry check of search_channels_by_keyword finds every
   search result that matches the registry by id or by title. *)
Lemma matches_registry_discovered self item :
  matches_registry self item ->
  _is_discovered self (fake_channel_info item) (Some item) = true.
Proof.
  intros H. unfold _is_discovered, fake_channel_info. cbn [handle channel_id title].
  destruct H as [[Hin Hne] | [Hin Hne]].
  - destruct (existsb _ _); [reflexivity|].
    rewrite (truthy_nonempty _ Hne), (bool_decide_eq_true_2 _ Hin). reflexivity.
  - unfold normalized_handle in Hin, Hne. cbn [existsb].
    rewrite (truthy_nonempty _ Hne), (bool_decide_eq_true_2 _ Hin). reflexivity.
Qed.

(* One turn of the loop over the search results. *)
Lemma search_item_step_facts item locals self log :
  let o := search_item_step env item locals self log in
  exists locals',
    out_res o = inr locals'
    /\ only_counters self (out_st o)
    /\ (out_log o = log
        \/ exists key, out_log o = log ++ [YtChannelsList key (si_channelId item)])
    /\ (locals'.1 = locals.1
        \/ exists info, locals'.1 = locals.1 ++ [info]
                        /\ _is_discovered self info (Some item) = false).
Proof.
  cbv zeta. unfold search_item_step. destruct locals as [channels_found channel_ids_seen].
  rewrite bind_get.
  pose proof (only_counters_refl self) as Hrefl.
  destruct (_ || _); [eexists; repeat split; auto|].
  destruct (_is_discovered self (fake_channel_info item) (Some item));
    [eexists; repeat split; auto|].
  destruct (get_channel_details_facts (si_channelId item) self log)
    as ([found Hfound] & Hreg & Hlog).
  destruct (get_channel_details env (si_channelId item) self log)
    as [res self1 log1] eqn:Hd.
  cbn [out_res out_st out_log] in Hfound, Hreg, Hlog. subst res.
  erewrite bind_returns by exact Hd.
  destruct found as [info|].
  - rewrite bind_get.
    rewrite (_is_discovered_same_registry _ _ _ _ (only_counters_registry _ _ Hreg)).
    destruct (_is_discovered self info (Some item)) eqn:Hdisc.
    + eexists; repeat split; auto.
    + eexists; repeat split; auto.
      right. exists info. split; [reflexivity | exact Hdisc].
  - eexists; repeat split; auto.
Qed.

(** C9 (as the code has it): a search result that matches the registry
    by its channel id, or by its channel title normalized like a handle
    (stripped, leading '@' removed, lowercased), is skipped by the loop
    of search_channels_by_keyword with no call of any kind, so with no
    profile-detail call and no classification call, and is not handed on.
    A result that the first check lets through costs at most one
    profile-detail call and no classification call, and when its profile
    matches the registry by the handle resolved in that call it is not
    handed on either. *)
Theorem C9_registry_match_skipped item locals self log :
  let o := search_item_step env item locals self log in
  (matches_registry self item -> o = mkOut (inr locals) self log)
  /\ llm_calls (out_log o) = llm_calls log
  /\ (out_log o = log
      \/ exists key, out_log o = log ++ [YtChannelsList key (si_channelId item)])
  /\ (forall locals' info,
        out_res o = inr locals' ->
        info ∈ locals'.1 ->
        info ∈ locals.1 \/ _is_discovered self info (Some item) = false).
Proof.
  cbv zeta. split; [|destruct (search_item_step_facts item locals self log)
                       as (locals' & Hres & _ & Hlog & Hfound); repeat split].
  - intros Hm. unfold search_item_step. destruct locals as [found seen].
    rewrite bind_get. destruct (_ || _); [reflexivity|].
    rewrite (matches_registry_discovered _ _ Hm). reflexivity.
  - destruct Hlog as [-> | [key ->]]; [reflexivity|].
    rewrite llm_calls_app. change (llm_calls [_]) with 0%nat. lia.
  - exact Hlog.
  - intros locals'' info Hres' Hin. rewrite Hres in Hres'. injection Hres' as <-.
    destruct Hfound as [Heq | (info' & Heq & Hdisc)]; rewrite Heq in Hin.
    + left. exact Hin.
    + apply elem_of_app in Hin as [Hin|Hin]; [left; exact Hin|].
      apply list_elem_of_singleton in Hin. subst info'. right. exact Hdisc.
Qed.

Lemma _is_discovered_without_item self info item :
  _is_discovered self info (Some item) = false -> _is_discovered self info None = false.
Proof.
  unfold _is_discovered. cbn [existsb PyStr.truthy].
  repeat match goal with
         | |- context [PyStr.truthy ?h && bool_decide (?h ∈ ?d)] =>
             destruct (PyStr.truthy h && bool_decide (h ∈ d))
         end; cbn; try discriminate; auto.
Qed.

Lemma search_items_loop_facts items : forall locals self log,
  let o := search_items_loop env items locals self log in
  exists locals',
    out_res o = inr locals'
    /\ only_counters self (out_st o)
    /\ llm_calls (out_log o) = llm_calls log
    /\ (forall info, info ∈ locals'.1 ->
          info ∈ locals.1 \/ _is_discovered self info None = false).
Proof.
  induction items as [|item items IH]; intros locals self log; cbn [search_items_loop].
  - exists locals. repeat split; auto using only_counters_refl.
  - destruct (search_item_step_facts item locals self log)
      as (locals1 & Hres & Hreg & Hlog & Hfound).
    destruct (search_item_step env item locals self log) as [res self1 log1] eqn:Hstep.
    cbn [out_res out_st out_log] in Hres, Hreg, Hlog. subst res.
    erewrite bind_returns by exact Hstep.
    destruct (IH locals1 self1 log1) as (locals' & Hres' & Hreg' & Hllm' & Hfound').
    exists locals'. split; [exact Hres'|].
    split; [exact (only_counters_trans _ _ _ Hreg Hreg')|]. split.
    + rewrite Hllm'. destruct Hlog as [-> | [key ->]]; [reflexivity|].
      rewrite llm_calls_app. change (llm_calls [_]) with 0%nat. lia.
    + intros info Hin. destruct (Hfound' info Hin) as [Hin1 | Hdisc].
      * destruct Hfound as [Heq | (info' & Heq & Hdisc)]; rewrite Heq in Hin1.
        -- left. exact Hin1.
        -- apply elem_of_app in Hin1 as [Hin1|Hin1]; [left; exact Hin1|].
           apply list_elem_of_singleton in Hin1. subst info'. right.
           exact (_is_discovered_without_item _ _ _ Hdisc).
      * right.
        rewrite <- (_is_discovered_same_registry _ _ _ _ (only_counters_registry _ _ Hreg)).
        exact Hdisc.
Qed.

(* The try block of a search: usage counters apart it leaves the finder
   as it was, it calls no LLM, and no channel it returns is in the
   registry. *)
Lemma search_try_block_facts keyword max_results self log :
  let o := search_try_block env keyword max_results self log in
  only_counters self (out_st o)
  /\ llm_calls (out_log o) = llm_calls log
  /\ (forall found, out_res o = inr found ->
        forall info, info ∈ found -> _is_discovered self info None = false).
Proof.
  cbv zeta. unfold search_try_block.
  pose proof (track_api_usage_unfold self log) as Ht.
  destruct (api_calls_per_key self !! current_key_index self) as [n|].
  2:{ erewrite bind_raises by exact Ht. cbn.
      repeat split; [apply only_counters_refl | discriminate]. }
  erewrite bind_returns by exact Ht.
  set (self1 := set_api_calls_per_key _ self).
  assert (Hreg : only_counters self self1) by (eexists; reflexivity).
  pose proof (youtube_unfold self1 log) as Hy.
  destruct (current_analyzer self1) as [a|].
  2:{ erewrite bind_raises by exact Hy. cbn. repeat split; [exact Hreg | discriminate]. }
  erewrite bind_returns by exact Hy.
  rewrite bind_external.
  set (log1 := log ++ [YtSearchKeyword (developerKey a) keyword max_results]).
  assert (Hllm : llm_calls log1 = llm_calls log).
  { subst log1. rewrite llm_calls_app. change (llm_calls [_]) with 0%nat. lia. }
  destruct (search_execute env log1) as [e|items].
  { cbn. repeat split; [exact Hreg | exact Hllm | discriminate]. }
  destruct (search_items_loop_facts items ([], ∅) self1 log1)
    as (locals' & Hres & Hreg' & Hllm' & Hfound).
  destruct (search_items_loop env items ([], ∅) self1 log1) as [res self2 log2] eqn:Hloop.
  cbn [out_res out_st out_log] in Hres, Hreg', Hllm'. subst res.
  erewrite bind_returns by exact Hloop.
  unfold mret, Py_ret, ret. cbn [out_res out_st out_log].
  split; [exact (only_counters_trans _ _ _ Hreg Hreg')|].
  split; [congruence|].
  intros found [= <-] info Hin.
  destruct (Hfound info Hin) as [Hnil | Hdisc].
  - cbn in Hnil. apply elem_of_nil in Hnil. destruct Hnil.
  - rewrite <- (_is_discovered_same_registry _ _ _ _ (only_counters_registry _ _ Hreg)).
    exact Hdisc.
Qed.

Lemma search_channels_by_keyword_rec_unfold depth keyword max_results :
  search_channels_by_keyword_rec env depth keyword max_results
  = try_except
      (search_try_block env keyword max_results)
      (fun e =>
         match e with
         | HttpError status text =>
             if is_quota_error status text then
               switch_to_next_api_key;;
               match depth with
               | S depth' => search_channels_by_keyword_rec env depth' keyword max_results
               | O => raise (OtherException "maximum recursion depth exceeded")
               end
             else mret []
         | _ => mret []
         end).
Proof. destruct depth; reflexivity. Qed.

Lemma same_registry_trans self self1 self2 :
  same_registry self self1 -> same_registry self1 self2 -> same_registry self self2.
Proof. intros (H1 & H2 & H3) (H1' & H2' & H3'). repeat split; congruence. Qed.

(* A search, retries included: the registry is left as it was, no LLM is
   called, no channel returned is in the registry, and the bound on the
   nesting of retries is never met when it is at least the number of
   keys still ahead. *)
Lemma search_channels_by_keyword_rec_facts depth keyword max_results :
  forall self log,
  let o := search_channels_by_keyword_rec env depth keyword max_results self log in
  same_registry self (out_st o)
  /\ llm_calls (out_log o) = llm_calls log
  /\ (forall found, out_res o = inr found ->
        forall info, info ∈ found -> _is_discovered self info None = false)
  /\ ((length (api_keys self) - current_key_index self <= S depth)%nat ->
      out_res o <> inl (OtherException "maximum recursion depth exceeded")).
Proof.
  induction depth as [|depth IH]; intros self log; cbv zeta;
    rewrite search_channels_by_keyword_rec_unfold;
    destruct (search_try_block_facts keyword max_results self log)
      as (Hreg & Hllm & Hfound);
    destruct (search_try_block env keyword max_results self log)
      as [[e|found] self1 log1] eqn:Hb;
    cbn [out_res out_st out_log] in Hreg, Hllm, Hfound;
    pose proof (only_counters_registry _ _ Hreg) as Hsame;
    destruct (only_counters_pool _ _ Hreg) as [Hkeys Hidx];
    try (erewrite try_except_returned by exact Hb; cbn [out_res out_st out_log];
         split; [exact Hsame|]; split; [exact Hllm|]; split; [exact Hfound | discriminate]);
    erewrite try_except_raised by exact Hb;
    (destruct e as [status text| | | | |];
     [destruct (is_quota_error status text)|..]);
    try (unfold mret, Py_ret, ret; cbn [out_res out_st out_log];
         split; [exact Hsame|]; split; [exact Hllm|];
         split; [|discriminate];
         intros found [= <-] info Hin; apply elem_of_nil in Hin; destruct Hin);
    pose proof (switch_to_next_api_key_unfold self1 log1) as Hsw; cbv zeta in Hsw;
    (destruct (api_keys self1 !! S (current_key_index self1)) as [api_key|] eqn:Hkey;
     [ erewrite bind_returns by exact Hsw
     | erewrite bind_raises by exact Hsw; cbn [out_res out_st out_log];
       split; [destruct Hsame as (H1 & H2 & H3); repeat split; assumption|];
       split; [exact Hllm|]; split; discriminate ]);
    apply lookup_lt_Some in Hkey;
    set (self2 := set_current_analyzer _ _);
    (assert (Hsame2 : same_registry self self2)
       by (destruct Hsame as (H1 & H2 & H3); repeat split; assumption)).
  - unfold raise. cbn [out_res out_st out_log].
    split; [exact Hsame2|]. split; [exact Hllm|]. split; [discriminate|].
    intros Hbound _. rewrite Hkeys, Hidx in Hkey. lia.
  - destruct (IH self2 log1) as (Hr & Hl & Hf & Ht).
    split; [exact (same_registry_trans _ _ _ Hsame2 Hr)|].
    split; [congruence|]. split.
    + intros found Hres info Hin.
      rewrite <- (_is_discovered_same_registry _ _ _ _ Hsame2). eauto.
    + intros Hbound. apply Ht. subst self2. cbn [api_keys current_key_index
        set_current_analyzer set_current_key_index]. rewrite Hkeys, Hidx. lia.
Qed.

Lemma search_channels_by_keyword_facts keyword max_results self log :
  let o := search_channels_by_keyword env keyword max_results self log in
  same_registry self (out_st o)
  /\ llm_calls (out_log o) = llm_calls log
  /\ (forall found, out_res o = inr found ->
        forall info, info ∈ found -> _is_discovered self info None = false)
  /\ out_res o <> inl (OtherException "maximum recursion depth exceeded").
Proof.
  cbv zeta. unfold search_channels_by_keyword. rewrite bind_get.
  destruct (search_channels_by_keyword_rec_facts (length (api_keys self))
              keyword max_results self log) as (Hr & Hl & Hf & Ht).
  repeat split; try apply Hr; auto. apply Ht. lia.
Qed.

End Discovery.

Lemma C9_registry_match_skipped_witness :
  let env := env_sample (inr "YES | Dating tips | Dating Advice") in
  matches_registry finder_with_registry item_titled_as_handle
  /\ search_item_step env item_titled_as_handle ([], ∅) finder_with_registry []
     = mkOut (inr ([], ∅)) finder_with_registry [].
Proof.
  cbv zeta.
  assert (Hm : matches_registry finder_with_registry item_titled_as_handle).
  { right. change (normalized_handle (default "" (si_channelTitle item_titled_as_handle)))
      with "existingcreator".
    change (discovered_handles finder_with_registry) with ({["existingcreator"]} : gset string).
    split; [set_solver | discriminate]. }
  split; [exact Hm|].
  exact (proj1 (C9_registry_match_skipped
                  (env_sample (inr "YES | Dating tips | Dating Advice"))
                  item_titled_as_handle ([], ∅) finder_with_registry []) Hm).
Defined.

(* The specification's scenario: the registry holds the handle
   existingcreator, a search returns a video of the channel titled
   'Existing Creator' whose profile resolves to the handle
   @existingcreator.  The subject is skipped, but only after the
   profile-detail call that resolves the handle. *)
Lemma C9_counterexample :
  "existingcreator" ∈ discovered_handles finder_with_registry
  /\ out_res (get_channel_details (env_sample (inr "YES | Dating tips | Dating Advice"))
                "UCexisting0000000000000a" finder_with_registry [])
     = inr (Some sample_channel)
  /\ normalized_handle (handle sample_channel) = "existingcreator"
  /\ out_res (search_channels_by_keyword (env_sample (inr "YES | Dating tips | Dating Advice"))
                "first date tips" 50 finder_with_registry [])
     = inr []
  /\ out_log (search_channels_by_keyword (env_sample (inr "YES | Dating tips | Dating Advice"))
                "first date tips" 50 finder_with_registry [])
     = [YtSearchKeyword "key-a" "first date tips" 50;
        YtChannelsList "key-a" "UCexisting0000000000000a"]
  /\ existsb (is_channels_list_for "UCexisting0000000000000a")
             (out_log (search_channels_by_keyword
                         (env_sample (inr "YES | Dating tips | Dating Advice"))
                         "first date tips" 50 finder_with_registry []))
     = true.
Proof.
  split.
  { change (discovered_handles finder_with_registry) with ({["existingcreator"]} : gset string).
    set_solver. }
  split; [vm_compute; reflexivity|].
  split; [vm_compute; reflexivity|].
  split; [vm_compute; reflexivity|].
  split; vm_compute; reflexivity.
Qed.


(* ===================================================================== *)
(* Further properties of the code                                         *)
(* ===================================================================== *)

(* --------------------------------------------------------------------- *)
(* The order of the two providers                                         *)
(* --------------------------------------------------------------------- *)
Section ProviderOrder.

Context {S : Type}.
Variable env : Env.
Implicit Types (self : AIAnalyzer) (s : S) (log : list Event).

(** X1: when the Groq client exists and Groq answers the prompt with a
    text that is not blank, _call_ai_api returns that text stripped, and
    OpenAI is not called: the log gains the one Groq completion. *)
Theorem primary_answer_wins self prompt analysis_type s log content :
  groq_client self = true ->
  groq_create env (log ++ [GroqCompletion prompt]) = inr content ->
  PyStr.strip content <> "" ->
  _call_ai_api env self prompt analysis_type s log
  = mkOut (inr (PyStr.strip content)) s (log ++ [GroqCompletion prompt]).
Proof.
  intros Hc Hg Hne. rewrite _call_ai_api_unfold. unfold ai_api_outcome, provider_answer.
  rewrite Hc, Hg.
  destruct (PyStr.strip content) eqn:E; [congruence|]. reflexivity.
Qed.

(** X2: when Groq gives nothing (no client, an exception, or a blank
    answer) and the OpenAI client exists and answers with a text that is
    not blank, _call_ai_api returns the OpenAI text stripped; OpenAI is
    asked after Groq, once. *)
Theorem secondary_answer_used self prompt analysis_type s log content :
  let log1 := if groq_client self then log ++ [GroqCompletion prompt] else log in
  (groq_client self = false
   \/ raised (groq_create env (log ++ [GroqCompletion prompt]))
   \/ exists blank, groq_create env (log ++ [GroqCompletion prompt]) = inr blank
                    /\ PyStr.strip blank = "") ->
  openai_client self = true ->
  openai_create env (log1 ++ [OpenAICompletion prompt]) = inr content ->
  PyStr.strip content <> "" ->
  _call_ai_api env self prompt analysis_type s log
  = mkOut (inr (PyStr.strip content)) s (log1 ++ [OpenAICompletion prompt]).
Proof.
  intros log1 Hg Hc Ho Hne. rewrite _call_ai_api_unfold.
  unfold ai_api_outcome. fold log1.
  assert (Eg : (if groq_client self
                then provider_answer (groq_create env) (GroqCompletion prompt) log
                else None) = None).
  { destruct (groq_client self); [|reflexivity]. unfold provider_answer.
    destruct Hg as [Hg | [[e Hg] | (blank & Hg & Hb)]]; [discriminate | | ];
      rewrite Hg; [reflexivity|]. rewrite Hb. reflexivity. }
  rewrite Eg, Hc. unfold provider_answer. rewrite Ho.
  destruct (PyStr.strip content) eqn:E; [congruence|]. reflexivity.
Qed.

Lemma _call_ai_api_calls self prompt analysis_type s log :
  let o := _call_ai_api env self prompt analysis_type s log in
  exists text calls,
    out_res o = inr text /\ text <> ""
    /\ out_st o = s
    /\ out_log o = log ++ calls
    /\ (calls = [] \/ calls = [GroqCompletion prompt] \/ calls = [OpenAICompletion prompt]
        \/ calls = [GroqCompletion prompt; OpenAICompletion prompt])
    /\ (In (GroqCompletion prompt) calls <-> groq_client self = true)
    /\ (In (OpenAICompletion prompt) calls -> openai_client self = true).
Proof.
  cbv zeta. rewrite _call_ai_api_unfold. unfold ai_api_outcome.
  cbn [out_res out_st out_log].
  assert (Hne : forall create ev l t, provider_answer create ev l = Some t -> t <> "").
  { intros create ev l t. unfold provider_answer.
    destruct (create (l ++ [ev])) as [e|content]; [discriminate|].
    destruct (PyStr.strip content) eqn:E; cbn; [discriminate|].
    intros [= <-]. discriminate. }
  assert (Hun : unavailable analysis_type <> "") by discriminate.
  destruct (groq_client self) eqn:Eg, (openai_client self) eqn:Eo;
    repeat match goal with
           | |- context [provider_answer ?c ?ev ?l] =>
               let H := fresh "Ha" in
               destruct (provider_answer c ev l) as [?t|] eqn:H;
               [apply Hne in H|]
           end;
    cbn [fst snd];
    match goal with
    | |- exists text calls, inr ?t = inr text /\ _ /\ _ /\ ?l' = _ /\ _ =>
        exists t;
        lazymatch l' with
        | log => exists []
        | log ++ [?a] => exists [a]
        | (log ++ [?a]) ++ [?b] => exists [a; b]
        end;
        (split; [reflexivity|]); (split; [assumption|]);
        (split; [reflexivity|]);
        (split; [rewrite ?app_nil_r, <- ?app_assoc; reflexivity|])
    end;
    (split; [auto 6|]); cbn [In]; split; try split; intros;
    try reflexivity; try congruence; intuition (try discriminate; auto).
Qed.

(** X3: whatever the providers do, the text _call_ai_api returns is never
    empty, and the calls it adds to the log are at most one Groq completion
    followed by at most one OpenAI completion, each only when its client
    exists. *)
Theorem ai_api_result_never_empty self prompt analysis_type s log :
  let o := _call_ai_api env self prompt analysis_type s log in
  exists text calls,
    out_res o = inr text /\ text <> ""
    /\ out_st o = s
    /\ out_log o = log ++ calls
    /\ (calls = [] \/ calls = [GroqCompletion prompt] \/ calls = [OpenAICompletion prompt]
        \/ calls = [GroqCompletion prompt; OpenAICompletion prompt])
    /\ (In (GroqCompletion prompt) calls <-> groq_client self = true)
    /\ (In (OpenAICompletion prompt) calls -> openai_client self = true).
Proof. exact (_call_ai_api_calls self prompt analysis_type s log). Qed.

End ProviderOrder.

Lemma primary_answer_wins_witness :
  groq_client both_clients = true
  /\ groq_create (env_sample (inr " yes | Dating tips | Dating Advice "))
       ([] ++ [GroqCompletion sample_prompt])
     = inr " yes | Dating tips | Dating Advice "
  /\ PyStr.strip " yes | Dating tips | Dating Advice " <> ""
  /\ _call_ai_api (env_sample (inr " yes | Dating tips | Dating Advice ")) both_clients
       sample_prompt "content analysis" tt []
     = mkOut (inr "yes | Dating tips | Dating Advice") tt [GroqCompletion sample_prompt].
Proof.
  assert (Hne : PyStr.strip " yes | Dating tips | Dating Advice " <> "")
    by (vm_compute; discriminate).
  split; [reflexivity|]. split; [reflexivity|]. split; [exact Hne|].
  exact (primary_answer_wins (env_sample (inr " yes | Dating tips | Dating Advice "))
           both_clients sample_prompt "content analysis" tt []
           " yes | Dating tips | Dating Advice " eq_refl eq_refl Hne).
Defined.

Lemma secondary_answer_used_witness :
  groq_client (mkAIAnalyzer false true) = false
  /\ openai_client (mkAIAnalyzer false true) = true
  /\ openai_create env_quota ([] ++ [OpenAICompletion sample_prompt]) = inr "NO | unrelated | None"
  /\ _call_ai_api env_quota (mkAIAnalyzer false true) sample_prompt "content analysis" tt []
     = mkOut (inr "NO | unrelated | None") tt [OpenAICompletion sample_prompt].
Proof.
  split; [reflexivity|]. split; [reflexivity|]. split; [reflexivity|].
  assert (Hne : PyStr.strip "NO | unrelated | None" <> "") by (vm_compute; discriminate).
  exact (secondary_answer_used env_quota (mkAIAnalyzer false true) sample_prompt
           "content analysis" tt [] "NO | unrelated | None"
           (or_introl eq_refl) eq_refl eq_refl Hne).
Defined.

Lemma ai_api_result_never_empty_witness :
  exists text calls,
    out_res (_call_ai_api env_down both_clients sample_prompt "content analysis" tt [])
    = inr text
    /\ text <> "" /\ out_st (_call_ai_api env_down both_clients sample_prompt
                               "content analysis" tt []) = tt
    /\ out_log (_call_ai_api env_down both_clients sample_prompt "content analysis" tt [])
       = [] ++ calls
    /\ (calls = [] \/ calls = [GroqCompletion sample_prompt]
        \/ calls = [OpenAICompletion sample_prompt]
        \/ calls = [GroqCompletion sample_prompt; OpenAICompletion sample_prompt])
    /\ (In (GroqCompletion sample_prompt) calls <-> groq_client both_clients = true)
    /\ (In (OpenAICompletion sample_prompt) calls -> openai_client both_clients = true).
Proof.
  exact (ai_api_result_never_empty env_down both_clients sample_prompt "content analysis" tt []).
Defined.

(* --------------------------------------------------------------------- *)
(* Niche verification at its edges                                        *)
(* --------------------------------------------------------------------- *)
Section NicheEdges.

Context {S : Type}.
Variable env : Env.
Variable verification_prompt : string -> string -> string.
Implicit Types (s : S) (log : list Event) (videos : list VideoData).

Lemma video_texts_none videos :
  (exists video, In video videos /\ sn_title (vd_snippet video) = None) ->
  video_texts videos = None.
Proof.
  induction videos as [|v vs IH]; intros (video & Hin & Hnone); [destruct Hin|].
  cbn [video_texts]. destruct Hin as [<- | Hin].
  - unfold video_text. rewrite Hnone. reflexivity.
  - rewrite IH by eauto. destruct (video_text v); reflexivity.
Qed.

(** X4: when the list of videos is empty, or one of the first five videos
    has no title, verify_niche_from_cached_videos answers with a negative
    verdict ("Could not fetch videos", or "Verification error: 'title'")
    without calling any LLM provider: object and log are left as they
    were. *)
Theorem verify_niche_without_classifier channel_info videos ai s log :
  let o := verify_niche_from_cached_videos env verification_prompt
             channel_info videos ai s log in
  (videos = [] -> o = mkOut (inr (false, "Could not fetch videos", "")) s log)
  /\ ((exists video, In video (take 5 videos) /\ sn_title (vd_snippet video) = None) ->
      o = mkOut (inr (false, "Verification error: 'title'", "")) s log).
Proof.
  cbv zeta. split.
  - intros ->. reflexivity.
  - intros Hmiss. pose proof (video_texts_none _ Hmiss) as Hnone.
    unfold verify_niche_from_cached_videos.
    destruct videos as [|v vs]; [destruct Hmiss as (? & [] & _)|].
    erewrite try_except_raised
      by (erewrite bind_raises by (rewrite video_content_unfold, Hnone; reflexivity);
          reflexivity).
    reflexivity.
Qed.

(** X5: verify_niche_from_cached_videos looks at the first five videos
    only: for a non-empty list it gives the same result, and makes the
    same calls, as on the list cut to its first five videos. *)
Theorem verify_niche_reads_first_five channel_info videos ai s log :
  verify_niche_from_cached_videos env verification_prompt channel_info videos ai s log
  = verify_niche_from_cached_videos env verification_prompt channel_info
      (take 5 videos) ai s log.
Proof.
  unfold verify_niche_from_cached_videos.
  destruct videos as [|v vs]; [reflexivity|].
  assert (E : take 5 (take 5 (v :: vs)) = take 5 (v :: vs))
    by (rewrite take_take; f_equal).
  change (take 5 (v :: vs)) with (v :: take 4 vs) at 2. cbv iota.
  change (v :: take 4 vs) with (take 5 (v :: vs)). rewrite E. reflexivity.
Qed.

End NicheEdges.

(* --------------------------------------------------------------------- *)
(* Profiles and searches                                                  *)
(* --------------------------------------------------------------------- *)
Section Admission.

Variable env : Env.
Implicit Types (self : Finder) (log : list Event).

Ltac break_inner_in H :=
  match type of H with
  | context [match ?x with _ => _ end] =>
      lazymatch x with
      | context [match _ with _ => _ end] => fail
      | _ => destruct x eqn:?
      end
  end.

Ltac no_effect_tac :=
  first [ apply no_effect_ret | apply no_effect_raise | apply no_effect_get
        | apply no_effect_subscript | apply no_effect_py_int | apply no_effect_py_int_or_0
        | apply no_effect_bind; [|intros ?]
        | match goal with
          | |- no_effect (if ?b then _ else _) => destruct b
          | |- no_effect (match ?x with _ => _ end) => destruct x
          end ].

Lemma get_channel_details_profile channel_id' self log info :
  out_res (get_channel_details env channel_id' self log) = inr (Some info) ->
  channel_id info = channel_id'
  /\ min_subscribers self <= subscriber_count info <= max_subscribers self
  /\ (exists url, handle info = "@" +:+ url)
  /\ exists n a,
       api_calls_per_key self !! current_key_index self = Some n
       /\ current_analyzer self = Some a
       /\ out_st (get_channel_details env channel_id' self log)
          = set_api_calls_per_key
              (<[current_key_index self := n + 1]> (api_calls_per_key self)) self
       /\ out_log (get_channel_details env channel_id' self log)
          = log ++ [YtChannelsList (developerKey a) channel_id'].
Proof.
  unfold get_channel_details.
  match goal with |- context [try_except ?m _ _ _] => set (body := m) end.
  destruct (try_except_const body None self log) as (_ & -> & -> & Hb).
  intros Hres. apply Hb in Hres as [Hres|Hres]; [discriminate|]. clear Hb.
  subst body.
  pose proof (track_api_usage_unfold self log) as Ht.
  destruct (api_calls_per_key self !! current_key_index self) as [n|].
  2:{ erewrite bind_raises in Hres by exact Ht. discriminate. }
  erewrite bind_returns in Hres |- * by exact Ht.
  set (self1 := set_api_calls_per_key _ self) in *.
  pose proof (youtube_unfold self1 log) as Hy.
  change (current_analyzer self1) with (current_analyzer self) in Hy.
  destruct (current_analyzer self) as [a|].
  2:{ erewrite bind_raises in Hres by exact Hy. discriminate. }
  erewrite bind_returns in Hres |- * by exact Hy.
  match type of Hres with
  | context [mbind ?k (external ?ev ?ans)] =>
      assert (Hk : forall items, no_effect (k items))
  end.
  { intros items. repeat no_effect_tac. }
  rewrite bind_external in Hres |- *.
  destruct (channels_execute env _) as [e|items]; [discriminate|].
  destruct (Hk items self1 (log ++ [YtChannelsList (developerKey a) channel_id']))
    as [Hst Hlog].
  assert (Hinfo : channel_id info = channel_id'
                  /\ min_subscribers self <= subscriber_count info <= max_subscribers self
                  /\ exists url, handle info = "@" +:+ url).
  { clear Hst Hlog Hk. unfold py_int, py_int_or_0, subscript in Hres. py_unfold.
    cbn [out_res out_st out_log] in Hres.
    repeat (break_inner_in Hres; cbn [out_res out_st out_log] in Hres; try discriminate).
    all: injection Hres as <-; cbn [channel_id subscriber_count handle].
    all: match goal with
         | H : negb _ = false |- _ =>
             apply negb_false_iff, andb_true_iff in H as [H1 H2];
             apply Z.leb_le in H1, H2
         end.
    all: subst self1; cbn [min_subscribers max_subscribers set_api_calls_per_key] in *.
    all: split; [reflexivity|]; split; [lia|]; eexists; reflexivity. }
  destruct Hinfo as (Hid & Hrange & Hurl).
  split; [exact Hid|]. split; [exact Hrange|]. split; [exact Hurl|].
  exists n, a. repeat split; assumption.
Qed.

(** X6: a profile that get_channel_details returns is the profile of the
    channel asked for, its subscriber count lies within
    [min_subscribers, max_subscribers], its handle is '@' followed by the
    custom URL (or by the channel id when there is none); the call was
    counted once on the key in use and cost exactly one channels().list
    request. *)
Theorem get_channel_details_admits channel_id' self log info :
  out_res (get_channel_details env channel_id' self log) = inr (Some info) ->
  channel_id info = channel_id'
  /\ min_subscribers self <= subscriber_count info <= max_subscribers self
  /\ (exists url, handle info = "@" +:+ url)
  /\ exists n a,
       api_calls_per_key self !! current_key_index self = Some n
       /\ current_analyzer self = Some a
       /\ out_st (get_channel_details env channel_id' self log)
          = set_api_calls_per_key
              (<[current_key_index self := n + 1]> (api_calls_per_key self)) self
       /\ out_log (get_channel_details env channel_id' self log)
          = log ++ [YtChannelsList (developerKey a) channel_id'].
Proof. exact (get_channel_details_profile channel_id' self log info). Qed.

End Admission.

(* --------------------------------------------------------------------- *)
(* What a keyword search returns and raises                               *)
(* --------------------------------------------------------------------- *)
Section SearchResults.

Variable env : Env.
Implicit Types (self : Finder) (log : list Event).

(* One turn of the loop, with what it adds to its two locals. *)
Lemma search_item_step_adds item locals self log :
  let o := search_item_step env item locals self log in
  exists locals',
    out_res o = inr locals'
    /\ (locals' = locals
        \/ ((si_channelId item ∉ locals.2)
            /\ (si_channelId item ∉ discovered_channels self)
            /\ locals'.2 = locals.2 ∪ {[si_channelId item]}
            /\ (locals'.1 = locals.1
                \/ exists info, locals'.1 = locals.1 ++ [info]
                                /\ channel_id info = si_channelId item
                                /\ admitted self info))).
Proof.
  cbv zeta. unfold search_item_step. destruct locals as [found seen].
  rewrite bind_get. cbn [fst snd].
  destruct (bool_decide (si_channelId item ∈ seen)) eqn:Hseen;
    [eexists; split; [reflexivity | left; reflexivity]|].
  destruct (bool_decide (si_channelId item ∈ discovered_channels self)) eqn:Hdisc;
    [eexists; split; [reflexivity | left; reflexivity]|].
  apply bool_decide_eq_false in Hseen, Hdisc. cbn [orb].
  destruct (_is_discovered self (fake_channel_info item) (Some item));
    [eexists; split; [reflexivity | left; reflexivity]|].
  destruct (get_channel_details_facts env (si_channelId item) self log)
    as ([profile Hprofile] & Hreg & _).
  pose proof (get_channel_details_profile env (si_channelId item) self log) as Hadm.
  destruct (get_channel_details env (si_channelId item) self log)
    as [res self1 log1] eqn:Hd.
  cbn [out_res out_st out_log] in Hprofile, Hreg, Hadm. subst res.
  erewrite bind_returns by exact Hd.
  destruct profile as [info|].
  - rewrite bind_get. destruct (Hadm info eq_refl) as (Hid & Hrange & _).
    destruct (_is_discovered self1 info (Some item)).
    + eexists; split; [reflexivity|]. right. cbn [fst snd]. auto 10.
    + eexists; split; [reflexivity|]. right. cbn [fst snd].
      repeat split; auto. right. exists info. repeat split; auto; apply Hrange.
  - eexists; split; [reflexivity|]. right. cbn [fst snd]. auto 10.
Qed.

Lemma found_invariant_only_counters self self' locals :
  only_counters self self' -> found_invariant self' locals -> found_invariant self locals.
Proof.
  intros [m ->] H. exact H.
Qed.

Lemma search_item_step_invariant item locals self log :
  found_invariant self locals ->
  forall locals', out_res (search_item_step env item locals self log) = inr locals' ->
  found_invariant self locals'.
Proof.
  intros (Hnd & Hin) locals' Hres.
  destruct (search_item_step_adds item locals self log) as (locals1 & Hres1 & Hadd).
  cbv zeta in Hres1. rewrite Hres1 in Hres. injection Hres as <-.
  destruct Hadd as [-> | (Hfresh & Hnew & Hseen & Hfound)]; [split; assumption|].
  destruct Hfound as [Hsame | (info & Happ & Hid & Hadm)].
  - split; [rewrite Hsame; exact Hnd|].
    intros info Hi. rewrite Hsame in Hi. destruct (Hin info Hi) as (H1 & H2 & H3).
    rewrite Hseen. split; [apply elem_of_union; left; exact H1|]. split; assumption.
  - split.
    + rewrite Happ, fmap_app. apply NoDup_app. split; [exact Hnd|]. split.
      * intros cid Hc Hc'. cbn in Hc'. apply list_elem_of_singleton in Hc'. subst cid.
        apply list_elem_of_fmap in Hc as (info' & Heq & Hi').
        destruct (Hin info' Hi') as (H1 & _). rewrite <- Heq, Hid in H1. contradiction.
      * cbn. apply NoDup_singleton.
    + intros info' Hi. rewrite Happ in Hi. rewrite Hseen.
      apply elem_of_app in Hi as [Hi|Hi].
      * destruct (Hin info' Hi) as (H1 & H2 & H3).
        split; [apply elem_of_union; left; exact H1|]. split; assumption.
      * apply list_elem_of_singleton in Hi. subst info'. rewrite Hid.
        split; [apply elem_of_union; right; apply elem_of_singleton; reflexivity|].
        split; assumption.
Qed.

Lemma search_items_loop_invariant items : forall locals self log,
  found_invariant self locals ->
  forall locals', out_res (search_items_loop env items locals self log) = inr locals' ->
  found_invariant self locals'.
Proof.
  induction items as [|item items IH]; intros locals self log Hinv locals' Hres;
    cbn [search_items_loop] in Hres.
  - injection Hres as <-. exact Hinv.
  - destruct (search_item_step_facts env item locals self log)
      as (locals1 & Hres1 & Hreg & _).
    pose proof (search_item_step_invariant item locals self log Hinv) as Hstep.
    destruct (search_item_step env item locals self log) as [res self1 log1] eqn:Hs.
    cbn [out_res out_st out_log] in Hres1, Hreg, Hstep. subst res.
    erewrite bind_returns in Hres by exact Hs.
    apply (found_invariant_only_counters _ _ _ Hreg).
    eapply IH; [|exact Hres].
    destruct Hreg as [m ->]. exact (Hstep locals1 eq_refl).
Qed.

Lemma search_try_block_found keyword max_results self log found :
  out_res (search_try_block env keyword max_results self log) = inr found ->
  exists seen, found_invariant self (found, seen).
Proof.
  unfold search_try_block. intros Hres.
  pose proof (track_api_usage_unfold self log) as Ht.
  destruct (api_calls_per_key self !! current_key_index self) as [n|].
  2:{ erewrite bind_raises in Hres by exact Ht. discriminate. }
  erewrite bind_returns in Hres by exact Ht.
  set (self1 := set_api_calls_per_key _ self) in *.
  assert (Hreg : only_counters self self1) by (eexists; reflexivity).
  pose proof (youtube_unfold self1 log) as Hy.
  destruct (current_analyzer self1) as [a|].
  2:{ erewrite bind_raises in Hres by exact Hy. discriminate. }
  erewrite bind_returns in Hres by exact Hy.
  rewrite bind_external in Hres.
  destruct (search_execute env _) as [e|items]; [discriminate|].
  assert (Hinit : found_invariant self1 ([], ∅)).
  { split; [cbn; apply NoDup_nil_2|]. intros info Hin. cbn in Hin.
    apply elem_of_nil in Hin. destruct Hin. }
  pose proof (search_items_loop_invariant items ([], ∅) self1
                (log ++ [YtSearchKeyword (developerKey a) keyword max_results]) Hinit)
    as Hloop.
  destruct (search_items_loop env items ([], ∅) self1 _) as [[e|[found' seen]] self2 log2] eqn:Hl.
  { erewrite bind_raises in Hres by exact Hl. discriminate. }
  erewrite bind_returns in Hres by exact Hl.
  injection Hres as <-. exists seen.
  apply (found_invariant_only_counters _ _ _ Hreg). exact (Hloop _ eq_refl).
Qed.

(* One level of search_channels_by_keyword, in closed form. *)
Lemma search_channels_by_keyword_rec_step depth keyword max_results self log :
  let b := search_try_block env keyword max_results self log in
  search_channels_by_keyword_rec env depth keyword max_results self log
  = match out_res b with
    | inr _ => b
    | inl (HttpError status text) =>
        if is_quota_error status text then
          let moved := set_current_key_index (S (current_key_index (out_st b))) (out_st b) in
          match api_keys (out_st b) !! S (current_key_index (out_st b)) with
          | Some api_key =>
              let switched := set_current_analyzer (Some (new_Analyzer api_key)) moved in
              match depth with
              | S depth' =>
                  search_channels_by_keyword_rec env depth' keyword max_results
                    switched (out_log b)
              | O => mkOut (inl (OtherException "maximum recursion depth exceeded"))
                           switched (out_log b)
              end
          | None => mkOut (inl (QuotaExceededError "All API keys exhausted")) moved (out_log b)
          end
        else mkOut (inr []) (out_st b) (out_log b)
    | inl _ => mkOut (inr []) (out_st b) (out_log b)
    end.
Proof.
  cbv zeta. rewrite search_channels_by_keyword_rec_unfold.
  destruct (search_try_block env keyword max_results self log) as [[e|found] self1 log1] eqn:Hb;
    cbn [out_res out_st out_log].
  2:{ erewrite try_except_returned by exact Hb. reflexivity. }
  erewrite try_except_raised by exact Hb.
  destruct e as [status text| | | | |]; try reflexivity.
  destruct (is_quota_error status text); [|reflexivity].
  pose proof (switch_to_next_api_key_unfold self1 log1) as Hsw. cbv zeta in Hsw.
  destruct (api_keys self1 !! S (current_key_index self1)) as [api_key|].
  - erewrite bind_returns by exact Hsw. destruct depth; reflexivity.
  - erewrite bind_raises by exact Hsw. reflexivity.
Qed.

Lemma search_channels_by_keyword_rec_found depth keyword max_results :
  forall self log found,
  out_res (search_channels_by_keyword_rec env depth keyword max_results self log) = inr found ->
  found = [] \/ exists seen, found_invariant self (found, seen).
Proof.
  induction depth as [|depth IH]; intros self log found;
    rewrite search_channels_by_keyword_rec_step; cbv zeta;
    pose proof (search_try_block_found keyword max_results self log) as Hb;
    destruct (search_try_block_facts env keyword max_results self log) as (Hreg & _);
    destruct (search_try_block env keyword max_results self log) as [[e|found0] self1 log1];
    cbn [out_res out_st out_log] in *;
    try (intros [= <-]; right; exact (Hb _ eq_refl));
    (destruct e as [status text| | | | |];
     [destruct (is_quota_error status text);
      [destruct (api_keys self1 !! S (current_key_index self1)) as [api_key|]|]|..]);
    cbn [out_res]; try discriminate; try (intros [= <-]; left; reflexivity).
  intros Hres. destruct (IH _ _ _ Hres) as [-> | [seen Hinv]]; [left; reflexivity|].
  right. exists seen. destruct Hreg as [m ->]. exact Hinv.
Qed.

(** X7: the channels a keyword search returns have pairwise different
    channel ids, none of them is a channel already accepted in this run,
    and each has a subscriber count within
    [min_subscribers, max_subscribers]. *)
Theorem search_results_distinct_and_admitted keyword max_results self log found :
  out_res (search_channels_by_keyword env keyword max_results self log) = inr found ->
  NoDup (channel_id <$> found)
  /\ Forall (fun info => (channel_id info ∉ discovered_channels self)
                         /\ admitted self info) found.
Proof.
  unfold search_channels_by_keyword. rewrite bind_get. intros Hres.
  destruct (search_channels_by_keyword_rec_found _ _ _ _ _ _ Hres)
    as [-> | (seen & Hnd & Hin)].
  - split; [apply NoDup_nil_2 | constructor].
  - split; [exact Hnd|]. apply Forall_forall. intros info Hi.
    destruct (Hin info Hi) as (_ & H2 & H3). split; assumption.
Qed.

(* Key index and key list over a search, retries included. *)
Lemma search_channels_by_keyword_rec_keys depth keyword max_results :
  forall self log,
  let o := search_channels_by_keyword_rec env depth keyword max_results self log in
  api_keys (out_st o) = api_keys self
  /\ (current_key_index self <= current_key_index (out_st o))%nat
  /\ (forall e, out_res o = inl e ->
        (e = QuotaExceededError "All API keys exhausted"
         /\ (length (api_keys self) <= current_key_index (out_st o))%nat)
        \/ (e = OtherException "maximum recursion depth exceeded"
            /\ (S depth < length (api_keys self) - current_key_index self)%nat))
  /\ (forall found, out_res o = inr found ->
        current_key_index (out_st o) = current_key_index self
        \/ (current_key_index (out_st o) < length (api_keys self))%nat).
Proof.
  induction depth as [|depth IH]; intros self log; cbv zeta;
    rewrite search_channels_by_keyword_rec_step; cbv zeta;
    destruct (search_try_block_facts env keyword max_results self log) as (Hreg & _);
    destruct (only_counters_pool _ _ Hreg) as [Hkeys Hidx];
    destruct (search_try_block env keyword max_results self log) as [[e|found0] self1 log1];
    cbn [out_res out_st out_log] in *;
    try (split; [exact Hkeys|]; split; [lia|]; split; [discriminate|]; intros; left; exact Hidx);
    (destruct e as [status text| | | | |];
     [destruct (is_quota_error status text);
      [destruct (api_keys self1 !! S (current_key_index self1)) as [api_key|] eqn:Hk|]|..]);
    cbn [out_res out_st out_log api_keys current_key_index
         set_current_analyzer set_current_key_index];
    try (split; [exact Hkeys|]; split; [lia|]; split; [discriminate|]; intros; left; exact Hidx).
  - apply lookup_lt_Some in Hk.
    split; [exact Hkeys|]. split; [lia|]. split; [|discriminate].
    intros e [= <-]. right. split; [reflexivity|]. rewrite <- Hkeys, <- Hidx. lia.
  - apply lookup_ge_None in Hk.
    split; [exact Hkeys|]. split; [lia|]. split; [|discriminate].
    intros e [= <-]. left. split; [reflexivity|]. rewrite <- Hkeys. lia.
  - apply lookup_lt_Some in Hk.
    set (switched := set_current_analyzer _ _).
    destruct (IH switched log1) as (IHk & IHi & IHe & IHr).
    subst switched.
    cbn [api_keys current_key_index set_current_analyzer set_current_key_index] in *.
    split; [congruence|]. split; [lia|]. split.
    + intros e He. destruct (IHe e He) as [[-> Hlen] | [-> Hlen]].
      * left. split; [reflexivity|]. rewrite <- Hkeys. exact Hlen.
      * right. split; [reflexivity|]. rewrite <- Hkeys, <- Hidx. lia.
    + intros found Hf. right. destruct (IHr found Hf) as [-> | Hlt].
      * rewrite <- Hkeys. lia.
      * rewrite <- Hkeys. exact Hlt.
  - apply lookup_ge_None in Hk.
    split; [exact Hkeys|]. split; [lia|]. split; [|discriminate].
    intros e [= <-]. left. split; [reflexivity|]. rewrite <- Hkeys. lia.
Qed.

(** X8: a keyword search moves the key index forward only and leaves the
    key list alone; the only exception it lets out is QuotaExceededError
    'All API keys exhausted', and then the index is at or past the end of
    the key list; when it returns, the index is where it was or points at
    a key. *)
Theorem search_raises_only_when_keys_exhausted keyword max_results self log :
  let o := search_channels_by_keyword env keyword max_results self log in
  api_keys (out_st o) = api_keys self
  /\ (current_key_index self <= current_key_index (out_st o))%nat
  /\ (forall e, out_res o = inl e ->
        e = QuotaExceededError "All API keys exhausted"
        /\ (length (api_keys self) <= current_key_index (out_st o))%nat)
  /\ (forall found, out_res o = inr found ->
        current_key_index (out_st o) = current_key_index self
        \/ (current_key_index (out_st o) < length (api_keys self))%nat).
Proof.
  cbv zeta. unfold search_channels_by_keyword. rewrite bind_get.
  destruct (search_channels_by_keyword_rec_keys (length (api_keys self))
              keyword max_results self log) as (Hk & Hi & He & Hr).
  split; [exact Hk|]. split; [exact Hi|]. split; [|exact Hr].
  intros e Hres. destruct (He e Hres) as [H | [_ Hlt]]; [exact H | lia].
Qed.

End SearchResults.

(* --------------------------------------------------------------------- *)
(* What each method adds to the log of calls                              *)
(* --------------------------------------------------------------------- *)
Section LogGrowth.

Variable env : Env.
Implicit Types (self : Finder) (log : list Event) (P : Event -> bool).

Lemma adds_only_refl P log : adds_only P log log.
Proof. exists []. rewrite app_nil_r. split; reflexivity. Qed.

Lemma adds_only_trans P log1 log2 log3 :
  adds_only P log1 log2 -> adds_only P log2 log3 -> adds_only P log1 log3.
Proof.
  intros (c1 & -> & H1) (c2 & -> & H2). exists (c1 ++ c2).
  rewrite app_assoc, forallb_app, H1, H2. split; reflexivity.
Qed.

Lemma adds_only_one P log ev : P ev = true -> adds_only P log (log ++ [ev]).
Proof. intros H. exists [ev]. cbn. rewrite H. split; reflexivity. Qed.

Lemma adds_only_weaken P Q log log' :
  (forall ev, P ev = true -> Q ev = true) -> adds_only P log log' -> adds_only Q log log'.
Proof.
  intros HPQ (calls & -> & H). exists calls. split; [reflexivity|].
  apply forallb_forall. intros ev Hin. apply HPQ.
  rewrite forallb_forall in H. apply H. exact Hin.
Qed.

Lemma filter_length_app (P : Event -> bool) log calls :
  length (filter P (log ++ calls)) = (length (filter P log) + length (filter P calls))%nat.
Proof. rewrite filter_app, length_app. reflexivity. Qed.

Lemma filter_none (P Q : Event -> bool) calls :
  (forall ev, P ev = true -> Q ev = false) ->
  forallb P calls = true -> filter Q calls = [].
Proof.
  intros HPQ. induction calls as [|ev calls IH]; [reflexivity|].
  cbn [forallb]. intros H. apply andb_true_iff in H as [Hev Hrest].
  rewrite filter_cons, decide_False; [auto|].
  rewrite (HPQ ev Hev). intros [].
Qed.

(* YouTube calls add no CSV row and no LLM call. *)
Lemma adds_only_youtube_counts log log' :
  adds_only is_youtube_call log log' ->
  csv_rows log' = csv_rows log /\ llm_calls log' = llm_calls log.
Proof.
  intros (calls & -> & H). unfold csv_rows, llm_calls. rewrite !filter_length_app.
  rewrite (filter_none is_youtube_call is_csv_row calls), (filter_none is_youtube_call is_llm_call calls);
    try exact H; try (intros []; cbn; congruence).
  cbn. split; lia.
Qed.

Lemma adds_only_llm_counts log log' :
  adds_only is_llm_call log log' ->
  csv_rows log' = csv_rows log /\ youtube_calls log' = youtube_calls log.
Proof.
  intros (calls & -> & H). unfold csv_rows, youtube_calls. rewrite !filter_length_app.
  rewrite (filter_none is_llm_call is_csv_row calls), (filter_none is_llm_call is_youtube_call calls);
    try exact H; try (intros []; cbn; congruence).
  cbn. split; lia.
Qed.

Lemma get_channel_details_adds channel_id' self log :
  adds_only is_youtube_call log (out_log (get_channel_details env channel_id' self log)).
Proof.
  destruct (get_channel_details_facts env channel_id' self log) as (_ & _ & [-> | [key ->]]).
  - apply adds_only_refl.
  - apply adds_only_one. reflexivity.
Qed.

Lemma search_item_step_log item locals self log :
  adds_only is_youtube_call log (out_log (search_item_step env item locals self log)).
Proof.
  destruct (search_item_step_facts env item locals self log)
    as (_ & _ & _ & [-> | [key ->]] & _).
  - apply adds_only_refl.
  - apply adds_only_one. reflexivity.
Qed.

Lemma search_items_loop_log items : forall locals self log,
  adds_only is_youtube_call log (out_log (search_items_loop env items locals self log)).
Proof.
  induction items as [|item items IH]; intros locals self log; cbn [search_items_loop].
  - apply adds_only_refl.
  - destruct (search_item_step_facts env item locals self log) as (locals1 & Hres & _).
    pose proof (search_item_step_log item locals self log) as Hlog.
    destruct (search_item_step env item locals self log) as [res self1 log1] eqn:Hs.
    cbn [out_res out_st out_log] in Hres, Hlog. subst res.
    erewrite bind_returns by exact Hs.
    exact (adds_only_trans _ _ _ _ Hlog (IH locals1 self1 log1)).
Qed.

(* The try block of a search: nothing but YouTube calls, and when key
   counter and analyzer are in place the first of them is the search
   request with the key in use. *)
Lemma search_try_block_log keyword max_results self log :
  adds_only is_youtube_call log
    (out_log (search_try_block env keyword max_results self log))
  /\ (forall a, is_Some (api_calls_per_key self !! current_key_index self) ->
        current_analyzer self = Some a ->
        exists rest,
          out_log (search_try_block env keyword max_results self log)
          = (log ++ [YtSearchKeyword (developerKey a) keyword max_results]) ++ rest
          /\ forallb is_youtube_call rest = true
          /\ (forall e, search_execute env
                          (log ++ [YtSearchKeyword (developerKey a) keyword max_results])
                        = inl e ->
                 out_res (search_try_block env keyword max_results self log) = inl e
                 /\ rest = [])).
Proof.
  unfold search_try_block.
  pose proof (track_api_usage_unfold self log) as Ht.
  destruct (api_calls_per_key self !! current_key_index self) as [n|].
  2:{ erewrite bind_raises by exact Ht. cbn [out_log].
      split; [apply adds_only_refl|]. intros a [x Hx]. discriminate. }
  erewrite bind_returns by exact Ht.
  set (self1 := set_api_calls_per_key _ self).
  pose proof (youtube_unfold self1 log) as Hy.
  change (current_analyzer self1) with (current_analyzer self) in Hy.
  destruct (current_analyzer self) as [a|].
  2:{ erewrite bind_raises by exact Hy. cbn [out_log].
      split; [apply adds_only_refl|]. intros a _ Ha. discriminate. }
  erewrite bind_returns by exact Hy.
  rewrite bind_external.
  set (log1 := log ++ [YtSearchKeyword (developerKey a) keyword max_results]).
  assert (H1 : adds_only is_youtube_call log log1) by (apply adds_only_one; reflexivity).
  destruct (search_execute env log1) as [e|items] eqn:Hx.
  { cbn [out_log out_res]. split; [exact H1|]. intros a' _ [= <-].
    exists []. rewrite app_nil_r. split; [reflexivity|]. split; [reflexivity|].
    fold log1. rewrite Hx. intros e' [= <-]. split; reflexivity. }
  destruct (search_items_loop_facts env items ([], ∅) self1 log1) as (locals' & Hres & _).
  pose proof (search_items_loop_log items ([], ∅) self1 log1) as Hloop.
  destruct (search_items_loop env items ([], ∅) self1 log1) as [res self2 log2] eqn:Hl.
  cbn [out_res out_log] in Hres, Hloop. subst res.
  erewrite bind_returns by exact Hl.
  unfold mret, Py_ret, ret. cbn [out_log out_res].
  split; [exact (adds_only_trans _ _ _ _ H1 Hloop)|].
  intros a' _ [= <-]. destruct Hloop as (rest & -> & Hrest).
  exists rest. split; [reflexivity|]. split; [exact Hrest|].
  fold log1. rewrite Hx. discriminate.
Qed.

Lemma search_channels_by_keyword_rec_log depth keyword max_results : forall self log,
  adds_only is_youtube_call log
    (out_log (search_channels_by_keyword_rec env depth keyword max_results self log)).
Proof.
  induction depth as [|depth IH]; intros self log;
    rewrite search_channels_by_keyword_rec_step; cbv zeta;
    destruct (search_try_block_log keyword max_results self log) as (Hb & _);
    destruct (search_try_block env keyword max_results self log) as [[e|found0] self1 log1];
    cbn [out_res out_st out_log] in *; try exact Hb;
    (destruct e as [status text| | | | |];
     [destruct (is_quota_error status text);
      [destruct (api_keys self1 !! S (current_key_index self1)) as [api_key|]|]|..]);
    cbn [out_log]; try exact Hb.
  exact (adds_only_trans _ _ _ _ Hb (IH _ _)).
Qed.

Lemma search_channels_by_keyword_log keyword max_results self log :
  adds_only is_youtube_call log
    (out_log (search_channels_by_keyword env keyword max_results self log)).
Proof.
  unfold search_channels_by_keyword. rewrite bind_get.
  apply search_channels_by_keyword_rec_log.
Qed.

(* the try block when the search request itself raises *)
Lemma search_try_block_raises keyword max_results self log n a e :
  api_calls_per_key self !! current_key_index self = Some n ->
  current_analyzer self = Some a ->
  search_execute env (log ++ [YtSearchKeyword (developerKey a) keyword max_results]) = inl e ->
  search_try_block env keyword max_results self log
  = mkOut (inl e)
          (set_api_calls_per_key
             (<[current_key_index self := n + 1]> (api_calls_per_key self)) self)
          (log ++ [YtSearchKeyword (developerKey a) keyword max_results]).
Proof.
  intros Hn Ha He. unfold search_try_block.
  erewrite bind_returns by (rewrite track_api_usage_unfold, Hn; reflexivity).
  erewrite bind_returns by (rewrite youtube_unfold; cbn [current_analyzer set_api_calls_per_key];
                            rewrite Ha; reflexivity).
  rewrite bind_external, He. reflexivity.
Qed.

Lemma search_channels_by_keyword_rec_log_after_block depth keyword max_results self log :
  adds_only is_youtube_call
    (out_log (search_try_block env keyword max_results self log))
    (out_log (search_channels_by_keyword_rec env depth keyword max_results self log)).
Proof.
  rewrite search_channels_by_keyword_rec_step; cbv zeta.
  destruct (search_try_block env keyword max_results self log) as [[e|found0] self1 log1];
    cbn [out_res out_st out_log]; [|apply adds_only_refl].
  destruct e as [status text| | | | |]; try apply adds_only_refl.
  destruct (is_quota_error status text); [|apply adds_only_refl].
  destruct (api_keys self1 !! S (current_key_index self1)); [|apply adds_only_refl].
  destruct depth; [apply adds_only_refl|]. apply search_channels_by_keyword_rec_log.
Qed.

(** X9: when the search request of a keyword search hits the quota of the
    key in use and a next key exists, the same keyword is searched again
    with the next key: in the log the request with the current key is
    followed at once by the same request with the next key, and the key
    index has moved forward. *)
Theorem quota_error_retries_with_next_key keyword max_results self log a next_key text :
  well_formed self ->
  current_analyzer self = Some a ->
  api_keys self !! S (current_key_index self) = Some next_key ->
  search_execute env (log ++ [YtSearchKeyword (developerKey a) keyword max_results])
  = inl (HttpError 403 text) ->
  is_quota_error 403 text = true ->
  let o := search_channels_by_keyword env keyword max_results self log in
  exists rest,
    out_log o = log ++ [YtSearchKeyword (developerKey a) keyword max_results;
                        YtSearchKeyword next_key keyword max_results] ++ rest
    /\ forallb is_youtube_call rest = true
    /\ (S (current_key_index self) <= current_key_index (out_st o))%nat.
Proof.
  intros (_ & Hcounters) Ha Hnext Hquota Hq. cbv zeta.
  pose proof (lookup_lt_Some _ _ _ Hnext) as Hlt.
  destruct (Hcounters (current_key_index self)) as [n Hn]; [lia|].
  destruct (Hcounters (S (current_key_index self))) as [n' Hn']; [lia|].
  unfold search_channels_by_keyword. rewrite bind_get.
  destruct (length (api_keys self)) as [|depth] eqn:Hlen; [lia|].
  rewrite search_channels_by_keyword_rec_step. cbv zeta.
  rewrite (search_try_block_raises _ _ _ _ _ _ _ Hn Ha Hquota).
  cbn [out_res out_st out_log api_keys current_key_index set_api_calls_per_key].
  rewrite Hq, Hnext.
  set (switched := set_current_analyzer _ _).
  set (log1 := log ++ [YtSearchKeyword (developerKey a) keyword max_results]).
  destruct (search_try_block_log keyword max_results switched log1) as (_ & Hblock).
  destruct (Hblock (new_Analyzer next_key)) as (rest0 & Hlog0 & Hrest0 & _).
  { subst switched. cbn. rewrite lookup_insert_ne by lia. rewrite Hn'. eauto. }
  { reflexivity. }
  destruct (search_channels_by_keyword_rec_log_after_block depth keyword max_results
              switched log1) as (rest1 & Hlog1 & Hrest1).
  destruct (search_channels_by_keyword_rec_keys env depth keyword max_results switched log1)
    as (_ & Hidx & _).
  exists (rest0 ++ rest1). split; [|split].
  - rewrite Hlog1, Hlog0. subst log1. cbn [developerKey new_Analyzer].
    rewrite <- !app_assoc. reflexivity.
  - rewrite forallb_app, Hrest0, Hrest1. reflexivity.
  - exact Hidx.
Qed.

End LogGrowth.

(* --------------------------------------------------------------------- *)
(* Processing a candidate, in every case                                  *)
(* --------------------------------------------------------------------- *)
Section Candidate.

Variable env : Env.
Variable verification_prompt : string -> string -> string.
Variable calculate_engagement_from_cached_videos : list VideoData -> string.
Variable follower_display : Z -> string.
Implicit Types (self : Finder) (log : list Event).

(* the fetch as the finder sees it *)
Lemma fetch_outcome channel_id' self log :
  let fetched := on_analyzer (get_channel_videos_with_stats env channel_id' 15) self log in
  (current_analyzer self = None /\ raised (out_res fetched)
   /\ out_st fetched = self /\ out_log fetched = log)
  \/ (exists a' videos yt,
        fetched = mkOut (inr videos) (set_current_analyzer (Some a') self) (log ++ yt)
        /\ forallb is_youtube_call yt = true
        /\ (length yt <= 2)%nat
        /\ (videos <> [] -> length yt = 2%nat)).
Proof.
  cbv zeta. unfold on_analyzer. destruct (current_analyzer self) as [a|]; [right|left].
  2:{ repeat split. eexists; reflexivity. }
  rewrite get_channel_videos_with_stats_unfold. cbv zeta.
  destruct (search_execute env _) as [e|[|item items]]; cbn [out_res out_st out_log].
  - exists a, [], [YtSearchChannel (developerKey a) channel_id' 15].
    repeat split; cbn; try lia; congruence.
  - exists a, [], [YtSearchChannel (developerKey a) channel_id' 15].
    repeat split; cbn; try lia; congruence.
  - rewrite <- app_assoc. cbn [app].
    destruct (videos_execute env _) as [e|videos_items]; cbn [out_res out_st out_log].
    + eexists a, [], [_; _]. repeat split; cbn; lia.
    + pose proof (process_videos_log videos_items [] a
                    (log ++ [YtSearchChannel (developerKey a) channel_id' 15;
                             YtVideosList (developerKey a)
                               (PyStr.join "," (si_videoId <$> item :: items))])) as Hlog.
      unfold try_except.
      destruct (process_videos videos_items [] a _) as [[e|videos] a' log'];
        cbn [out_res out_st out_log] in *; subst log'.
      * eexists a', [], [_; _]. repeat split; cbn; lia.
      * eexists a', videos, [_; _]. repeat split; cbn; lia.
Qed.

Lemma ai_api_outcome_no_call ai prompt analysis_type log :
  (ai_api_outcome env ai prompt analysis_type log).2 = log ->
  (ai_api_outcome env ai prompt analysis_type log).1 = unavailable analysis_type.
Proof.
  unfold ai_api_outcome.
  destruct (groq_client ai), (openai_client ai);
    repeat match goal with
           | |- context [provider_answer ?c ?ev ?l] => destruct (provider_answer c ev l)
           end;
    cbn [fst snd]; intros H; try reflexivity;
    apply (f_equal length) in H; rewrite ?length_app in H; cbn [length] in H; lia.
Qed.

(* Niche verification returns a verdict, leaves the object alone and adds
   at most two LLM calls; a positive verdict needs a call. *)
Lemma verify_niche_outcome {S} channel_info videos ai (s : S) log :
  exists verdict llm,
    verify_niche_from_cached_videos env verification_prompt channel_info videos ai s log
    = mkOut (inr verdict) s (log ++ llm)
    /\ forallb is_llm_call llm = true
    /\ (length llm <= 2)%nat
    /\ (verdict.1.1 = true -> llm <> []).
Proof.
  unfold verify_niche_from_cached_videos.
  destruct videos as [|v vs].
  { exists (false, "Could not fetch videos", ""), []. rewrite app_nil_r.
    repeat split; cbn; try lia; discriminate. }
  destruct (video_texts (take 5 (v :: vs))) as [video_content|] eqn:Htexts.
  - set (prompt := verification_prompt (PyStr.join (nl +:+ nl) video_content)
                     (PyStr.take 300 (description channel_info))).
    destruct (_call_ai_api_calls env ai prompt "content analysis" s log)
      as (text & calls & Hres & _ & _ & Hlog & Hcases & _).
    rewrite _call_ai_api_unfold in Hres, Hlog. cbn [out_res out_log] in Hres, Hlog.
    injection Hres as <-.
    exists (parse_response (ai_api_outcome env ai prompt "content analysis" log).1), calls.
    split; [|split; [|split]].
    + erewrite try_except_returned; [reflexivity|].
      erewrite bind_returns by (rewrite video_content_unfold, Htexts; reflexivity).
      cbv zeta. fold prompt. unfold analyze_content.
      erewrite bind_returns by apply _call_ai_api_unfold.
      rewrite Hlog. reflexivity.
    + destruct Hcases as [-> | [-> | [-> | ->]]]; reflexivity.
    + destruct Hcases as [-> | [-> | [-> | ->]]]; cbn; lia.
    + intros Hyes ->. rewrite app_nil_r in Hlog.
      apply ai_api_outcome_no_call in Hlog. rewrite Hlog in Hyes.
      vm_compute in Hyes. discriminate.
  - eexists (false, _, ""), []. rewrite app_nil_r.
    split; [|repeat split; cbn; try lia; discriminate].
    erewrite try_except_raised
      by (erewrite bind_raises by (rewrite video_content_unfold, Htexts; reflexivity);
          reflexivity).
    reflexivity.
Qed.

Lemma same_pool_refl self : same_pool self self.
Proof. repeat split. Qed.

(* Everything process_channel_optimized can do. *)
Lemma process_channel_outcome channel_info self log :
  let o := process_channel_optimized env verification_prompt
             calculate_engagement_from_cached_videos follower_display
             channel_info self log in
  exists matched yt llm csv,
    out_res o = inr matched
    /\ same_pool self (out_st o)
    /\ out_log o = log ++ yt ++ llm ++ csv
    /\ forallb is_youtube_call yt = true /\ (length yt <= 2)%nat
    /\ forallb is_llm_call llm = true /\ (length llm <= 2)%nat
    /\ (csv = [] \/ exists row, csv = [CsvAppend row] /\ row_of channel_info row)
    /\ if (matched : bool)
       then (channel_id channel_info ∉ discovered_channels self)
            /\ discovered_channels (out_st o)
               = discovered_channels self ∪ {[channel_id channel_info]}
            /\ csv <> [] /\ llm <> [] /\ length yt = 2%nat
            /\ exists n,
                 api_calls_per_key self !! current_key_index self = Some n
                 /\ api_calls_per_key (out_st o)
                    = <[current_key_index self := n + 2]> (api_calls_per_key self)
       else discovered_channels (out_st o) = discovered_channels self
            /\ (csv = [] \/ raised (csv_write env (out_log o))).
Proof.
  cbv zeta. unfold process_channel_optimized.
  match goal with |- context [try_except ?m _ _ _] => set (body := m) end.
  assert (Hbody : exists yt llm csv,
    same_pool self (out_st (body self log))
    /\ out_log (body self log) = log ++ yt ++ llm ++ csv
    /\ forallb is_youtube_call yt = true /\ (length yt <= 2)%nat
    /\ forallb is_llm_call llm = true /\ (length llm <= 2)%nat
    /\ (csv = [] \/ exists row, csv = [CsvAppend row] /\ row_of channel_info row)
    /\ match out_res (body self log) with
       | inr true =>
           (channel_id channel_info ∉ discovered_channels self)
           /\ discovered_channels (out_st (body self log))
              = discovered_channels self ∪ {[channel_id channel_info]}
           /\ csv <> [] /\ llm <> [] /\ length yt = 2%nat
           /\ exists n,
                api_calls_per_key self !! current_key_index self = Some n
                /\ api_calls_per_key (out_st (body self log))
                   = <[current_key_index self := n + 2]> (api_calls_per_key self)
       | _ => discovered_channels (out_st (body self log)) = discovered_channels self
              /\ (csv = [] \/ raised (csv_write env (out_log (body self log))))
       end).
  { subst body. rewrite bind_get.
    destruct (bool_decide (channel_id channel_info ∈ discovered_channels self)) eqn:Hin.
    { exists [], [], []. rewrite app_nil_r. cbn.
      repeat split; try lia; left; reflexivity. }
    apply bool_decide_eq_false in Hin.
    destruct (fetch_outcome (channel_id channel_info) self log)
      as [(Hnone & [e He] & Hst & Hlog) | (a' & videos & yt & Hf & Hyt & Hlen & Hlen2)].
    { erewrite bind_raises
        by (rewrite (out_eta (on_analyzer _ _ _)), He, Hst, Hlog; reflexivity).
      exists [], [], []. rewrite app_nil_r. cbn.
      repeat split; try lia; left; reflexivity. }
    cbv zeta in Hf. erewrite bind_returns by exact Hf.
    set (self1 := set_current_analyzer (Some a') self).
    destruct videos as [|v vs].
    { exists yt, [], []. rewrite !app_nil_r. cbn.
      repeat split; try lia; try assumption; left; reflexivity. }
    specialize (Hlen2 ltac:(discriminate)).
    destruct (filter_min_views (v :: vs) self1 (log ++ yt)) as (Hs & Hl & _).
    cbv zeta in Hs, Hl.
    destruct (filter_m has_min_views (v :: vs) self1 (log ++ yt)) as [[e|kept] s' l'] eqn:Ef;
      cbn [out_st out_log] in Hs, Hl; subst s' l'.
    { erewrite bind_raises by exact Ef.
      exists yt, [], []. rewrite !app_nil_r. cbn.
      repeat split; try lia; try assumption; left; reflexivity. }
    erewrite bind_returns by exact Ef.
    destruct (bool_decide (length kept < min_videos_with_min_views)%nat).
    { exists yt, [], []. rewrite !app_nil_r. cbn.
      repeat split; try lia; try assumption; left; reflexivity. }
    pose proof (track_api_usage_unfold self1 (log ++ yt)) as Ht1.
    change (api_calls_per_key self1) with (api_calls_per_key self) in Ht1.
    change (current_key_index self1) with (current_key_index self) in Ht1.
    destruct (api_calls_per_key self !! current_key_index self) as [n|] eqn:Hn.
    2:{ erewrite bind_raises by exact Ht1.
        exists yt, [], []. rewrite !app_nil_r. cbn.
        repeat split; try lia; try assumption; left; reflexivity. }
    erewrite bind_returns by exact Ht1.
    set (self2 := set_api_calls_per_key _ self1).
    pose proof (track_api_usage_unfold self2 (log ++ yt)) as Ht2.
    change (api_calls_per_key self2)
      with (<[current_key_index self := n + 1]> (api_calls_per_key self)) in Ht2.
    change (current_key_index self2) with (current_key_index self) in Ht2.
    rewrite lookup_insert_eq in Ht2.
    erewrite bind_returns by exact Ht2.
    set (self3 := set_api_calls_per_key _ self2).
    rewrite bind_get.
    destruct (verify_niche_outcome channel_info (v :: vs) (ai_analyzer self3) self3 (log ++ yt))
      as (verdict & llm & Hv & Hllm & Hlenllm & Hcall).
    erewrite bind_returns by exact Hv.
    destruct verdict as [[is_match explanation] category].
    destruct is_match; cbn [negb].
    2:{ exists yt, llm, []. rewrite !app_nil_r, <- app_assoc. cbn.
        repeat split; try lia; try assumption; left; reflexivity. }
    specialize (Hcall eq_refl).
    unfold save_to_csv. rewrite bind_external.
    match goal with
    | |- context [CsvAppend ?r] => set (row := r)
    end.
    assert (Hrow : row_of channel_info row) by (repeat split).
    destruct (csv_write env _) as [e|[]] eqn:Hw; cbn [out_res out_st out_log].
    { exists yt, llm, [CsvAppend row]. rewrite <- !app_assoc. cbn.
      repeat split; try lia; try assumption.
      - right; exists row; split; [reflexivity|exact Hrow].
      - right. exists e. rewrite <- Hw. f_equal. rewrite <- !app_assoc. reflexivity. }
    unfold mbind, mret, Py_bind, Py_ret, bind, ret, modify.
    cbn [out_res out_st out_log].
    exists yt, llm, [CsvAppend row]. rewrite <- !app_assoc.
    split; [repeat split|]. split; [reflexivity|].
    split; [exact Hyt|]. split; [exact Hlen|]. split; [exact Hllm|]. split; [exact Hlenllm|].
    split; [right; exists row; split; [reflexivity|exact Hrow]|].
    split; [exact Hin|]. split; [reflexivity|]. split; [discriminate|].
    split; [exact Hcall|]. split; [exact Hlen2|].
    exists n. split; [reflexivity|].
    subst self3 self2 self1. cbn [api_calls_per_key set_api_calls_per_key
                                  set_current_analyzer set_discovered_channels].
    rewrite insert_insert_eq. f_equal. lia. }
  destruct Hbody as (yt & llm & csv & Hpool & Hlog & Hyt & Hlen & Hllm & Hlenllm & Hcsv & Hcase).
  unfold try_except.
  destruct (out_res (body self log)) as [e|matched] eqn:E.
  - exists false, yt, llm, csv. cbn [mret Py_ret ret out_res out_st out_log].
    split; [reflexivity|]. split; [exact Hpool|]. split; [exact Hlog|].
    split; [exact Hyt|]. split; [exact Hlen|]. split; [exact Hllm|]. split; [exact Hlenllm|].
    split; [exact Hcsv|]. exact Hcase.
  - rewrite E. exists matched, yt, llm, csv.
    split; [reflexivity|]. split; [exact Hpool|]. split; [exact Hlog|].
    split; [exact Hyt|]. split; [exact Hlen|]. split; [exact Hllm|]. split; [exact Hlenllm|].
    split; [exact Hcsv|]. destruct matched; exact Hcase.
Qed.

Lemma filter_all (P : Event -> bool) calls :
  forallb P calls = true -> filter P calls = calls.
Proof.
  induction calls as [|ev calls IH]; [reflexivity|].
  cbn [forallb]. intros H. apply andb_true_iff in H as [Hev Hrest].
  rewrite filter_cons, decide_True by (rewrite Hev; exact I).
  rewrite IH by exact Hrest. reflexivity.
Qed.

(* counting the calls of a log that grew by YouTube calls, then LLM calls,
   then at most one CSV row *)
Lemma log_parts_counts log yt llm csv :
  forallb is_youtube_call yt = true ->
  forallb is_llm_call llm = true ->
  (csv = [] \/ exists row, csv = [CsvAppend row]) ->
  youtube_calls (log ++ yt ++ llm ++ csv) = (youtube_calls log + length yt)%nat
  /\ llm_calls (log ++ yt ++ llm ++ csv) = (llm_calls log + length llm)%nat
  /\ csv_rows (log ++ yt ++ llm ++ csv) = (csv_rows log + length csv)%nat.
Proof.
  intros Hyt Hllm Hcsv. unfold youtube_calls, llm_calls, csv_rows.
  assert (Hrows : forallb is_csv_row csv = true)
    by (destruct Hcsv as [-> | [row ->]]; reflexivity).
  rewrite !filter_length_app.
  rewrite (filter_all is_youtube_call yt Hyt), (filter_all is_llm_call llm Hllm),
          (filter_all is_csv_row csv Hrows).
  rewrite (filter_none is_youtube_call is_llm_call yt),
          (filter_none is_youtube_call is_csv_row yt),
          (filter_none is_llm_call is_youtube_call llm),
          (filter_none is_llm_call is_csv_row llm),
          (filter_none is_csv_row is_youtube_call csv),
          (filter_none is_csv_row is_llm_call csv);
    try assumption; try (intros []; cbn; congruence).
  cbn [length]. split; [lia|]. split; lia.
Qed.

(** X10: when process_channel_optimized returns True, the candidate was
    not yet accepted in this run and is now: its channel id has been added
    to discovered_channels, the last call of the log is the one CSV row
    written for it (with its title and handle, platform YT, status Found),
    the call cost exactly two YouTube requests and one or two LLM
    requests, and the usage counter of the key in use went up by two. *)
Theorem match_is_recorded_once channel_info self log :
  let o := process_channel_optimized env verification_prompt
             calculate_engagement_from_cached_videos follower_display
             channel_info self log in
  out_res o = inr true ->
  (channel_id channel_info ∉ discovered_channels self)
  /\ discovered_channels (out_st o) = discovered_channels self ∪ {[channel_id channel_info]}
  /\ (exists row, last (out_log o) = Some (CsvAppend row) /\ row_of channel_info row)
  /\ csv_rows (out_log o) = S (csv_rows log)
  /\ youtube_calls (out_log o) = (youtube_calls log + 2)%nat
  /\ (llm_calls log < llm_calls (out_log o) <= llm_calls log + 2)%nat
  /\ exists n,
       api_calls_per_key self !! current_key_index self = Some n
       /\ api_calls_per_key (out_st o)
          = <[current_key_index self := n + 2]> (api_calls_per_key self).
Proof.
  cbv zeta. intros Htrue.
  destruct (process_channel_outcome channel_info self log)
    as (matched & yt & llm & csv & Hres & _ & Hlog & Hyt & Hlen & Hllm & Hlenllm & Hcsv & Hcase).
  cbv zeta in *. rewrite Htrue in Hres. injection Hres as <-.
  destruct Hcase as (Hnew & Hadd & Hcsv1 & Hllm1 & Hyt2 & Hcount).
  destruct Hcsv as [-> | (row & -> & Hrow)]; [congruence|].
  destruct (log_parts_counts log yt llm [CsvAppend row] Hyt Hllm) as (Cy & Cl & Cc);
    [right; eexists; reflexivity|].
  rewrite Hlog, Cy, Cl, Cc.
  split; [exact Hnew|]. split; [exact Hadd|].
  split.
  { exists row. split; [|exact Hrow]. rewrite !app_assoc. apply last_snoc. }
  split; [cbn; lia|]. split; [lia|].
  split; [|exact Hcount].
  destruct llm; [congruence|]. cbn [length] in *. lia.
Qed.

(** X11: process_channel_optimized never raises, whatever YouTube, the LLM
    providers and the CSV file do.  One call of it makes at most two
    YouTube requests, at most two LLM requests and writes at most one row;
    it leaves the key list, the key index, the AI clients, the subscriber
    range and the loaded registry as they were; when it returns False the
    set of accepted channels is unchanged. *)
Theorem process_channel_never_raises channel_info self log :
  let o := process_channel_optimized env verification_prompt
             calculate_engagement_from_cached_videos follower_display
             channel_info self log in
  exists matched calls,
    out_res o = inr matched
    /\ same_pool self (out_st o)
    /\ out_log o = log ++ calls
    /\ (youtube_calls (out_log o) <= youtube_calls log + 2)%nat
    /\ (llm_calls (out_log o) <= llm_calls log + 2)%nat
    /\ (csv_rows (out_log o) <= csv_rows log + 1)%nat
    /\ (matched = false -> discovered_channels (out_st o) = discovered_channels self).
Proof.
  cbv zeta.
  destruct (process_channel_outcome channel_info self log)
    as (matched & yt & llm & csv & Hres & Hpool & Hlog & Hyt & Hlen & Hllm & Hlenllm & Hcsv & Hcase).
  cbv zeta in *.
  destruct (log_parts_counts log yt llm csv Hyt Hllm) as (Cy & Cl & Cc).
  { destruct Hcsv as [-> | (row & -> & _)]; [left; reflexivity | right; eexists; reflexivity]. }
  exists matched, (yt ++ llm ++ csv). rewrite Hlog, Cy, Cl, Cc.
  split; [exact Hres|]. split; [exact Hpool|]. split; [reflexivity|].
  split; [lia|]. split; [lia|]. split.
  - destruct Hcsv as [-> | (row & -> & _)]; cbn; lia.
  - intros ->. apply Hcase.
Qed.

Lemma process_channel_known channel_info self log :
  channel_id channel_info ∈ discovered_channels self ->
  process_channel_optimized env verification_prompt
    calculate_engagement_from_cached_videos follower_display channel_info self log
  = mkOut (inr false) self log.
Proof.
  intros Hin. unfold process_channel_optimized.
  erewrite try_except_returned; [reflexivity|].
  rewrite bind_get. rewrite bool_decide_eq_true_2 by exact Hin. reflexivity.
Qed.

(** X12: once process_channel_optimized has returned True for a channel,
    every later call for a candidate with the same channel id returns
    False at once: no request is made, no row is written, the finder is
    left as it is. *)
Theorem matched_channel_is_not_processed_again channel_info self log other log' :
  let o := process_channel_optimized env verification_prompt
             calculate_engagement_from_cached_videos follower_display
             channel_info self log in
  out_res o = inr true ->
  channel_id other = channel_id channel_info ->
  process_channel_optimized env verification_prompt
    calculate_engagement_from_cached_videos follower_display other (out_st o) log'
  = mkOut (inr false) (out_st o) log'.
Proof.
  cbv zeta. intros Htrue Hid.
  destruct (process_channel_outcome channel_info self log)
    as (matched & yt & llm & csv & Hres & _ & _ & _ & _ & _ & _ & _ & Hcase).
  cbv zeta in *. rewrite Htrue in Hres. injection Hres as <-.
  destruct Hcase as (_ & Hadd & _).
  apply process_channel_known. rewrite Hadd, Hid.
  apply elem_of_union. right. apply elem_of_singleton. reflexivity.
Qed.

End Candidate.

(* --------------------------------------------------------------------- *)
(* A discovery run                                                        *)
(* --------------------------------------------------------------------- *)
Section Run.

Variable env : Env.
Variable verification_prompt : string -> string -> string.
Variable calculate_engagement_from_cached_videos : list VideoData -> string.
Variable follower_display : Z -> string.
Implicit Types (self : Finder) (log : list Event).

Lemma run_progress_refl self log m : run_progress env self log m self log m.
Proof.
  unfold run_progress. split; [lia|]. split; [reflexivity|].
  split; [lia|]. split; [lia|]. split; [intros _; lia|]. split; [reflexivity | lia].
Qed.

Lemma run_progress_trans self1 log1 m1 self2 log2 m2 self3 log3 m3 :
  run_progress env self1 log1 m1 self2 log2 m2 ->
  run_progress env self2 log2 m2 self3 log3 m3 ->
  run_progress env self1 log1 m1 self3 log3 m3.
Proof.
  intros (A1 & A2 & A3 & A4 & A5 & A6 & A7) (B1 & B2 & B3 & B4 & B5 & B6 & B7).
  unfold run_progress. split; [lia|]. split; [etrans; eassumption|].
  split; [lia|]. split; [lia|].
  split; [intros H; specialize (A5 H); specialize (B5 H); lia|].
  split; [congruence | lia].
Qed.

(* one candidate *)
Lemma process_channel_progress channel_info self log m :
  let o := process_channel_optimized env verification_prompt
             calculate_engagement_from_cached_videos follower_display
             channel_info self log in
  exists matched : bool,
    out_res o = inr matched
    /\ run_progress env self log m (out_st o) (out_log o) (if matched then m + 1 else m).
Proof.
  cbv zeta.
  destruct (process_channel_outcome env verification_prompt
              calculate_engagement_from_cached_videos follower_display channel_info self log)
    as (matched & yt & llm & csv & Hres & Hpool & Hlog & Hyt & Hlen & Hllm & Hlenllm & Hcsv & Hcase).
  cbv zeta in *.
  destruct (log_parts_counts log yt llm csv Hyt Hllm) as (_ & _ & Cc).
  { destruct Hcsv as [-> | (row & -> & _)]; [left; reflexivity | right; eexists; reflexivity]. }
  destruct Hpool as (Hkeys & Hidx & _).
  exists matched. split; [exact Hres|]. unfold run_progress.
  rewrite Hlog, Cc, Hkeys, Hidx.
  destruct matched.
  - destruct Hcase as (Hnew & Hadd & Hcsv1 & _).
    destruct Hcsv as [-> | (row & -> & _)]; [congruence|]. cbn [length].
    rewrite Hadd. split; [lia|]. split; [apply union_subseteq_l|].
    split.
    { rewrite size_union by (apply disjoint_singleton_r; exact Hnew).
      rewrite size_singleton. lia. }
    split; [lia|]. split; [intros _; lia|]. split; [reflexivity | lia].
  - destruct Hcase as (Hsame & Hfail). rewrite Hsame.
    split; [lia|]. split; [reflexivity|]. split; [lia|]. split; [lia|].
    split; [|split; [reflexivity | lia]].
    intros Hok. destruct Hfail as [-> | [e He]]; [cbn; lia|].
    rewrite Hok in He. discriminate.
Qed.

(* the inner loop over the channels of one keyword *)
Lemma channels_loop_facts target max_channels channels : forall m p k self log,
  let o := channels_loop env verification_prompt calculate_engagement_from_cached_videos
             follower_display target max_channels channels (m, p, k) self log in
  exists m' p' k',
    out_res o = inr (m', p', k')
    /\ run_progress env self log m (out_st o) (out_log o) m'
    /\ m' <= Z.max m target
    /\ p <= p' /\ m' - m <= p' - p /\ p' - p <= Z.of_nat (length channels).
Proof.
  induction channels as [|channel_info rest IH]; intros m p k self log; cbv zeta;
    cbn [channels_loop].
  { exists m, p, k. split; [reflexivity|]. split; [apply run_progress_refl|].
    cbn [length]. lia. }
  destruct (Z.leb_spec target m) as [Ht|Ht].
  { exists m, p, k. split; [reflexivity|]. split; [apply run_progress_refl|].
    cbn [length]. lia. }
  destruct (max_channels <=? k).
  { exists m, p, k. split; [reflexivity|]. split; [apply run_progress_refl|].
    cbn [length]. lia. }
  destruct (process_channel_progress channel_info self log m) as (matched & Hres & Hprog).
  cbv zeta in Hres, Hprog.
  destruct (process_channel_optimized _ _ _ _ channel_info self log) as [res self1 log1] eqn:Hp.
  cbn [out_res out_st out_log] in Hres, Hprog. subst res.
  erewrite bind_returns by exact Hp.
  destruct (IH (if matched then m + 1 else m) (p + 1) (k + 1) self1 log1)
    as (m' & p' & k' & Hres' & Hprog' & Hm & Hp1 & Hp2 & Hp3).
  cbv zeta in Hres', Hprog'.
  exists m', p', k'. split; [exact Hres'|].
  split; [exact (run_progress_trans _ _ _ _ _ _ _ _ _ Hprog Hprog')|].
  cbn [length]. destruct matched; lia.
Qed.

(* a keyword search within a run *)
Lemma search_progress keyword max_results self log m :
  let o := search_channels_by_keyword env keyword max_results self log in
  run_progress env self log m (out_st o) (out_log o) m
  /\ (forall e, out_res o = inl e -> e = QuotaExceededError "All API keys exhausted").
Proof.
  cbv zeta.
  destruct (search_channels_by_keyword_facts env keyword max_results self log)
    as ((_ & _ & Hd) & _).
  pose proof (search_channels_by_keyword_log env keyword max_results self log) as Hlog.
  apply adds_only_youtube_counts in Hlog as [Hcsv _].
  assert (Hkeys : api_keys (out_st (search_channels_by_keyword env keyword max_results self log))
                  = api_keys self
                  /\ (current_key_index self
                      <= current_key_index
                           (out_st (search_channels_by_keyword env keyword max_results self log)))%nat
                  /\ forall e, out_res (search_channels_by_keyword env keyword max_results self log)
                               = inl e ->
                       e = QuotaExceededError "All API keys exhausted").
  { unfold search_channels_by_keyword. rewrite bind_get.
    destruct (search_channels_by_keyword_rec_keys env (length (api_keys self))
                keyword max_results self log) as (Hk & Hi & He & _).
    split; [exact Hk|]. split; [exact Hi|].
    intros e Hres. destruct (He e Hres) as [[H _] | [_ Hlt]]; [exact H | lia]. }
  destruct Hkeys as (Hk & Hi & He).
  split; [|exact He]. unfold run_progress. rewrite Hd, Hcsv, Hk.
  split; [lia|]. split; [reflexivity|]. split; [lia|]. split; [lia|].
  split; [intros _; lia|]. split; [reflexivity | exact Hi].
Qed.

(* the loop over the keywords *)
Lemma keywords_loop_facts target max_channels keywords : forall m p self log,
  let o := keywords_loop env verification_prompt calculate_engagement_from_cached_videos
             follower_display target max_channels keywords (m, p) self log in
  exists m' p',
    out_res o = inr (m', p')
    /\ run_progress env self log m (out_st o) (out_log o) m'
    /\ m' <= Z.max m target.
Proof.
  induction keywords as [|keyword rest IH]; intros m p self log; cbv zeta;
    cbn [keywords_loop].
  { exists m, p. split; [reflexivity|]. split; [apply run_progress_refl | lia]. }
  destruct (Z.leb_spec target m) as [Ht|Ht].
  { exists m, p. split; [reflexivity|]. split; [apply run_progress_refl | lia]. }
  destruct (search_progress keyword 50 self log m) as (Hprog & Hexc). cbv zeta in Hprog, Hexc.
  destruct (search_channels_by_keyword env keyword 50 self log) as [[e|channels] self1 log1] eqn:Hs;
    cbn [out_res out_st out_log] in Hprog, Hexc.
  - rewrite (Hexc e eq_refl) in Hs.
    erewrite bind_returns
      by (erewrite try_except_raised by (erewrite bind_raises by exact Hs; reflexivity);
          reflexivity).
    exists m, p. split; [reflexivity|]. split; [exact Hprog | lia].
  - erewrite bind_returns
      by (erewrite try_except_returned by (erewrite bind_returns by exact Hs; reflexivity);
          reflexivity).
    destruct (channels_loop_facts target max_channels channels m p 0 self1 log1)
      as (m1 & p1 & k1 & Hres1 & Hprog1 & Hm1 & _).
    cbv zeta in Hres1, Hprog1.
    destruct (channels_loop _ _ _ _ target max_channels channels (m, p, 0) self1 log1)
      as [res self2 log2] eqn:Hc.
    cbn [out_res out_st out_log] in Hres1, Hprog1. subst res.
    erewrite bind_returns by exact Hc. cbn [fst snd].
    destruct (IH m1 p1 self2 log2) as (m' & p' & Hres' & Hprog' & Hm').
    cbv zeta in Hres', Hprog'.
    exists m', p'. split; [exact Hres'|].
    split; [|lia].
    exact (run_progress_trans _ _ _ _ _ _ _ _ _ Hprog
             (run_progress_trans _ _ _ _ _ _ _ _ _ Hprog1 Hprog')).
Qed.

Lemma keywords_loop_reached target max_channels keywords m p self log :
  target <= m ->
  keywords_loop env verification_prompt calculate_engagement_from_cached_videos
    follower_display target max_channels keywords (m, p) self log
  = mkOut (inr (m, p)) self log.
Proof.
  intros H. destruct keywords as [|keyword rest]; cbn [keywords_loop]; [reflexivity|].
  destruct (Z.leb_spec target m); [reflexivity | lia].
Qed.

(** X13: for a positive target, run_optimized_discovery returns a number
    of matches between 0 and the target and lets no exception out, not
    even when every API key is exhausted.  The number returned is the
    number of channel ids the run added to discovered_channels; the run
    appended at least that many rows to the CSV file, and exactly that
    many when writing the file never fails.  The key list is unchanged
    and the key index only moved forward. *)
Theorem run_returns_number_of_new_channels keywords target max_channels self log :
  0 < target ->
  let o := run_optimized_discovery env verification_prompt
             calculate_engagement_from_cached_videos follower_display
             keywords target max_channels self log in
  exists matches_found,
    out_res o = inr matches_found
    /\ 0 <= matches_found <= target
    /\ discovered_channels self ⊆ discovered_channels (out_st o)
    /\ Z.of_nat (size (discovered_channels (out_st o)))
       = Z.of_nat (size (discovered_channels self)) + matches_found
    /\ Z.of_nat (csv_rows log) + matches_found <= Z.of_nat (csv_rows (out_log o))
    /\ ((forall history, csv_write env history = inr tt) ->
        Z.of_nat (csv_rows (out_log o)) = Z.of_nat (csv_rows log) + matches_found)
    /\ api_keys (out_st o) = api_keys self
    /\ (current_key_index self <= current_key_index (out_st o))%nat.
Proof.
  intros Hpos. cbv zeta. unfold run_optimized_discovery.
  destruct (keywords_loop_facts target max_channels keywords 0 0 self log)
    as (m' & p' & Hres & Hprog & Hm).
  cbv zeta in Hres, Hprog.
  destruct (keywords_loop _ _ _ _ target max_channels keywords (0, 0) self log)
    as [res self1 log1] eqn:Hk.
  cbn [out_res out_st out_log] in Hres, Hprog. subst res.
  erewrite bind_returns by exact Hk. cbn [fst snd].
  destruct (Z.eqb_spec target 0) as [->|_]; [lia|].
  unfold mret, Py_ret, ret. cbn [out_res out_st out_log].
  destruct Hprog as (P1 & P2 & P3 & P4 & P5 & P6 & P7).
  exists m'. split; [reflexivity|]. split; [lia|]. split; [exact P2|].
  split; [lia|]. split; [lia|].
  split; [intros H; specialize (P5 H); lia|]. split; [exact P6 | exact P7].
Qed.

(** X14: with a target that is not positive, run_optimized_discovery
    searches nothing: no request is made and the finder is unchanged.  A
    negative target returns 0; the target 0 makes the closing log line
    divide by zero, and the method raises. *)
Theorem run_with_nonpositive_target_makes_no_call keywords target max_channels self log :
  target <= 0 ->
  let o := run_optimized_discovery env verification_prompt
             calculate_engagement_from_cached_videos follower_display
             keywords target max_channels self log in
  out_st o = self /\ out_log o = log
  /\ (target < 0 -> out_res o = inr 0)
  /\ (target = 0 -> out_res o = inl (OtherException "division by zero")).
Proof.
  intros Hle. cbv zeta. unfold run_optimized_discovery.
  erewrite bind_returns by (apply keywords_loop_reached; exact Hle).
  cbn [fst snd].
  destruct (Z.eqb_spec target 0) as [->|Hne]; cbn [out_res out_st out_log].
  - split; [reflexivity|]. split; [reflexivity|]. split; [lia | reflexivity].
  - split; [reflexivity|]. split; [reflexivity|]. split; [reflexivity | intros; lia].
Qed.

End Run.

(* --------------------------------------------------------------------- *)
(* The properties above on the sample world                               *)
(* --------------------------------------------------------------------- *)

Lemma verify_niche_without_classifier_witness :
  verify_niche_from_cached_videos env_down sample_template sample_channel [] both_clients tt []
  = mkOut (inr (false, "Could not fetch videos", "")) tt [].
Proof.
  exact (proj1 (verify_niche_without_classifier env_down sample_template sample_channel []
                  both_clients tt []) eq_refl).
Defined.

Lemma get_channel_details_admits_witness :
  out_res (get_channel_details env_match "UCexisting0000000000000a" pool3 [])
  = inr (Some sample_channel)
  /\ channel_id sample_channel = "UCexisting0000000000000a"
  /\ min_subscribers pool3 <= subscriber_count sample_channel <= max_subscribers pool3.
Proof.
  assert (H : out_res (get_channel_details env_match "UCexisting0000000000000a" pool3 [])
              = inr (Some sample_channel)) by (vm_compute; reflexivity).
  split; [exact H|].
  destruct (get_channel_details_admits env_match "UCexisting0000000000000a" pool3 []
              sample_channel H) as (Hid & Hrange & _).
  split; [exact Hid | exact Hrange].
Defined.

Lemma search_results_distinct_and_admitted_witness :
  out_res (search_channels_by_keyword env_match "dating advice" 50 pool3 [])
  = inr [sample_channel]
  /\ NoDup (channel_id <$> [sample_channel])
  /\ Forall (fun info => (channel_id info ∉ discovered_channels pool3)
                         /\ admitted pool3 info) [sample_channel].
Proof.
  assert (H : out_res (search_channels_by_keyword env_match "dating advice" 50 pool3 [])
              = inr [sample_channel]) by (vm_compute; reflexivity).
  split; [exact H|].
  exact (search_results_distinct_and_admitted env_match "dating advice" 50 pool3 []
           [sample_channel] H).
Defined.

Lemma search_raises_only_when_keys_exhausted_witness :
  out_res (search_channels_by_keyword env_quota "dating advice" 50 pool1 [])
  = inl (QuotaExceededError "All API keys exhausted")
  /\ (length (api_keys pool1)
      <= current_key_index
           (out_st (search_channels_by_keyword env_quota "dating advice" 50 pool1 [])))%nat.
Proof.
  assert (H : out_res (search_channels_by_keyword env_quota "dating advice" 50 pool1 [])
              = inl (QuotaExceededError "All API keys exhausted")) by (vm_compute; reflexivity).
  split; [exact H|].
  destruct (search_raises_only_when_keys_exhausted env_quota "dating advice" 50 pool1 [])
    as (_ & _ & He & _).
  exact (proj2 (He _ H)).
Defined.

Lemma pool3_well_formed : well_formed pool3.
Proof.
  split.
  - exists (new_Analyzer "key-a"). split; reflexivity.
  - intros i Hi. destruct i as [|[|[|i]]]; try (vm_compute; eexists; reflexivity).
    cbn in Hi. lia.
Qed.

Lemma quota_error_retries_with_next_key_witness :
  well_formed pool3
  /\ is_quota_error 403 quota_text = true
  /\ exists rest,
       out_log (search_channels_by_keyword env_quota "dating advice" 50 pool3 [])
       = [] ++ [YtSearchKeyword "key-a" "dating advice" 50;
                YtSearchKeyword "key-b" "dating advice" 50] ++ rest
       /\ forallb is_youtube_call rest = true
       /\ (1 <= current_key_index
                  (out_st (search_channels_by_keyword env_quota "dating advice" 50 pool3 [])))%nat.
Proof.
  assert (Hq : is_quota_error 403 quota_text = true) by (vm_compute; reflexivity).
  split; [exact pool3_well_formed|]. split; [exact Hq|].
  exact (quota_error_retries_with_next_key env_quota "dating advice" 50 pool3 []
           (new_Analyzer "key-a") "key-b" quota_text
           pool3_well_formed eq_refl eq_refl eq_refl Hq).
Defined.

Lemma match_is_recorded_once_witness :
  out_res (process_channel_optimized env_match sample_template sample_engagement
             sample_follower_display sample_channel pool3 []) = inr true
  /\ csv_rows (out_log (process_channel_optimized env_match sample_template sample_engagement
                          sample_follower_display sample_channel pool3 [])) = 1%nat
  /\ youtube_calls (out_log (process_channel_optimized env_match sample_template
                               sample_engagement sample_follower_display sample_channel
                               pool3 [])) = 2%nat.
Proof.
  assert (H : out_res (process_channel_optimized env_match sample_template sample_engagement
                         sample_follower_display sample_channel pool3 []) = inr true)
    by (vm_compute; reflexivity).
  split; [exact H|].
  destruct (match_is_recorded_once env_match sample_template sample_engagement
              sample_follower_display sample_channel pool3 [] H)
    as (_ & _ & _ & Hrows & Hyt & _).
  split; [exact Hrows | exact Hyt].
Defined.

Lemma process_channel_never_raises_witness :
  exists matched calls,
    out_res (process_channel_optimized env_quota sample_template sample_engagement
               sample_follower_display sample_channel pool3 []) = inr matched
    /\ same_pool pool3
         (out_st (process_channel_optimized env_quota sample_template sample_engagement
                    sample_follower_display sample_channel pool3 []))
    /\ out_log (process_channel_optimized env_quota sample_template sample_engagement
                  sample_follower_display sample_channel pool3 []) = [] ++ calls.
Proof.
  destruct (process_channel_never_raises env_quota sample_template sample_engagement
              sample_follower_display sample_channel pool3 [])
    as (matched & calls & Hres & Hpool & Hlog & _).
  exists matched, calls. split; [exact Hres|]. split; [exact Hpool | exact Hlog].
Defined.

Lemma matched_channel_is_not_processed_again_witness :
  let o := process_channel_optimized env_match sample_template sample_engagement
             sample_follower_display sample_channel pool3 [] in
  out_res o = inr true
  /\ process_channel_optimized env_match sample_template sample_engagement
       sample_follower_display sample_channel (out_st o) (out_log o)
     = mkOut (inr false) (out_st o) (out_log o).
Proof.
  cbv zeta.
  assert (H : out_res (process_channel_optimized env_match sample_template sample_engagement
                         sample_follower_display sample_channel pool3 []) = inr true)
    by (vm_compute; reflexivity).
  split; [exact H|].
  exact (matched_channel_is_not_processed_again env_match sample_template sample_engagement
           sample_follower_display sample_channel pool3 [] sample_channel _ H eq_refl).
Defined.

Lemma run_returns_number_of_new_channels_witness :
  0 < 1
  /\ exists matches_found,
       out_res (run_optimized_discovery env_match sample_template sample_engagement
                  sample_follower_display ["dating advice"] 1 50 pool3 [])
       = inr matches_found
       /\ 0 <= matches_found <= 1.
Proof.
  assert (H : 0 < 1) by lia. split; [exact H|].
  destruct (run_returns_number_of_new_channels env_match sample_template sample_engagement
              sample_follower_display ["dating advice"] 1 50 pool3 [] H)
    as (m & Hres & Hm & _).
  exists m. split; [exact Hres | exact Hm].
Defined.

Example run_finds_the_sample_channel :
  let o := run_optimized_discovery env_match sample_template sample_engagement
             sample_follower_display ["dating advice"; "texting game"] 5 50 pool3 [] in
  out_res o = inr 1
  /\ discovered_channels (out_st o) = {["UCexisting0000000000000a"]}
  /\ csv_rows (out_log o) = 1%nat.
Proof. vm_compute. repeat split; reflexivity. Qed.

Lemma run_with_nonpositive_target_makes_no_call_witness :
  0 <= 0
  /\ run_optimized_discovery env_match sample_template sample_engagement
       sample_follower_display ["dating advice"] 0 50 pool3 []
     = mkOut (inl (OtherException "division by zero")) pool3 [].
Proof.
  assert (H : 0 <= 0) by lia. split; [exact H|].
  destruct (run_with_nonpositive_target_makes_no_call env_match sample_template
              sample_engagement sample_follower_display ["dating advice"] 0 50 pool3 [] H)
    as (Hst & Hlog & _ & Hres).
  rewrite (out_eta (run_optimized_discovery _ _ _ _ _ _ _ _ _)), Hst, Hlog, (Hres eq_refl).
  reflexivity.
Defined.

(* --------------------------------------------------------------------- *)
(* The transcription server over any sequence of events                   *)
(* --------------------------------------------------------------------- *)
Section ServerRuns.

Import Whisper.
Variable transcriber : string -> Z -> Exc + option string.
Implicit Types (self : WhisperAPIServer) (d : dict TranscriptionResult).

Lemma dict_mem_elem {V} (k : string) (d : dict V) :
  dict_mem k d = true <-> k ∈ dict_keys d.
Proof.
  unfold dict_mem, dict_keys. induction d as [|[k' v] d IH]; cbn [existsb fmap list_fmap fst].
  - split; [discriminate|]. intros H. apply elem_of_nil in H. destruct H.
  - rewrite orb_true_iff, IH, elem_of_cons.
    destruct (String.eqb_spec k' k) as [->|Hne]; split; auto.
    + intros [H|H]; [discriminate | auto].
    + intros [H|H]; [congruence | auto].
Qed.

Lemma dict_mem_false {V} (k : string) (d : dict V) :
  dict_mem k d = false <-> k ∉ dict_keys d.
Proof.
  rewrite <- dict_mem_elem. destruct (dict_mem k d); split; congruence.
Qed.

Lemma dict_mem_set {V} (k k' : string) (v : V) (d : dict V) :
  dict_mem k (dict_set k' v d) = dict_mem k d || String.eqb k' k.
Proof.
  unfold dict_mem. induction d as [|[k0 v0] d IH]; cbn [dict_set existsb fst].
  - rewrite orb_false_r. reflexivity.
  - destruct (String.eqb_spec k0 k') as [->|Hne]; cbn [existsb fst].
    + destruct (String.eqb k' k); cbn; [reflexivity|]. rewrite orb_false_r. reflexivity.
    + rewrite IH. rewrite orb_assoc. reflexivity.
Qed.

Lemma dict_get_set {V} (k : string) (v : V) (d : dict V) :
  dict_get k (dict_set k v d) = Some v.
Proof.
  induction d as [|[k0 v0] d IH]; cbn [dict_set dict_get].
  - rewrite String.eqb_refl. reflexivity.
  - destruct (String.eqb_spec k0 k) as [->|Hne]; cbn [dict_get].
    + rewrite String.eqb_refl. reflexivity.
    + destruct (String.eqb_spec k0 k); [congruence | exact IH].
Qed.

Lemma dict_set_keys {V} (k : string) (v : V) (d : dict V) :
  dict_keys (dict_set k v d) = if dict_mem k d then dict_keys d else dict_keys d ++ [k].
Proof.
  unfold dict_keys, dict_mem. induction d as [|[k0 v0] d IH]; cbn [dict_set existsb fst];
    [reflexivity|].
  destruct (String.eqb_spec k0 k) as [->|Hne]; cbn [orb fmap list_fmap fst]; [reflexivity|].
  fold (@fmap list _ _ _ (@fst string V)). rewrite IH.
  destruct (existsb _ d); reflexivity.
Qed.

Lemma dict_keys_length {V} (d : dict V) : length (dict_keys d) = length d.
Proof. unfold dict_keys. apply length_fmap. Qed.

Lemma dict_set_length {V} (k : string) (v : V) (d : dict V) :
  length (dict_set k v d) = if dict_mem k d then length d else S (length d).
Proof.
  rewrite <- !dict_keys_length, dict_set_keys.
  destruct (dict_mem k d); [reflexivity|]. rewrite length_app. cbn. lia.
Qed.

Lemma dict_set_length_le {V} (k : string) (v : V) (d : dict V) :
  (length (dict_set k v d) <= S (length d))%nat.
Proof. rewrite dict_set_length. destruct (dict_mem k d); lia. Qed.

Lemma dict_set_NoDup {V} (k : string) (v : V) (d : dict V) :
  NoDup (dict_keys d) -> NoDup (dict_keys (dict_set k v d)).
Proof.
  intros H. rewrite dict_set_keys. destruct (dict_mem k d) eqn:E; [exact H|].
  apply dict_mem_false in E. apply NoDup_app. split; [exact H|].
  split; [|apply NoDup_singleton].
  intros x Hx Hx'. apply list_elem_of_singleton in Hx'. subst x. contradiction.
Qed.

Lemma dict_del_keys {V} (k : string) (d : dict V) :
  dict_keys (dict_del k d) = List.filter (fun k' => negb (String.eqb k' k)) (dict_keys d).
Proof.
  unfold dict_keys, dict_del. induction d as [|[k0 v0] d IH]; [reflexivity|].
  cbn [List.filter fmap list_fmap fst].
  fold (@fmap list _ _ _ (@fst string V)).
  destruct (String.eqb k0 k); cbn [negb fmap list_fmap fst];
    fold (@fmap list _ _ _ (@fst string V)); rewrite IH; reflexivity.
Qed.

Lemma list_filter_elem (f : string -> bool) (l : list string) (x : string) :
  x ∈ List.filter f l <-> x ∈ l /\ f x = true.
Proof. rewrite !list_elem_of_In. apply filter_In. Qed.

Lemma dict_del_NoDup {V} (k : string) (d : dict V) :
  NoDup (dict_keys d) -> NoDup (dict_keys (dict_del k d)).
Proof.
  intros H. rewrite dict_del_keys. apply NoDup_ListNoDup, List.NoDup_filter, NoDup_ListNoDup.
  exact H.
Qed.

Lemma dict_del_elem {V} (k k' : string) (d : dict V) :
  k' ∈ dict_keys (dict_del k d) <-> k' ∈ dict_keys d /\ k' <> k.
Proof.
  rewrite dict_del_keys, list_filter_elem, negb_true_iff.
  destruct (String.eqb_spec k' k); split; intros [H1 H2]; split; congruence.
Qed.

Lemma dict_del_length {V} (k : string) (d : dict V) :
  NoDup (dict_keys d) -> k ∈ dict_keys d -> S (length (dict_del k d)) = length d.
Proof.
  unfold dict_keys, dict_del. induction d as [|[k0 v0] d IH]; cbn [fmap list_fmap fst];
    fold (@fmap list _ _ _ (@fst string V)).
  - intros _ H. apply elem_of_nil in H. destruct H.
  - intros Hnd Hin. apply NoDup_cons in Hnd as [Hk0 Hnd].
    cbn [List.filter fst]. destruct (String.eqb_spec k0 k) as [->|Hne]; cbn [negb length].
    + f_equal. clear IH Hin Hnd. induction d as [|[k1 v1] d IH]; [reflexivity|].
      cbn [fmap list_fmap fst] in Hk0. fold (@fmap list _ _ _ (@fst string V)) in Hk0.
      apply not_elem_of_cons in Hk0 as [Hne Hk0].
      cbn [List.filter fst]. destruct (String.eqb_spec k1 k); [congruence|].
      cbn [negb length]. f_equal. apply IH. exact Hk0.
    + f_equal. apply IH; [exact Hnd|].
      apply elem_of_cons in Hin as [Hin|Hin]; [congruence | exact Hin].
Qed.

Lemma dict_del_all_length (keys : list string) : forall d,
  NoDup keys -> (forall k, k ∈ keys -> k ∈ dict_keys d) -> NoDup (dict_keys d) ->
  (length (foldl (fun d key => dict_del key d) d keys) + length keys = length d)%nat
  /\ NoDup (dict_keys (foldl (fun d key => dict_del key d) d keys)).
Proof.
  induction keys as [|key keys IH]; intros d Hnd Hin Hd; cbn [foldl length].
  - split; [lia | exact Hd].
  - apply NoDup_cons in Hnd as [Hkey Hnd].
    destruct (IH (dict_del key d) Hnd) as [Hlen Hnd'].
    + intros k Hk. apply dict_del_elem. split.
      * apply Hin. apply elem_of_cons. right. exact Hk.
      * intros ->. contradiction.
    + apply dict_del_NoDup. exact Hd.
    + split; [|exact Hnd'].
      pose proof (dict_del_length key d Hd) as Hone.
      rewrite <- Hone by (apply Hin; apply elem_of_cons; left; reflexivity). lia.
Qed.

Lemma insert_sorted_perm (x : string) (l : list string) : PyStr.insert_sorted x l ≡ₚ x :: l.
Proof.
  induction l as [|y l IH]; cbn [PyStr.insert_sorted]; [reflexivity|].
  destruct (PyStr.leb x y); [reflexivity|]. rewrite IH. apply Permutation_swap.
Qed.

Lemma sorted_perm (l : list string) : PyStr.sorted l ≡ₚ l.
Proof.
  unfold PyStr.sorted. induction l as [|x l IH]; cbn [foldr]; [reflexivity|].
  rewrite insert_sorted_perm, IH. reflexivity.
Qed.

Lemma clean_up_small d : (length d <= 100)%nat -> clean_up_old_results d = d.
Proof.
  intros H. unfold clean_up_old_results. rewrite bool_decide_eq_false_2 by lia. reflexivity.
Qed.

(* The clean-up of a store of more than 100 results removes exactly 50. *)
Lemma clean_up_large d :
  NoDup (dict_keys d) -> (100 < length d)%nat ->
  (length (clean_up_old_results d) + 50 = length d)%nat
  /\ NoDup (dict_keys (clean_up_old_results d)).
Proof.
  intros Hnd Hlen. unfold clean_up_old_results. rewrite bool_decide_eq_true_2 by exact Hlen.
  assert (Hsorted : NoDup (PyStr.sorted (dict_keys d))) by (rewrite sorted_perm; exact Hnd).
  destruct (dict_del_all_length (take 50 (PyStr.sorted (dict_keys d))) d) as [H1 H2].
  - rewrite <- (take_drop 50 (PyStr.sorted (dict_keys d))) in Hsorted.
    apply NoDup_app in Hsorted as [H _]. exact H.
  - intros k Hk. apply elem_of_take in Hk as (i & Hk & _).
    apply list_elem_of_lookup_2 in Hk. rewrite sorted_perm in Hk. exact Hk.
  - exact Hnd.
  - split; [|exact H2].
    rewrite length_take in H1.
    assert (length (PyStr.sorted (dict_keys d)) = length d)
      by (rewrite sorted_perm; apply dict_keys_length).
    lia.
Qed.

Lemma clean_up_mem k d :
  dict_mem k (clean_up_old_results d) = true -> dict_mem k d = true.
Proof.
  unfold clean_up_old_results. destruct (bool_decide _); [|auto].
  rewrite dict_mem_del_all. intros H. apply andb_true_iff in H as [H _]. exact H.
Qed.

(* POST /transcribe, case by case *)
Lemma transcribe_video_unfold self video_id max_duration fresh_id now :
  transcribe_video self video_id max_duration fresh_id now
  = match video_id with
    | Some (String c r) =>
        if Z.of_nat (max_queue_size self) <=? qsize self
        then (self, jsonify_code [("error", JStr "Queue full, try again later")] 503)
        else
          (mkServer (max_queue_size self)
             (request_queue self
              ++ [mkRequest fresh_id (String c r) (default 120 max_duration) now])
             (results self)
             (mkStats (total_requests (processing_stats self) + 1)
                (completed (processing_stats self)) (failed (processing_stats self))
                (qsize self + 1)),
           jsonify [("request_id", JStr fresh_id); ("status", JStr "queued");
                    ("queue_position", JNum (qsize self + 1))])
    | _ => (self, jsonify_code [("error", JStr "video_id required")] 400)
    end.
Proof.
  unfold transcribe_video. destruct video_id as [[|c r]|]; try reflexivity.
  cbn [PyStr.truthy negb]. destruct (_ <=? _); [reflexivity|].
  unfold qsize, set_stats, set_queue, incr_total, set_queue_size.
  cbn [request_queue processing_stats max_queue_size results total_requests completed failed].
  rewrite length_app, Nat2Z.inj_add. reflexivity.
Qed.


(* one worker turn on a queue that is not empty *)
Lemma work_step_facts elapsed self req rest :
  request_queue self = req :: rest ->
  let self' := _process_queue_step transcriber elapsed self in
  request_queue self' = rest
  /\ max_queue_size self' = max_queue_size self
  /\ match transcriber (req_video_id req) (max_duration_minutes req) with
     | inl _ =>
         results self' = results self
         /\ completed (processing_stats self') = completed (processing_stats self)
         /\ failed (processing_stats self') = failed (processing_stats self)
     | inr answer =>
         results self'
         = clean_up_old_results
             (dict_set (req_request_id req) (result_of req answer elapsed) (results self))
     end.
Proof.
  intros Hq. cbv zeta. unfold _process_queue_step. rewrite Hq.
  destruct (transcriber (req_video_id req) (max_duration_minutes req)) as [e|answer].
  - repeat split.
  - cbv zeta. unfold result_of.
    destruct (match answer with Some t => PyStr.truthy t | None => false end);
      repeat split.
Qed.

(* a request id that is neither stored nor queued stays so, as long as no
   submission reuses it *)
Lemma absent_step id op self :
  op_avoids id op ->
  dict_mem id (results self) = false ->
  Forall (fun r => req_request_id r <> id) (request_queue self) ->
  dict_mem id (results (server_step transcriber op self)) = false
  /\ Forall (fun r => req_request_id r <> id) (request_queue (server_step transcriber op self)).
Proof.
  intros Hop Hres Hqueue.
  destruct op as [video_id max_duration fresh_id now | elapsed]; cbn [server_step].
  - rewrite transcribe_video_unfold.
    destruct video_id as [[|c r]|]; cbn [fst]; try (split; assumption).
    destruct (_ <=? _); cbn [fst results request_queue]; [split; assumption|].
    split; [exact Hres|]. apply Forall_app. split; [exact Hqueue|].
    apply Forall_singleton. exact Hop.
  - destruct (request_queue self) as [|req rest] eqn:Hq.
    { unfold _process_queue_step. rewrite Hq. rewrite Hq. split; [exact Hres | constructor]. }
    destruct (work_step_facts elapsed self req rest Hq) as (Hq' & _ & Hcase).
    cbv zeta in Hq', Hcase. rewrite Hq'.
    apply Forall_cons in Hqueue as [Hreq Hrest]. split; [|exact Hrest].
    destruct (transcriber (req_video_id req) (max_duration_minutes req)) as [e|answer].
    + destruct Hcase as (-> & _). exact Hres.
    + rewrite Hcase.
      destruct (dict_mem id (clean_up_old_results _)) eqn:E; [|reflexivity].
      apply clean_up_mem in E. rewrite dict_mem_set, Hres in E. cbn [orb] in E.
      apply String.eqb_eq in E. contradiction.
Qed.

Lemma absent_run id ops : forall self,
  Forall (op_avoids id) ops ->
  dict_mem id (results self) = false ->
  Forall (fun r => req_request_id r <> id) (request_queue self) ->
  dict_mem id (results (server_run transcriber ops self)) = false.
Proof.
  unfold server_run. induction ops as [|op ops IH]; intros self Hops Hres Hqueue; cbn [foldl];
    [exact Hres|].
  apply Forall_cons in Hops as [Hop Hops].
  destruct (absent_step id op self Hop Hres Hqueue) as [H1 H2].
  apply IH; assumption.
Qed.

(* the worker turns that serve the requests ahead of a queued request *)
Lemma work_through id req : forall q waits self,
  request_queue self = q ++ [req] ->
  length waits = length q ->
  (length (results self) + length q < 100)%nat ->
  dict_mem id (results self) = false ->
  Forall (fun r => req_request_id r <> id) q ->
  let self' := server_run transcriber (OpWork <$> waits) self in
  request_queue self' = [req]
  /\ dict_mem id (results self') = false
  /\ (length (results self') < 100)%nat.
Proof.
  unfold server_run.
  induction q as [|head q IH]; intros waits self Hq Hwaits Hlen Hres Hids; cbv zeta.
  - destruct waits; [|discriminate]. cbn [fmap list_fmap foldl].
    split; [exact Hq|]. split; [exact Hres|]. cbn [length] in Hlen. lia.
  - destruct waits as [|elapsed waits]; [discriminate|]. cbn [fmap list_fmap foldl server_step].
    fold (@fmap list _ _ _ OpWork).
    cbn [length] in Hwaits, Hlen. injection Hwaits as Hwaits.
    apply Forall_cons in Hids as [Hhead Hids].
    destruct (work_step_facts elapsed self head (q ++ [req]) Hq) as (Hq' & _ & Hcase).
    cbv zeta in Hq', Hcase.
    apply IH; try assumption.
    + destruct (transcriber (req_video_id head) (max_duration_minutes head)) as [e|answer].
      * destruct Hcase as (-> & _). lia.
      * rewrite Hcase.
        pose proof (dict_set_length_le (req_request_id head) (result_of head answer elapsed)
                      (results self)) as Hs.
        rewrite clean_up_small by lia. lia.
    + destruct (transcriber (req_video_id head) (max_duration_minutes head)) as [e|answer].
      * destruct Hcase as (-> & _). exact Hres.
      * rewrite Hcase.
        destruct (dict_mem id (clean_up_old_results _)) eqn:E; [|reflexivity].
        apply clean_up_mem in E. rewrite dict_mem_set, Hres in E. cbn [orb] in E.
        apply String.eqb_eq in E. contradiction.
Qed.

Lemma get_result_stored self id result :
  dict_get id (results self) = Some result ->
  get_result self id = jsonify (result_response result).
Proof.
  intros H. unfold get_result.
  assert (Hmem : dict_mem id (results self) = true).
  { unfold dict_mem. induction (results self) as [|[k v] d IH]; [discriminate|].
    cbn [dict_get] in H. cbn [existsb fst].
    destruct (String.eqb k id); [reflexivity|]. apply IH. exact H. }
  rewrite Hmem, H. reflexivity.
Qed.

(** X17: a submission that is accepted is served in its turn.  On a
    server whose store has room (stored results plus queued requests
    below 100), after a request with a fresh id is queued and the worker
    has taken one turn for each request ahead of it, GET /result still
    says 'processing'; after the next turn it returns the stored result:
    'completed' with the transcript when the transcriber gave a text,
    'failed' with the error 'Transcription failed' when it gave None or
    an empty text. *)
Theorem queued_job_is_served_in_turn self video_id max_duration fresh_id now waits elapsed
    answer :
  video_id <> "" ->
  (length (request_queue self) < max_queue_size self)%nat ->
  (length (results self) + length (request_queue self) < 100)%nat ->
  dict_mem fresh_id (results self) = false ->
  Forall (fun r => req_request_id r <> fresh_id) (request_queue self) ->
  length waits = length (request_queue self) ->
  transcriber video_id (default 120 max_duration) = inr answer ->
  let queued := (transcribe_video self (Some video_id) max_duration fresh_id now).1 in
  let waiting := server_run transcriber (OpWork <$> waits) queued in
  let served := _process_queue_step transcriber elapsed waiting in
  get_result waiting fresh_id
  = jsonify [("status", JStr "processing"); ("queue_size", JNum 1)]
  /\ get_result served fresh_id
     = jsonify (result_response
                  (result_of (mkRequest fresh_id video_id (default 120 max_duration) now)
                             answer elapsed))
  /\ (forall text, answer = Some text -> text <> "" ->
        body_get "status" (get_result served fresh_id) = Some (JStr "completed")
        /\ body_get "transcript" (get_result served fresh_id) = Some (JStr text))
  /\ (answer = None \/ answer = Some "" ->
        body_get "status" (get_result served fresh_id) = Some (JStr "failed")
        /\ body_get "error" (get_result served fresh_id) = Some (JStr "Transcription failed")).
Proof.
  intros Hvid Hroom Hstore Hfresh Hids Hwaits Hanswer. cbv zeta.
  set (req := mkRequest fresh_id video_id (default 120 max_duration) now).
  assert (Hqueued : request_queue (transcribe_video self (Some video_id) max_duration
                                     fresh_id now).1 = request_queue self ++ [req]
                    /\ results (transcribe_video self (Some video_id) max_duration
                                  fresh_id now).1 = results self).
  { rewrite transcribe_video_unfold. destruct video_id as [|c r]; [congruence|].
    destruct (Z.leb_spec (Z.of_nat (max_queue_size self)) (qsize self)) as [Hfull|_];
      [unfold qsize in Hfull; lia|].
    split; reflexivity. }
  destruct Hqueued as [Hq Hr].
  destruct (work_through fresh_id req (request_queue self) waits
              (transcribe_video self (Some video_id) max_duration fresh_id now).1)
    as (Hq1 & Hmem1 & Hlen1); try assumption; try (rewrite Hr; assumption).
  cbv zeta in Hq1, Hmem1, Hlen1.
  set (waiting := server_run transcriber (OpWork <$> waits) _) in *.
  assert (Hwaiting : get_result waiting fresh_id
                     = jsonify [("status", JStr "processing"); ("queue_size", JNum 1)]).
  { unfold get_result, qsize. rewrite Hmem1, Hq1. reflexivity. }
  destruct (work_step_facts elapsed waiting req [] Hq1) as (_ & _ & Hcase).
  cbv zeta in Hcase.
  change (req_video_id req) with video_id in Hcase.
  change (max_duration_minutes req) with (default 120 max_duration) in Hcase.
  rewrite Hanswer in Hcase.
  pose proof (dict_set_length_le (req_request_id req) (result_of req answer elapsed)
                (results waiting)) as Hs.
  rewrite clean_up_small in Hcase by lia.
  assert (Hserved : get_result (_process_queue_step transcriber elapsed waiting) fresh_id
                    = jsonify (result_response (result_of req answer elapsed))).
  { apply get_result_stored. rewrite Hcase. apply dict_get_set. }
  split; [exact Hwaiting|]. split; [exact Hserved|]. rewrite Hserved. split.
  - intros text -> Htext. destruct text as [|c r]; [congruence|]. split; reflexivity.
  - intros [-> | ->]; split; reflexivity.
Qed.

(** X18: a request whose transcription raises is lost.  The worker turn
    takes it off the queue and stores nothing for it, neither as
    completed nor as failed; from then on, whatever else is submitted
    (under other ids) and processed, GET /result answers 'processing' for
    its id. *)
Theorem crashed_job_is_lost self req rest elapsed e ops :
  request_queue self = req :: rest ->
  transcriber (req_video_id req) (max_duration_minutes req) = inl e ->
  dict_mem (req_request_id req) (results self) = false ->
  Forall (fun r => req_request_id r <> req_request_id req) rest ->
  Forall (op_avoids (req_request_id req)) ops ->
  let dropped := _process_queue_step transcriber elapsed self in
  let later := server_run transcriber ops dropped in
  request_queue dropped = rest
  /\ results dropped = results self
  /\ completed (processing_stats dropped) = completed (processing_stats self)
  /\ failed (processing_stats dropped) = failed (processing_stats self)
  /\ get_result later (req_request_id req)
     = jsonify [("status", JStr "processing"); ("queue_size", JNum (qsize later))].
Proof.
  intros Hq Hcrash Hres Hrest Hops. cbv zeta.
  destruct (work_step_facts elapsed self req rest Hq) as (Hq' & _ & Hcase).
  cbv zeta in Hq', Hcase. rewrite Hcrash in Hcase. destruct Hcase as (Hr & Hc & Hf).
  split; [exact Hq'|]. split; [exact Hr|]. split; [exact Hc|]. split; [exact Hf|].
  unfold get_result. rewrite absent_run; [reflexivity | exact Hops | |].
  - rewrite Hr. exact Hres.
  - rewrite Hq'. exact Hrest.
Qed.

End ServerRuns.

Lemma queued_job_is_served_in_turn_witness :
  let queued := (Whisper.transcribe_video new_server (Some "dQw4w9WgXcQ") None (uuid_of 1) 0).1 in
  let served := Whisper._process_queue_step transcriber_ok 3 queued in
  "dQw4w9WgXcQ" <> ""
  /\ Whisper.get_result queued (uuid_of 1)
     = Whisper.jsonify [("status", Whisper.JStr "processing"); ("queue_size", Whisper.JNum 1)]
  /\ Whisper.body_get "status" (Whisper.get_result served (uuid_of 1))
     = Some (Whisper.JStr "completed")
  /\ Whisper.body_get "transcript" (Whisper.get_result served (uuid_of 1))
     = Some (Whisper.JStr "never gonna give you up").
Proof.
  cbv zeta.
  assert (Hvid : "dQw4w9WgXcQ" <> "") by discriminate.
  assert (Hroom : (length (Whisper.request_queue new_server)
                   < Whisper.max_queue_size new_server)%nat) by (cbn; lia).
  assert (Hstore : (length (Whisper.results new_server)
                    + length (Whisper.request_queue new_server) < 100)%nat) by (cbn; lia).
  destruct (queued_job_is_served_in_turn transcriber_ok new_server "dQw4w9WgXcQ" None
              (uuid_of 1) 0 [] 3 (Some "never gonna give you up")
              Hvid Hroom Hstore eq_refl (Forall_nil_2 _) eq_refl eq_refl)
    as (Hwaiting & _ & Hdone & _).
  split; [exact Hvid|]. split; [exact Hwaiting|].
  apply (Hdone "never gonna give you up" eq_refl). discriminate.
Defined.

Lemma crashed_job_is_lost_witness :
  let self := (Whisper.transcribe_video new_server (Some "dQw4w9WgXcQ") None (uuid_of 1) 0).1 in
  let later := server_run transcriber_crash
                 [OpSubmit (Some "9bZkp7q19f0") None (uuid_of 2) 5; OpWork 1]
                 (Whisper._process_queue_step transcriber_crash 3 self) in
  Whisper.request_queue self = [Whisper.mkRequest (uuid_of 1) "dQw4w9WgXcQ" 120 0]
  /\ Whisper.get_result later (uuid_of 1)
     = Whisper.jsonify [("status", Whisper.JStr "processing");
                        ("queue_size", Whisper.JNum (Whisper.qsize later))].
Proof.
  cbv zeta.
  assert (Hq : Whisper.request_queue
                 (Whisper.transcribe_video new_server (Some "dQw4w9WgXcQ") None (uuid_of 1) 0).1
               = [Whisper.mkRequest (uuid_of 1) "dQw4w9WgXcQ" 120 0]) by reflexivity.
  split; [exact Hq|].
  assert (Hops : Forall (op_avoids (uuid_of 1))
                   [OpSubmit (Some "9bZkp7q19f0") None (uuid_of 2) 5; OpWork 1]).
  { repeat constructor. vm_compute. discriminate. }
  destruct (crashed_job_is_lost transcriber_crash _ _ [] 3
              (OtherException "CUDA out of memory") _ Hq eq_refl eq_refl (Forall_nil_2 _) Hops)
    as (_ & _ & _ & _ & H).
  exact H.
Defined.

(* --------------------------------------------------------------------- *)
(* The threads of the transcription server under any schedule             *)
(* --------------------------------------------------------------------- *)
Section ServerThreads.

Import Whisper Threads.
Variable transcriber : string -> Z -> Exc + option string.
Implicit Types (self : WhisperAPIServer) (sys : System).

(* what an operation of a handler leaves alone, and what it does to the
   queue *)
Lemma handler_step_facts fresh_id now h self :
  let '(h', self') := handler_step fresh_id now h self in
  max_queue_size self' = max_queue_size self
  /\ results self' = results self
  /\ completed (processing_stats self') = completed (processing_stats self)
  /\ failed (processing_stats self') = failed (processing_stats self)
  /\ (match h with HPut _ => (0 < max_queue_size self)%nat | _ => True end ->
      (length (request_queue self) <= max_queue_size self)%nat ->
      (length (request_queue self') <= max_queue_size self)%nat
      /\ match h' with HPut _ => (0 < max_queue_size self)%nat | _ => True end).
Proof.
  destruct h as [[error|[vid|] max_duration]|vid max_duration|request| |n| |n|status];
    cbn [handler_step]; try (repeat split; auto; fail).
  - destruct (negb (PyStr.truthy vid)); repeat split; auto.
  - unfold qsize.
    destruct (Z.leb_spec (Z.of_nat (max_queue_size self))
                (Z.of_nat (length (request_queue self)))); repeat split; auto; lia.
  - destruct (Nat.eqb_spec (max_queue_size self) 0) as [Hz|Hz]; cbn [orb].
    { repeat split; auto; lia. }
    destruct (Nat.ltb_spec (length (request_queue self)) (max_queue_size self)).
    + cbn [set_queue max_queue_size results processing_stats request_queue].
      rewrite length_app. cbn [length]. repeat split; auto; lia.
    + repeat split; auto.
Qed.

Lemma handler_tick_invariant i fresh_id now sys :
  threads_invariant sys -> threads_invariant (tick transcriber (THandler i fresh_id now) sys).
Proof.
  destruct sys as [self w hs]. cbn [tick handlers shared worker].
  destruct (hs !! i) as [h|] eqn:Hi; [|auto].
  pose proof (handler_step_facts fresh_id now h self) as Hstep.
  destruct (handler_step fresh_id now h self) as [h' self'].
  destruct Hstep as (Hmax & Hres & Hcompleted & Hfailed & Hqueue).
  unfold threads_invariant. cbn [shared worker handlers].
  intros (Hq & Hh & Hrest). rewrite Hmax, Hres, Hcompleted, Hfailed.
  assert (Hhere : match h with HPut _ => (0 < max_queue_size self)%nat | _ => True end).
  { rewrite Forall_lookup in Hh. exact (Hh i h Hi). }
  destruct (Hqueue Hhere Hq) as [Hq' Hh'].
  split; [exact Hq'|]. split; [|exact Hrest].
  apply Forall_insert; assumption.
Qed.

Lemma arrival_invariant body sys :
  threads_invariant sys -> threads_invariant (tick transcriber (TArrive body) sys).
Proof.
  destruct sys as [self w hs]. unfold threads_invariant. cbn [tick handlers shared worker].
  intros (Hq & Hh & Hrest). split; [exact Hq|]. split; [|exact Hrest].
  apply Forall_app. split; [exact Hh|]. apply Forall_singleton. exact I.
Qed.

Lemma worker_tick_invariant elapsed sys :
  threads_invariant sys -> threads_invariant (tick transcriber (TWorker elapsed) sys).
Proof.
  destruct sys as [self w hs]. unfold threads_invariant. cbn [tick handlers shared worker].
  intros (Hq & Hh & Hnd & Hr & Hc & Hf & Hres & Hw).
  destruct w as [|req|req n|req|req answer|req result| |keys|]; cbn [worker_step].
  - destruct (request_queue self) as [|req rest] eqn:Hqueue; cbn [shared worker handlers].
    + rewrite Hqueue. repeat split; auto.
    + cbn [set_queue max_queue_size results processing_stats request_queue].
      cbn [length] in Hq. repeat split; auto; lia.
  - cbn [shared worker handlers]. repeat split; auto.
  - cbn [shared worker handlers set_stats set_queue_size max_queue_size results
         processing_stats request_queue completed failed]. repeat split; auto.
  - destruct (transcriber _ _) as [e|answer]; cbn [shared worker handlers];
      repeat split; auto.
  - cbn [shared worker handlers set_stats max_queue_size results processing_stats
         request_queue].
    destruct (match answer with Some t => PyStr.truthy t | None => false end);
      unfold incr_completed, incr_failed; cbn [completed failed];
      repeat split; auto; lia.
  - cbn [shared worker handlers set_results max_queue_size results processing_stats
         request_queue].
    destruct Hw as [Hw1 Hw2].
    pose proof (dict_set_length_le (req_request_id req) result (results self)) as Hlen.
    repeat split; auto; try lia. apply dict_set_NoDup. exact Hnd.
  - destruct (bool_decide_reflect (100 < length (results self))%nat) as [Hbig|Hsmall];
      cbn [shared worker handlers].
    + assert (Hsorted : NoDup (PyStr.sorted (dict_keys (results self))))
        by (rewrite sorted_perm; exact Hnd).
      assert (Hlength : length (PyStr.sorted (dict_keys (results self))) = length (results self))
        by (rewrite sorted_perm; apply dict_keys_length).
      repeat split; auto.
      * rewrite <- (take_drop 50 (PyStr.sorted (dict_keys (results self)))) in Hsorted.
        apply NoDup_app in Hsorted as [H _]. exact H.
      * intros key Hkey. apply elem_of_take in Hkey as (j & Hkey & _).
        apply list_elem_of_lookup_2 in Hkey. rewrite sorted_perm in Hkey. exact Hkey.
      * rewrite length_take. lia.
    + repeat split; auto; lia.
  - destruct Hw as (Hkeys & Hin & Hlen).
    destruct keys as [|key keys]; cbn [shared worker handlers].
    { cbn [length] in Hlen. repeat split; auto; lia. }
    apply NoDup_cons in Hkeys as [Hkey Hkeys].
    assert (Hmem : key ∈ dict_keys (results self))
      by (apply Hin, elem_of_cons; left; reflexivity).
    rewrite (proj2 (dict_mem_elem key (results self)) Hmem).
    cbn [shared worker handlers set_results max_queue_size results processing_stats
         request_queue].
    pose proof (dict_del_length key (results self) Hnd Hmem) as Hone.
    cbn [length] in Hlen.
    repeat split; auto; try lia.
    + apply dict_del_NoDup. exact Hnd.
    + intros k Hk. apply dict_del_elem. split.
      * apply Hin, elem_of_cons. right. exact Hk.
      * intros ->. contradiction.
  - cbn [shared worker handlers]. repeat split; auto.
Qed.

(** X15: whichever way the worker thread and the handler threads of the
    two POST routes are scheduled, operation by operation, from start-up,
    and whatever the transcriber does: the queue never holds more than
    max_queue_size requests; no request id is stored twice; the store
    never holds more than 101 results, and never more than 100 outside the
    worker's passage from its store of a result to the end of its
    clean-up; completed and failed are never negative and together never
    less than the number of stored results. *)
Theorem server_stays_within_bounds max_queue schedule :
  threads_invariant (run transcriber schedule (started max_queue)).
Proof.
  unfold run.
  assert (H0 : threads_invariant (started max_queue)).
  { unfold threads_invariant, started, started_server. cbn.
    repeat split; try lia; [apply Forall_nil_2 | apply NoDup_nil_2]. }
  revert H0. generalize (started max_queue).
  induction schedule as [|t schedule IH]; intros sys H; cbn [foldl]; [exact H|].
  apply IH. destruct t as [body|i fresh_id now|elapsed].
  - apply arrival_invariant. exact H.
  - apply handler_tick_invariant. exact H.
  - apply worker_tick_invariant. exact H.
Qed.

(* The deletions of the clean-up, made without interruption. *)
Lemma deletions_alone elapsed (keys : list string) : forall self,
  NoDup keys -> (forall key, key ∈ keys -> key ∈ dict_keys (results self)) ->
  worker_alone transcriber elapsed (S (length keys)) (WDelete keys) self
  = (WTaskDone, set_results (foldl (fun d key => dict_del key d) (results self) keys) self).
Proof.
  induction keys as [|key keys IH]; intros self Hnd Hin.
  - destruct self. reflexivity.
  - apply NoDup_cons in Hnd as [Hkey Hnd].
    assert (Hmem : key ∈ dict_keys (results self))
      by (apply Hin, elem_of_cons; left; reflexivity).
    cbn [length]. change (worker_alone transcriber elapsed (S (S (length keys)))
                            (WDelete (key :: keys)) self)
      with (let '(w', self') := worker_step transcriber elapsed (WDelete (key :: keys)) self in
            worker_alone transcriber elapsed (S (length keys)) w' self').
    cbn [worker_step]. rewrite (proj2 (dict_mem_elem key (results self)) Hmem).
    rewrite IH.
    + destruct self. reflexivity.
    + exact Hnd.
    + intros k Hk. cbn [set_results results]. apply dict_del_elem. split.
      * apply Hin, elem_of_cons. right. exact Hk.
      * intros ->. contradiction.
Qed.

Lemma worker_alone_add elapsed n m : forall w self,
  worker_alone transcriber elapsed (n + m) w self
  = let '(w', self') := worker_alone transcriber elapsed n w self in
    worker_alone transcriber elapsed m w' self'.
Proof.
  induction n as [|n IH]; intros w self; cbn [worker_alone Nat.add]; [reflexivity|].
  destruct (worker_step transcriber elapsed w self) as [w' self']. apply IH.
Qed.

(* One turn of the loop as _process_queue_step has it is the worker's
   operations from one get to the next, made without interruption. *)
Lemma worker_turn_alone elapsed self :
  NoDup (dict_keys (results self)) ->
  exists n, worker_alone transcriber elapsed n WGet self
            = (WGet, _process_queue_step transcriber elapsed self).
Proof.
  intros Hnd. unfold _process_queue_step.
  destruct (request_queue self) as [|req rest] eqn:Hqueue.
  { exists 1%nat. cbn [worker_alone worker_step]. rewrite Hqueue. reflexivity. }
  destruct (transcriber (req_video_id req) (max_duration_minutes req)) as [e|answer] eqn:Hanswer.
  { exists 4%nat. cbn [worker_alone worker_step]. rewrite Hqueue.
    cbn [worker_step req_video_id]. rewrite Hanswer. reflexivity. }
  cbv zeta.
  set (ok := match answer with Some t => PyStr.truthy t | None => false end).
  set (result := if ok then _ else _).
  set (counted := set_stats _ (set_stats _ (set_queue rest self))).
  set (stored := set_results (dict_set (req_request_id req) result (results counted)) counted).
  assert (Hsix : worker_alone transcriber elapsed 6 WGet self = (WLen, stored)).
  { cbn [worker_alone worker_step]. rewrite Hqueue. cbn [worker_step]. rewrite Hanswer.
    reflexivity. }
  assert (Hstored : NoDup (dict_keys (results stored))).
  { subst stored counted. cbn [set_results set_stats set_queue results].
    apply dict_set_NoDup. exact Hnd. }
  unfold clean_up_old_results.
  destruct (bool_decide_reflect (100 < length (results stored))%nat) as [Hbig|Hsmall].
  - set (keys := take 50 (PyStr.sorted (dict_keys (results stored)))).
    exists (6 + (1 + (S (length keys) + 1)))%nat.
    rewrite worker_alone_add, Hsix.
    rewrite worker_alone_add. cbn [worker_alone worker_step].
    rewrite bool_decide_eq_true_2 by exact Hbig. fold keys.
    rewrite worker_alone_add, deletions_alone.
    + reflexivity.
    + assert (Hsorted : NoDup (PyStr.sorted (dict_keys (results stored))))
        by (rewrite sorted_perm; exact Hstored).
      rewrite <- (take_drop 50 (PyStr.sorted (dict_keys (results stored)))) in Hsorted.
      apply NoDup_app in Hsorted as [H _]. exact H.
    + intros key Hkey. apply elem_of_take in Hkey as (j & Hkey & _).
      apply list_elem_of_lookup_2 in Hkey. rewrite sorted_perm in Hkey. exact Hkey.
  - exists (6 + 2)%nat. rewrite worker_alone_add, Hsix. cbn [worker_alone worker_step].
    rewrite bool_decide_eq_false_2 by exact Hsmall. destruct stored. reflexivity.
Qed.

(* POST /transcribe as transcribe_video_route has it is the handler's
   operations made without interruption. *)
Lemma handler_alone_is_route self body fresh_id now :
  handler_alone fresh_id now 7 (HRequest body) self
  = let '(self', response) := transcribe_video_route self body fresh_id now in
    (HAnswered (http_status response), self').
Proof.
  destruct body as [error | [vid|] max_duration];
    cbn [transcribe_video_route transcribe_video]; try reflexivity.
  cbn [handler_alone handler_step].
  destruct (negb (PyStr.truthy vid)); [reflexivity|].
  cbn [handler_step].
  destruct (Z.leb_spec (Z.of_nat (max_queue_size self)) (qsize self)) as [Hfull|Hroom];
    [reflexivity|].
  cbn [handler_step]. unfold qsize in Hroom.
  assert (Hput : (max_queue_size self =? 0)%nat
                 || (length (request_queue self) <? max_queue_size self)%nat = true).
  { apply orb_true_iff. right. apply Nat.ltb_lt. lia. }
  rewrite Hput. reflexivity.
Qed.

(* Two handlers that both read total_requests before either writes it
   back count one request for the two they queue. *)
Example racing_posts_lose_a_count :
  let sys := run transcriber_ok racing_posts (started 50) in
  length (request_queue (shared sys)) = 2%nat
  /\ total_requests (processing_stats (shared sys)) = 1
  /\ handlers sys = [HAnswered 200; HAnswered 200].
Proof. vm_compute. repeat split; reflexivity. Qed.

(* After 100 jobs, the next result makes 101 in the store until the
   worker has cleaned up: what GET /stats reports as results_cached if it
   is asked then. *)
Example store_holds_101_before_clean_up :
  let sys := run transcriber_ok one_more_than_100 (started 50) in
  worker sys = WLen /\ length (results (shared sys)) = 101%nat.
Proof. vm_compute. split; reflexivity. Qed.

End ServerThreads.

(* --------------------------------------------------------------------- *)
(* Durations                                                              *)
(* --------------------------------------------------------------------- *)
Section Durations.



Lemma digit_val_range c : PyStr.is_digit c = true -> 0 <= PyStr.digit_val c <= 9.
Proof.
  unfold PyStr.is_digit, PyStr.digit_val. cbv zeta. intros H.
  apply andb_true_iff in H as [H1 H2]. apply N.leb_le in H1, H2. lia.
Qed.

Lemma digits_from_nonneg s : forall acc b z,
  0 <= acc -> PyStr.digits_from acc b s = Some z -> 0 <= z.
Proof.
  induction s as [|c r IH]; intros acc b z Hacc; cbn [PyStr.digits_from].
  - destruct b; [intros [= <-]; exact Hacc | discriminate].
  - destruct (PyStr.is_digit c) eqn:Hd.
    + apply IH. pose proof (digit_val_range c Hd). lia.
    + destruct (Ascii.eqb c "_"); [|discriminate].
      destruct b; [apply IH; exact Hacc | discriminate].
Qed.

Lemma group_int_nonneg g : 0 <= group_int g.
Proof.
  destruct g as [ds|]; cbn [group_int]; [|lia].
  destruct (PyStr.digits_from 0 false ds) as [z|] eqn:E; cbn [default]; [|lia].
  apply (digits_from_nonneg ds 0 false z); [lia | exact E].
Qed.








Lemma _parse_duration_unfold duration :
  _parse_duration duration
  = match duration with
    | String c1 (String c2 s) =>
        if Ascii.eqb c1 "P" && Ascii.eqb c2 "T" then
          group_int (duration_group "H" s).1 * 3600
          + group_int (duration_group "M" (duration_group "H" s).2).1 * 60
          + group_int (duration_group "S"
                         (duration_group "M" (duration_group "H" s).2).2).1
        else 0
    | _ => 0
    end.
Proof.
  destruct duration as [|c1 [|c2 s]]; [reflexivity| |].
  - destruct c1 as [[] [] [] [] [] [] [] []]; reflexivity.
  - destruct c1 as [[] [] [] [] [] [] [] []]; try reflexivity.
    destruct c2 as [[] [] [] [] [] [] [] []]; try reflexivity.
    cbn [_parse_duration Ascii.eqb Bool.eqb andb].
    destruct (duration_group "H" s) as [h s1]. cbn [fst snd].
    destruct (duration_group "M" s1) as [m s2]. cbn [fst snd].
    destruct (duration_group "S" s2) as [sec s3]. reflexivity.
Qed.

(** X20: _parse_duration never gives a negative number, and gives 0 for
    every text that does not start with PT: durations of a day or more,
    which the API prints as P1DT2H3M4S, count as 0 seconds. *)
Theorem parse_duration_without_PT duration :
  0 <= _parse_duration duration
  /\ ((forall rest, duration <> "PT" +:+ rest) -> _parse_duration duration = 0).
Proof.
  rewrite _parse_duration_unfold.
  destruct duration as [|c1 [|c2 s]]; try (split; [lia | reflexivity]).
  destruct (Ascii.eqb_spec c1 "P") as [->|H1]; cbn [andb]; [|split; [lia | reflexivity]].
  destruct (Ascii.eqb_spec c2 "T") as [->|H2]; [|split; [lia | reflexivity]].
  split.
  - pose proof (group_int_nonneg (duration_group "H" s).1).
    pose proof (group_int_nonneg (duration_group "M" (duration_group "H" s).2).1).
    pose proof (group_int_nonneg
                  (duration_group "S" (duration_group "M" (duration_group "H" s).2).2).1).
    lia.
  - intros Hno. destruct (Hno s). reflexivity.
Qed.

End Durations.


Lemma parse_duration_without_PT_witness :
  (forall rest, "P1DT2H3M4S" <> "PT" +:+ rest) /\ _parse_duration "P1DT2H3M4S" = 0.
Proof.
  assert (H : forall rest, "P1DT2H3M4S" <> "PT" +:+ rest) by (intros rest; discriminate).
  split; [exact H|].
  exact (proj2 (parse_duration_without_PT "P1DT2H3M4S") H).
Defined.

(* --------------------------------------------------------------------- *)
(* Loading the API keys                                                   *)
(* --------------------------------------------------------------------- *)
Section LoadingKeys.

Import Startup.
Variable environ : gmap string string.

Lemma append_inj_l (p a b : string) : p +:+ a = p +:+ b -> a = b.
Proof.
  induction p as [|c p IH]; [exact (fun H => H)|].
  intros H. apply IH. injection H as H. exact H.
Qed.

Lemma secondary_name_inj i j : secondary_name i = secondary_name j -> i = j.
Proof.
  unfold secondary_name. intros H. apply append_inj_l in H.
  apply (inj pretty) in H. exact H.
Qed.

Lemma getenv_truthy_dom name key :
  getenv_truthy environ name = Some key -> name ∈ dom environ /\ key <> "".
Proof.
  unfold getenv_truthy. destruct (environ !! name) as [v|] eqn:E; [|discriminate].
  destruct v as [|c r]; cbn [PyStr.truthy]; [discriminate|].
  intros [= <-]. split; [|discriminate]. apply elem_of_dom. eauto.
Qed.

(* a loop that is still running has found a variable at every turn *)
Lemma secondary_keys_running turns : forall i,
  secondary_keys turns environ i = None ->
  forall j, (i <= j < i + turns)%nat -> secondary_name j ∈ dom environ.
Proof.
  induction turns as [|turns IH]; intros i Hnone j Hj; [lia|].
  cbn [secondary_keys] in Hnone.
  destruct (getenv_truthy environ (secondary_name i)) as [key|] eqn:E; [|discriminate].
  destruct (secondary_keys turns environ (S i)) as [l|] eqn:El; [discriminate|].
  destruct (decide (j = i)) as [->|Hne].
  - apply (getenv_truthy_dom _ key E).
  - apply (IH (S i) El). lia.
Qed.

Lemma names_within_environ i turns :
  (forall j, (i <= j < i + turns)%nat -> secondary_name j ∈ dom environ) ->
  (turns <= size environ)%nat.
Proof.
  intros H.
  assert (Hsub : (list_to_set (secondary_name <$> seq i turns) : gset string) ⊆ dom environ).
  { intros name Hname. apply elem_of_list_to_set, list_elem_of_fmap in Hname
      as (j & -> & Hj).
    apply elem_of_seq in Hj. apply H. lia. }
  apply subseteq_size in Hsub. rewrite size_dom in Hsub.
  rewrite size_list_to_set in Hsub.
  - rewrite length_fmap, length_seq in Hsub. exact Hsub.
  - apply NoDup_fmap_2_strong; [|apply NoDup_seq].
    intros a b _ _ Hab. apply secondary_name_inj. exact Hab.
Qed.

(* the keys of a loop that has ended: one per variable up to the first
   that is unset or empty *)
Lemma secondary_keys_ended turns : forall i secondary,
  secondary_keys turns environ i = Some secondary ->
  (forall j, (i <= j < i + length secondary)%nat ->
     is_Some (secondary !! (j - i)%nat)
     /\ getenv_truthy environ (secondary_name j) = secondary !! (j - i)%nat)
  /\ getenv_truthy environ (secondary_name (i + length secondary)) = None
  /\ (length secondary < turns)%nat.
Proof.
  induction turns as [|turns IH]; intros i secondary Hsome; [discriminate|].
  cbn [secondary_keys] in Hsome.
  destruct (getenv_truthy environ (secondary_name i)) as [key|] eqn:E.
  - destruct (secondary_keys turns environ (S i)) as [l|] eqn:El; [|discriminate].
    injection Hsome as <-. destruct (IH (S i) l El) as (Hfound & Hgap & Hlen).
    cbn [length]. split; [|split; [|lia]].
    + intros j Hj. destruct (decide (j = i)) as [->|Hne].
      * rewrite Nat.sub_diag. cbn. split; [eauto | exact E].
      * replace (j - i)%nat with (S (j - S i)) by lia. cbn [lookup list_lookup].
        apply Hfound. lia.
    + replace (i + S (length l))%nat with (S i + length l)%nat by lia. exact Hgap.
  - injection Hsome as <-. cbn [length]. split; [intros j Hj; lia|].
    split; [|lia]. rewrite Nat.add_0_r. exact E.
Qed.

(** X21: _load_api_keys always ends, and it stops at the first gap in the
    numbering.  It returns the primary key YOUTUBE_API_KEY (when set and
    not empty) followed by YOUTUBE_API_KEY_2, _3, ... up to the first of
    these variables that is unset or empty; variables numbered beyond
    that gap are not loaded.  It raises ValueError exactly when both
    YOUTUBE_API_KEY and YOUTUBE_API_KEY_2 are unset or empty. *)
Theorem load_api_keys_stops_at_first_gap :
  exists (k : nat) (secondary : list string),
    (2 <= k <= size environ + 2)%nat
    /\ length secondary = (k - 2)%nat
    /\ (forall j, (2 <= j < k)%nat ->
          is_Some (secondary !! (j - 2)%nat)
          /\ getenv_truthy environ (secondary_name j) = secondary !! (j - 2)%nat)
    /\ getenv_truthy environ (secondary_name k) = None
    /\ _load_api_keys environ
       = Some match getenv_truthy environ "YOUTUBE_API_KEY" with
              | Some primary_key => inr (primary_key :: secondary)
              | None =>
                  match secondary with
                  | [] => inl (ValueError "No YOUTUBE_API_KEY found in environment variables")
                  | _ => inr secondary
                  end
              end
    /\ (_load_api_keys environ
        = Some (inl (ValueError "No YOUTUBE_API_KEY found in environment variables"))
        <-> getenv_truthy environ "YOUTUBE_API_KEY" = None
            /\ getenv_truthy environ (secondary_name 2) = None).
Proof.
  destruct (secondary_keys (S (size environ)) environ 2) as [secondary|] eqn:E.
  2:{ pose proof (names_within_environ 2 (S (size environ))
                    (secondary_keys_running _ _ E)). lia. }
  destruct (secondary_keys_ended _ _ _ E) as (Hfound & Hgap & Hlen).
  assert (Hload : _load_api_keys environ
                  = Some match getenv_truthy environ "YOUTUBE_API_KEY" with
                         | Some primary_key => inr (primary_key :: secondary)
                         | None =>
                             match secondary with
                             | [] => inl (ValueError
                                            "No YOUTUBE_API_KEY found in environment variables")
                             | _ => inr secondary
                             end
                         end).
  { unfold _load_api_keys. rewrite E.
    destruct (getenv_truthy environ "YOUTUBE_API_KEY"); cbn [app]; [reflexivity|].
    destruct secondary; reflexivity. }
  exists (2 + length secondary)%nat, secondary.
  split; [lia|]. split; [lia|]. split; [exact Hfound|]. split; [exact Hgap|].
  split; [exact Hload|]. rewrite Hload. split.
  - destruct (getenv_truthy environ "YOUTUBE_API_KEY"); [discriminate|].
    destruct secondary; [|discriminate]. intros _. split; [reflexivity | exact Hgap].
  - intros [Hp H2]. rewrite Hp. destruct secondary as [|key rest]; [reflexivity|].
    destruct (Hfound 2%nat) as [_ Hkey]; [cbn [length]; lia|].
    rewrite H2 in Hkey. discriminate.
Qed.

End LoadingKeys.

(* a gap at _3 hides the key _4 *)
Example load_api_keys_gap :
  Startup._load_api_keys
    (<["YOUTUBE_API_KEY" := "key-a"]>
       (<["YOUTUBE_API_KEY_2" := "key-b"]> (<["YOUTUBE_API_KEY_4" := "key-d"]> ∅)))
  = Some (inr ["key-a"; "key-b"]).
Proof. vm_compute. reflexivity. Qed.

Lemma load_api_keys_stops_at_first_gap_witness :
  exists (k : nat) (secondary : list string),
    (2 <= k <= size environ_with_gap + 2)%nat
    /\ length secondary = (k - 2)%nat
    /\ Startup.getenv_truthy environ_with_gap (Startup.secondary_name k) = None.
Proof.
  destruct (load_api_keys_stops_at_first_gap environ_with_gap)
    as (k & secondary & H1 & H2 & _ & H4 & _).
  exists k, secondary. split; [exact H1|]. split; [exact H2 | exact H4].
Defined.

(* --------------------------------------------------------------------- *)
(* Loading the registry of discovered channels                            *)
(* --------------------------------------------------------------------- *)
Section LoadingRegistry.

Import Startup.

Lemma chars_lstrip_by p s c :
  In c (String.list_ascii_of_string (PyStr.lstrip_by p s)) ->
  In c (String.list_ascii_of_string s).
Proof.
  induction s as [|x r IH]; cbn [PyStr.lstrip_by]; [auto|].
  destruct (p x); [|auto]. intros H. right. apply IH. exact H.
Qed.

Lemma chars_rstrip_by p s c :
  In c (String.list_ascii_of_string (PyStr.rstrip_by p s)) ->
  In c (String.list_ascii_of_string s).
Proof.
  induction s as [|x r IH]; cbn [PyStr.rstrip_by]; [auto|].
  destruct (PyStr.rstrip_by p r) as [|y r'] eqn:E.
  - destruct (p x); cbn; [intros [] | intros [H|[]]; left; exact H].
  - cbn [String.list_ascii_of_string In]. intros [H|H]; [left; exact H|].
    right. apply IH. exact H.
Qed.

Lemma chars_strip s c :
  In c (String.list_ascii_of_string (PyStr.strip s)) -> In c (String.list_ascii_of_string s).
Proof. unfold PyStr.strip. intros H. apply chars_rstrip_by, chars_lstrip_by in H. exact H. Qed.

Lemma lower_char_sep c : is_sep (PyStr.lower_char c) = is_sep c.
Proof. destruct c as [[] [] [] [] [] [] [] []]; reflexivity. Qed.

Lemma lower_char_idem c : PyStr.lower_char (PyStr.lower_char c) = PyStr.lower_char c.
Proof. destruct c as [[] [] [] [] [] [] [] []]; reflexivity. Qed.

Lemma lower_char_at c : Ascii.eqb "@" (PyStr.lower_char c) = Ascii.eqb "@" c.
Proof. destruct c as [[] [] [] [] [] [] [] []]; reflexivity. Qed.

Lemma lower_idem s : PyStr.lower (PyStr.lower s) = PyStr.lower s.
Proof.
  unfold PyStr.lower. induction s as [|c r IH]; [reflexivity|].
  cbn [PyStr.map_chars]. rewrite lower_char_idem, IH. reflexivity.
Qed.

Lemma no_sep_lower s : no_sep s -> no_sep (PyStr.lower s).
Proof.
  unfold no_sep, PyStr.lower. induction s as [|x r IH]; intros H c; [intros []|].
  cbn [PyStr.map_chars String.list_ascii_of_string In]. intros [<-|Hc].
  - rewrite lower_char_sep. apply H. left. reflexivity.
  - apply IH; [|exact Hc]. intros c' Hc'. apply H. right. exact Hc'.
Qed.

Lemma lstrip_lower_at s :
  PyStr.lstrip_char "@" s = s -> PyStr.lstrip_char "@" (PyStr.lower s) = PyStr.lower s.
Proof.
  unfold PyStr.lstrip_char, PyStr.lower. destruct s as [|c r]; [reflexivity|].
  cbn [PyStr.lstrip_by PyStr.map_chars]. rewrite lower_char_at.
  destruct (Ascii.eqb "@" c) eqn:E; [|reflexivity].
  intros H. exfalso.
  assert (Hlen : (String.length (PyStr.lstrip_by (Ascii.eqb "@") r) <= String.length r)%nat).
  { clear. induction r as [|x r IH]; cbn [PyStr.lstrip_by String.length]; [lia|].
    destruct (Ascii.eqb "@" x); cbn [String.length]; lia. }
  rewrite H in Hlen. cbn [String.length] in Hlen. lia.
Qed.

Lemma lstrip_by_idem p s : PyStr.lstrip_by p (PyStr.lstrip_by p s) = PyStr.lstrip_by p s.
Proof.
  induction s as [|c r IH]; [reflexivity|]. cbn [PyStr.lstrip_by].
  destruct (p c) eqn:E; [exact IH|]. cbn [PyStr.lstrip_by]. rewrite E. reflexivity.
Qed.

(* the pieces re.split gives hold no space and no comma *)
Lemma re_split_no_sep s : forall prev_sep piece,
  In piece (re_split prev_sep s) -> no_sep piece.
Proof.
  induction s as [|c r IH]; intros prev_sep piece; cbn [re_split].
  - intros [<-|[]]. intros c [].
  - destruct (is_sep c) eqn:Hc.
    + destruct prev_sep; [apply IH|]. intros [<-|H]; [intros x [] | exact (IH _ _ H)].
    + pose proof (IH false) as IHf.
      destruct (re_split false r) as [|p ps].
      * intros [<-|[]]. intros x [<-|[]]. exact Hc.
      * intros [<-|H].
        -- intros x [<-|Hx]; [exact Hc|]. apply (IHf p); [left; reflexivity | exact Hx].
        -- apply (IHf piece). right. exact H.
Qed.

(* what one Handle cell adds *)
Lemma row_handles_normal handle h :
  In h (row_handles handle) ->
  h <> "" /\ PyStr.lower h = h /\ PyStr.lstrip_char "@" h = h /\ no_sep h.
Proof.
  unfold row_handles. intros H. apply filter_In in H as [Hin Htruthy].
  apply list_elem_of_In, list_elem_of_fmap in Hin as (piece & -> & Hpiece).
  apply list_elem_of_In in Hpiece.
  split; [intros E; rewrite E in Htruthy; discriminate|].
  split; [apply lower_idem|]. split.
  - apply lstrip_lower_at. apply lstrip_by_idem.
  - apply no_sep_lower. intros c Hc.
    apply chars_lstrip_by, chars_strip in Hc.
    exact (re_split_no_sep _ _ _ Hpiece c Hc).
Qed.

Lemma load_rows_normal rows : forall handles ids,
  (forall h, h ∈ handles ->
     h <> "" /\ PyStr.lower h = h /\ PyStr.lstrip_char "@" h = h /\ no_sep h) ->
  (forall id, id ∈ ids -> startswith "UC" id = true) ->
  (forall h, h ∈ (load_rows rows handles ids).1 ->
     h <> "" /\ PyStr.lower h = h /\ PyStr.lstrip_char "@" h = h /\ no_sep h)
  /\ (forall id, id ∈ (load_rows rows handles ids).2 -> startswith "UC" id = true).
Proof.
  induction rows as [|row rows IH]; intros handles ids Hh Hi; cbn [load_rows];
    [split; assumption|].
  destruct (cell_strip (Handle row)) as [handle|]; [|split; assumption].
  assert (Hh' : forall h, h ∈ handles ∪ list_to_set (row_handles handle) ->
                  h <> "" /\ PyStr.lower h = h /\ PyStr.lstrip_char "@" h = h /\ no_sep h).
  { intros h Hin. apply elem_of_union in Hin as [Hin|Hin]; [apply Hh; exact Hin|].
    apply elem_of_list_to_set, list_elem_of_In in Hin.
    exact (row_handles_normal _ _ Hin). }
  destruct (cell_strip (Channel_ID row)) as [channel_id'|]; [|split; assumption].
  apply IH; [exact Hh'|].
  destruct (PyStr.truthy channel_id' && startswith "UC" channel_id') eqn:E; [|exact Hi].
  intros id Hin. apply elem_of_union in Hin as [Hin|Hin]; [apply Hi; exact Hin|].
  apply elem_of_singleton in Hin. subst id.
  apply andb_true_iff in E as [_ E]. exact E.
Qed.

(** X22: whatever discovered.csv holds, every handle that __init__ loads
    into discovered_handles is not empty, is in lower case, has no leading
    '@' and holds neither space nor comma; every channel id it loads into
    discovered_channel_ids starts with UC.  When the file cannot be
    opened both sets are empty. *)
Theorem registry_entries_are_normalized file :
  (forall h, h ∈ (load_registry file).1 ->
     h <> "" /\ PyStr.lower h = h /\ PyStr.lstrip_char "@" h = h /\ no_sep h)
  /\ (forall id, id ∈ (load_registry file).2 -> startswith "UC" id = true)
  /\ (file = None -> load_registry file = (∅, ∅)).
Proof.
  destruct file as [rows|]; cbn [load_registry].
  - destruct (load_rows_normal rows ∅ ∅) as [H1 H2].
    + intros h Hin. apply elem_of_empty in Hin. destruct Hin.
    + intros id Hin. apply elem_of_empty in Hin. destruct Hin.
    + split; [exact H1|]. split; [exact H2 | discriminate].
  - split; [|split; [|reflexivity]]; intros x Hin; apply elem_of_empty in Hin; destruct Hin.
Qed.

Lemma load_rows_grows rows : forall handles ids,
  handles ⊆ (load_rows rows handles ids).1 /\ ids ⊆ (load_rows rows handles ids).2.
Proof.
  induction rows as [|row rows IH]; intros handles ids; cbn [load_rows]; [split; reflexivity|].
  destruct (cell_strip (Handle row)) as [handle|]; [|split; reflexivity].
  destruct (cell_strip (Channel_ID row)) as [channel_id'|];
    [|split; [apply union_subseteq_l | reflexivity]].
  match goal with
  | |- context [load_rows rows ?h ?i] => destruct (IH h i) as [IH1 IH2]
  end.
  split.
  - etrans; [apply union_subseteq_l | exact IH1].
  - etrans; [|exact IH2].
    destruct (PyStr.truthy channel_id' && startswith "UC" channel_id');
      [apply union_subseteq_l | reflexivity].
Qed.

(* what a complete row of the file contributes is in the sets loaded *)
Lemma load_rows_member rows : forall handles ids row,
  Forall row_complete rows -> row ∈ rows ->
  (forall t h, Handle row = Value t -> In h (row_handles (PyStr.strip t)) ->
     h ∈ (load_rows rows handles ids).1)
  /\ (forall t, Channel_ID row = Value t -> PyStr.strip t <> "" ->
        startswith "UC" (PyStr.strip t) = true ->
        PyStr.strip t ∈ (load_rows rows handles ids).2).
Proof.
  induction rows as [|first rows IH]; intros handles ids row Hall Hin.
  { apply elem_of_nil in Hin. destruct Hin. }
  apply Forall_cons in Hall as [[Hc1 Hc2] Hall]. cbn [load_rows].
  destruct (cell_strip (Handle first)) as [handle|] eqn:E1;
    [|destruct (Handle first); try discriminate; congruence].
  destruct (cell_strip (Channel_ID first)) as [channel_id'|] eqn:E2;
    [|destruct (Channel_ID first); try discriminate; congruence].
  match goal with
  | |- context [load_rows rows ?h ?i] =>
      destruct (load_rows_grows rows h i) as [G1 G2]; pose proof (IH h i row Hall) as IHrow
  end.
  apply elem_of_cons in Hin as [->|Hin]; [|exact (IHrow Hin)].
  split.
  - intros t h Ht Hh. rewrite Ht in E1. injection E1 as <-.
    apply G1. apply elem_of_union. right.
    apply elem_of_list_to_set, list_elem_of_In. exact Hh.
  - intros t Ht Hne Huc. rewrite Ht in E2. injection E2 as <-.
    apply G2. rewrite Huc.
    destruct (PyStr.strip t) as [|c r] eqn:Es; [congruence|]. cbn [PyStr.truthy andb].
    apply elem_of_union. right. apply elem_of_singleton. reflexivity.
Qed.

(** X23: a channel written in discovered.csv is skipped.  For a finder
    whose registry was loaded from a file without short rows: when a
    channel's handle is one of the handles written in a Handle cell (alone
    or in a list separated by commas and spaces, with or without '@', in
    any letter case), or its channel id is written in a Channel ID cell
    and starts with UC, _is_discovered answers True for it. *)
Theorem listed_channel_is_discovered rows self row channel_info item :
  Forall row_complete rows ->
  discovered_handles self = (load_registry (Some rows)).1 ->
  discovered_channel_ids self = (load_registry (Some rows)).2 ->
  row ∈ rows ->
  (exists t piece, Handle row = Value t
                   /\ In piece (re_split false (PyStr.strip t))
                   /\ normalized_handle piece <> ""
                   /\ normalized_handle (handle channel_info) = normalized_handle piece)
  \/ (exists t, Channel_ID row = Value t
                /\ PyStr.strip t <> ""
                /\ startswith "UC" (PyStr.strip t) = true
                /\ PyStr.strip (channel_id channel_info) = PyStr.strip t) ->
  _is_discovered self channel_info item = true.
Proof.
  intros Hall Hh Hi Hrow Hlisted.
  destruct (load_rows_member rows ∅ ∅ row Hall Hrow) as [Mh Mi].
  unfold _is_discovered. cbv zeta.
  destruct Hlisted as [(t & piece & Ht & Hpiece & Hne & Hsame) | (t & Ht & Hne & Huc & Hsame)].
  - assert (Hin : normalized_handle piece ∈ discovered_handles self).
    { rewrite Hh. cbn [load_registry]. apply (Mh t _ Ht).
      unfold row_handles. apply filter_In. split.
      - apply list_elem_of_In, list_elem_of_fmap. exists piece.
        split; [reflexivity|]. apply list_elem_of_In. exact Hpiece.
      - destruct (normalized_handle piece) eqn:E; [congruence | reflexivity]. }
    unfold normalized_handle in Hsame, Hin, Hne. cbn [existsb].
    rewrite Hsame, (bool_decide_eq_true_2 _ Hin).
    destruct (PyStr.lower (PyStr.lstrip_char "@" (PyStr.strip piece))) eqn:E;
      [congruence | reflexivity].
  - assert (Hin : PyStr.strip t ∈ discovered_channel_ids self).
    { rewrite Hi. cbn [load_registry]. exact (Mi t Ht Hne Huc). }
    destruct (existsb _ _); [reflexivity|].
    rewrite Hsame, (bool_decide_eq_true_2 _ Hin).
    destruct (PyStr.strip t) eqn:E; [congruence | reflexivity].
Qed.

(** X24: a row of discovered.csv that is too short to have a value in the
    Handle column ends the loading: the rows after it are not read, and
    the registry holds what the rows before it gave. *)
Theorem short_row_ends_loading rows short later :
  Forall row_complete rows ->
  Handle short = NoValue ->
  load_registry (Some (rows ++ short :: later)) = load_registry (Some rows).
Proof.
  intros Hall Hshort. cbn [load_registry]. generalize (∅ : gset string) at 1 3.
  generalize (∅ : gset string).
  induction rows as [|row rows IH]; intros ids handles; cbn [app load_rows].
  - rewrite Hshort. reflexivity.
  - apply Forall_cons in Hall as [[Hc1 Hc2] Hall].
    destruct (cell_strip (Handle row)); [|reflexivity].
    destruct (cell_strip (Channel_ID row)); [|reflexivity].
    apply IH. exact Hall.
Qed.

End LoadingRegistry.

Lemma registry_entries_are_normalized_witness :
  "other_guy" ∈ (Startup.load_registry (Some sample_rows)).1
  /\ PyStr.lower "other_guy" = "other_guy"
  /\ no_sep "other_guy".
Proof.
  assert (Hin : "other_guy" ∈ (Startup.load_registry (Some sample_rows)).1)
    by (apply (bool_decide_unpack _); vm_compute; exact I).
  split; [exact Hin|].
  destruct (registry_entries_are_normalized (Some sample_rows)) as (H & _).
  destruct (H _ Hin) as (_ & Hlower & _ & Hsep).
  split; [exact Hlower | exact Hsep].
Defined.

Lemma sample_rows_complete : Forall row_complete sample_rows.
Proof. repeat constructor; discriminate. Qed.

Lemma listed_channel_is_discovered_witness :
  Forall row_complete sample_rows
  /\ _is_discovered finder_from_file
       {| channel_id := "UCotherguy00000000000000"; title := "Other Guy";
          handle := "@other_guy"; description := ""; subscriber_count := 20000;
          video_count := 10; view_count := 100000 |} None
     = true.
Proof.
  split; [exact sample_rows_complete|].
  apply (listed_channel_is_discovered sample_rows finder_from_file
           (Startup.mkRow (Startup.Value " @ExistingCreator, @Other_Guy ") (Startup.Value "")));
    [exact sample_rows_complete | reflexivity | reflexivity | |].
  - apply elem_of_cons. left. reflexivity.
  - left. exists " @ExistingCreator, @Other_Guy ", "@Other_Guy".
    split; [reflexivity|]. split; [vm_compute; auto|].
    split; [vm_compute; discriminate | vm_compute; reflexivity].
Defined.

Lemma short_row_ends_loading_witness :
  Forall row_complete sample_rows
  /\ Startup.load_registry
       (Some (sample_rows ++ Startup.mkRow Startup.NoValue Startup.NoValue
                          :: [Startup.mkRow (Startup.Value "@latecomer") (Startup.Value "")]))
     = Startup.load_registry (Some sample_rows).
Proof.
  split; [exact sample_rows_complete|].
  exact (short_row_ends_loading sample_rows (Startup.mkRow Startup.NoValue Startup.NoValue)
           [Startup.mkRow (Startup.Value "@latecomer") (Startup.Value "")]
           sample_rows_complete eq_refl).
Defined.

(* --------------------------------------------------------------------- *)
(* The key manager of the Streamlit app                                   *)
(* --------------------------------------------------------------------- *)
Section Manager.

Import App.
Implicit Types (manager : MultiAPIManager).

Lemma switch_to_next_key_facts manager :
  api_keys (switch_to_next_key manager).1 = api_keys manager
  /\ api_calls_per_key (switch_to_next_key manager).1 = api_calls_per_key manager
  /\ ((2 <= length (api_keys manager))%nat ->
      (switch_to_next_key manager).2 = true
      /\ current_key_index (switch_to_next_key manager).1
         = ((current_key_index manager + 1) mod length (api_keys manager))%nat)
  /\ ((length (api_keys manager) <= 1)%nat ->
      switch_to_next_key manager = (manager, false)).
Proof.
  unfold switch_to_next_key.
  destruct (Nat.leb_spec (length (api_keys manager)) 1) as [H|H]; cbn [fst snd];
    repeat split; intros; try reflexivity; lia.
Qed.

Lemma switches_facts k : forall manager,
  api_keys (switches k manager) = api_keys manager
  /\ api_calls_per_key (switches k manager) = api_calls_per_key manager
  /\ ((2 <= length (api_keys manager))%nat ->
      current_key_index (switches k manager)
      = ((current_key_index manager + k) mod length (api_keys manager))%nat
      \/ (k = 0%nat /\ current_key_index (switches k manager) = current_key_index manager))
  /\ ((length (api_keys manager) <= 1)%nat -> switches k manager = manager).
Proof.
  induction k as [|k IH]; intros manager; cbn [switches].
  { repeat split; auto. }
  destruct (switch_to_next_key_facts manager) as (Hk & Hc & Hmany & Hone).
  destruct (IH (switch_to_next_key manager).1) as (IHk & IHc & IHmany & IHone).
  split; [congruence|]. split; [congruence|]. split.
  - intros Hn. left. destruct (Hmany Hn) as [_ Hidx].
    rewrite Hk in IHmany. destruct (IHmany Hn) as [E | [-> E]]; rewrite E, Hidx.
    + rewrite Nat.Div0.add_mod_idemp_l. f_equal. lia.
    + reflexivity.
  - intros Hn. rewrite (Hone Hn). cbn [fst]. apply IH. exact Hn.
Qed.

Lemma manager_eta manager manager' :
  api_keys manager' = api_keys manager ->
  current_key_index manager' = current_key_index manager ->
  api_calls_per_key manager' = api_calls_per_key manager ->
  manager' = manager.
Proof. destruct manager, manager'. cbn. intros -> -> ->. reflexivity. Qed.

(** X25: the key manager of the Streamlit app rotates in a circle.  With
    two keys or more, switch_to_next_key always succeeds, an index within
    the key list stays within it, and after as many switches as there
    are keys the manager is back at the key it started from, although that
    key's quota was the first to be exceeded.  With one key or with none
    (the manager _load_api_keys builds from an environment without keys)
    it returns False and changes nothing, whatever the index. *)
Theorem manager_rotation_is_circular manager k :
  ((current_key_index manager < length (api_keys manager))%nat ->
   (current_key_index (switches k manager) < length (api_keys (switches k manager)))%nat)
  /\ ((2 <= length (api_keys manager))%nat ->
      (switch_to_next_key manager).2 = true
      /\ ((current_key_index manager < length (api_keys manager))%nat ->
          current_key_index (switches k manager)
          = ((current_key_index manager + k) mod length (api_keys manager))%nat
          /\ switches (length (api_keys manager)) manager = manager))
  /\ ((length (api_keys manager) <= 1)%nat ->
      switch_to_next_key manager = (manager, false) /\ switches k manager = manager).
Proof.
  destruct (switches_facts k manager) as (Hk & Hc & Hmany & Hone).
  assert (Hat : (2 <= length (api_keys manager))%nat ->
                (current_key_index manager < length (api_keys manager))%nat ->
                current_key_index (switches k manager)
                = ((current_key_index manager + k) mod length (api_keys manager))%nat).
  { intros Hn Hidx. destruct (Hmany Hn) as [E | [-> E]]; [exact E|].
    rewrite E, Nat.add_0_r, Nat.mod_small by exact Hidx. reflexivity. }
  split; [|split].
  - intros Hidx. rewrite Hk.
    destruct (Nat.le_gt_cases 2 (length (api_keys manager))) as [Hn|Hn].
    + rewrite (Hat Hn Hidx). apply Nat.mod_upper_bound. lia.
    + rewrite Hone by lia. exact Hidx.
  - intros Hn. split; [apply switch_to_next_key_facts; exact Hn|].
    intros Hidx. split; [exact (Hat Hn Hidx)|].
    destruct (switches_facts (length (api_keys manager)) manager) as (Hk' & Hc' & Hmany' & _).
    apply manager_eta; [exact Hk' | | exact Hc'].
    destruct (Hmany' Hn) as [E | [E _]]; [|lia].
    rewrite E.
    replace (current_key_index manager + length (api_keys manager))%nat
      with (current_key_index manager + 1 * length (api_keys manager))%nat by lia.
    rewrite Nat.Div0.mod_add. apply Nat.mod_small. exact Hidx.
  - intros Hn. split; [|apply Hone; exact Hn].
    destruct (switch_to_next_key_facts manager) as (_ & _ & _ & H). exact (H Hn).
Qed.

Lemma handle_quota_error manager content :
  PyStr.contains "quotaExceeded" content || PyStr.contains "dailyLimitExceeded" content = true ->
  handle_youtube_api_error (ApiHttpError 403 content) (Some manager)
  = (Some (switch_to_next_key manager).1,
     if (switch_to_next_key manager).2 then "quota_exceeded_switched" else "quota_exceeded").
Proof.
  intros Hq. unfold handle_youtube_api_error. cbn [Z.eqb Pos.eqb]. rewrite Hq.
  destruct (switch_to_next_key manager) as [manager' switched]. cbn [fst snd].
  destruct switched; reflexivity.
Qed.

(** X26: with two keys or more, handle_youtube_api_error never reports
    that all keys are exhausted.  However many quota errors (HTTP 403 with
    quotaExceeded or dailyLimitExceeded) it is given in a row, it answers
    'quota_exceeded_switched' each time and moves on to the next key in
    the circle; 'quota_exceeded' is reported only by a manager with one
    key or none, which it leaves unchanged. *)
Theorem quota_errors_never_exhaust_keys manager content n :
  PyStr.contains "quotaExceeded" content || PyStr.contains "dailyLimitExceeded" content = true ->
  ((2 <= length (api_keys manager))%nat ->
   quota_errors n content manager
   = (switches n manager, replicate n "quota_exceeded_switched"))
  /\ ((length (api_keys manager) <= 1)%nat ->
      handle_youtube_api_error (ApiHttpError 403 content) (Some manager)
      = (Some manager, "quota_exceeded")).
Proof.
  intros Hq. split.
  - revert manager. induction n as [|n IH]; intros manager Hn; cbn [quota_errors switches replicate];
      [reflexivity|].
    rewrite (handle_quota_error manager content Hq).
    destruct (switch_to_next_key_facts manager) as (Hk & _ & Hmany & _).
    destruct (Hmany Hn) as [Hsw _]. rewrite Hsw.
    rewrite IH by (rewrite Hk; exact Hn). reflexivity.
  - intros Hn. rewrite (handle_quota_error manager content Hq).
    destruct (switch_to_next_key_facts manager) as (_ & _ & _ & Hone).
    rewrite (Hone Hn). reflexivity.
Qed.

End Manager.

(* three keys: back at the start after three switches; no key at all:
   nothing to switch to *)
Lemma manager_rotation_is_circular_witness :
  (2 <= length (App.api_keys (App.new_manager ["key-a"; "key-b"; "key-c"])))%nat
  /\ (App.current_key_index (App.new_manager ["key-a"; "key-b"; "key-c"])
      < length (App.api_keys (App.new_manager ["key-a"; "key-b"; "key-c"])))%nat
  /\ switches 3 (App.new_manager ["key-a"; "key-b"; "key-c"])
     = App.new_manager ["key-a"; "key-b"; "key-c"]
  /\ (length (App.api_keys (App.new_manager [])) <= 1)%nat
  /\ App.switch_to_next_key (App.new_manager []) = (App.new_manager [], false).
Proof.
  assert (H3 : (2 <= length (App.api_keys (App.new_manager ["key-a"; "key-b"; "key-c"])))%nat)
    by (cbn; lia).
  assert (H : (App.current_key_index (App.new_manager ["key-a"; "key-b"; "key-c"])
               < length (App.api_keys (App.new_manager ["key-a"; "key-b"; "key-c"])))%nat)
    by (cbn; lia).
  assert (H0 : (length (App.api_keys (App.new_manager [])) <= 1)%nat) by (cbn; lia).
  split; [exact H3|]. split; [exact H|]. split; [|split; [exact H0|]].
  - destruct (manager_rotation_is_circular (App.new_manager ["key-a"; "key-b"; "key-c"]) 3)
      as (_ & Hmany & _).
    exact (proj2 (proj2 (Hmany H3) H)).
  - destruct (manager_rotation_is_circular (App.new_manager []) 0) as (_ & _ & Hnone).
    exact (proj1 (Hnone H0)).
Defined.

Lemma quota_errors_never_exhaust_keys_witness :
  PyStr.contains "quotaExceeded" quota_text || PyStr.contains "dailyLimitExceeded" quota_text
  = true
  /\ (quota_errors 5 quota_text (App.new_manager ["key-a"; "key-b"])).2
     = replicate 5 "quota_exceeded_switched".
Proof.
  assert (Hq : PyStr.contains "quotaExceeded" quota_text
               || PyStr.contains "dailyLimitExceeded" quota_text = true)
    by (vm_compute; reflexivity).
  split; [exact Hq|].
  rewrite (proj1 (quota_errors_never_exhaust_keys (App.new_manager ["key-a"; "key-b"])
                    quota_text 5 Hq)); [reflexivity | cbn; lia].
Defined.

(* --------------------------------------------------------------------- *)
(* The analyzer of the Streamlit app                                      *)
(* --------------------------------------------------------------------- *)
Section StreamlitAnalyzer.

Import Streamlit.
Variable env : Env.
Variable random_sample : list VideoData -> nat -> list VideoData.
Implicit Types (self : Analyzer) (log : list Event).

(* whether the except clause lets the exception out *)
Lemma reraise_quota_unfold {S A} (fallback : A) (e : Exc) (s : S) log :
  reraise_quota fallback e s log
  = mkOut (match e with
           | HttpError status text => if is_quota_error status text then inl e else inr fallback
           | _ => inr fallback
           end) s log.
Proof.
  unfold reraise_quota. destruct e as [status text| | | | |]; try reflexivity.
  destruct (is_quota_error status text); reflexivity.
Qed.

Lemma classify_videos_log items : forall locals self log,
  out_st (classify_videos items locals self log) = self
  /\ out_log (classify_videos items locals self log) = log.
Proof.
  induction items as [|video rest IH]; intros [[all_videos shorts] long_form] self log;
    cbn [classify_videos]; [split; reflexivity|].
  unfold subscript. destruct (vr_duration video) as [duration|]; [|split; reflexivity].
  unfold mbind, Py_bind, bind, ret. cbn [out_res out_st out_log]. apply IH.
Qed.

(** X27: the analyzer of the Streamlit app lets quota errors through.
    When a request of _get_channel_info or _get_optimized_random_videos
    raises HttpError 403 with quotaExceeded or dailyLimitExceeded, the
    method raises that same error, so that the app can rotate keys; every
    other exception of the request is turned into None, or the empty
    list.  No further request is made in either case. *)
Theorem streamlit_analyzer_reraises_quota channel_id max_results self log e :
  let outcome {A} (fallback : A) : Exc + A :=
    match e with
    | HttpError status text => if is_quota_error status text then inl e else inr fallback
    | _ => inr fallback
    end in
  let profile := YtChannelsList (developerKey self) channel_id in
  let search := YtSearchChannel (developerKey self) channel_id 15 in
  (channels_execute env (log ++ [profile]) = inl e ->
   _get_channel_info env channel_id self log = mkOut (outcome None) self (log ++ [profile]))
  /\ (search_execute env (log ++ [search]) = inl e ->
      _get_optimized_random_videos env random_sample channel_id max_results self log
      = mkOut (outcome []) self (log ++ [search]))
  /\ (forall item items,
        search_execute env (log ++ [search]) = inr (item :: items) ->
        let details := YtVideosList (developerKey self)
                         (PyStr.join "," (si_videoId <$> item :: items)) in
        videos_execute env ((log ++ [search]) ++ [details]) = inl e ->
        _get_optimized_random_videos env random_sample channel_id max_results self log
        = mkOut (outcome []) self ((log ++ [search]) ++ [details])).
Proof.
  cbv zeta. split; [|split].
  - intros He. unfold _get_channel_info.
    erewrite try_except_raised
      by (rewrite bind_get, bind_external, He; reflexivity).
    apply reraise_quota_unfold.
  - intros He. unfold _get_optimized_random_videos.
    erewrite try_except_raised
      by (rewrite bind_get, bind_external, He; reflexivity).
    apply reraise_quota_unfold.
  - intros item items Hs He. unfold _get_optimized_random_videos.
    erewrite try_except_raised
      by (rewrite bind_get, bind_external, Hs, bind_external, He; reflexivity).
    apply reraise_quota_unfold.
Qed.

Lemma classify_videos_result items : forall all_videos shorts long_form self log,
  Forall (fun v => vr_duration v <> None) items ->
  out_res (classify_videos items (all_videos, shorts, long_form) self log)
  = inr (all_videos ++ (video_data_of <$> items),
         shorts ++ List.filter is_short (video_data_of <$> items),
         long_form ++ List.filter (fun v => negb (is_short v)) (video_data_of <$> items)).
Proof.
  induction items as [|video rest IH]; intros all_videos shorts long_form self log Hall;
    cbn [classify_videos fmap list_fmap List.filter].
  { rewrite !app_nil_r. reflexivity. }
  fold (@fmap list _ _ _ video_data_of).
  apply Forall_cons in Hall as [Hd Hall].
  assert (Hdata : forall duration, vr_duration video = Some duration ->
            {| vd_videoId := vr_id video; vd_snippet := vr_snippet video;
               vd_statistics := default (mkStatistics None None) (vr_statistics video);
               duration_seconds := _parse_duration duration |} = video_data_of video).
  { intros duration E. unfold video_data_of. rewrite E. reflexivity. }
  unfold subscript. destruct (vr_duration video) as [duration|] eqn:E; [|congruence].
  unfold mbind, Py_bind, bind, ret. cbn [out_res out_st out_log].
  rewrite (Hdata duration eq_refl), IH by exact Hall.
  destruct (is_short (video_data_of video)); cbn [negb];
    rewrite <- ?app_assoc; reflexivity.
Qed.

Lemma filter_all_true {A} (p : A -> bool) (l : list A) :
  (forall x, In x l -> p x = true) -> List.filter p l = l.
Proof.
  induction l as [|x l IH]; intros H; [reflexivity|]. cbn [List.filter].
  rewrite (H x) by (left; reflexivity). f_equal. apply IH.
  intros y Hy. apply H. right. exact Hy.
Qed.

Lemma filter_all_false {A} (p : A -> bool) (l : list A) :
  (forall x, In x l -> p x = false) -> List.filter p l = [].
Proof.
  induction l as [|x l IH]; intros H; [reflexivity|]. cbn [List.filter].
  rewrite (H x) by (left; reflexivity). apply IH.
  intros y Hy. apply H. right. exact Hy.
Qed.

Lemma filter_length_split {A} (p : A -> bool) (l : list A) :
  (length (List.filter p l) + length (List.filter (fun x => negb (p x)) l) = length l)%nat.
Proof.
  induction l as [|x l IH]; [reflexivity|]. cbn [List.filter].
  destruct (p x); cbn [negb length]; lia.
Qed.

(* the selection for max_results = 10 out of sorted-out shorts and
   long-form videos *)
Lemma select_videos_counts all_videos shorts long_form :
  (forall population k, (k <= length population)%nat ->
     length (random_sample population k) = k
     /\ forall v, In v (random_sample population k) -> In v population) ->
  (forall v, In v shorts -> is_short v = true) ->
  (forall v, In v long_form -> is_short v = false) ->
  let selected := select_videos random_sample 10 all_videos shorts long_form in
  count_shorts selected = Nat.min (length shorts) (Nat.max 5 (10 - length long_form))
  /\ count_long_form selected = Nat.min (length long_form) (Nat.max 5 (10 - length shorts)).
Proof.
  intros Hsample Hshorts Hlong. cbv zeta. unfold select_videos. cbn [Nat.eqb].
  assert (Hcount : forall ts tl, (ts <= length shorts)%nat -> (tl <= length long_form)%nat ->
            count_shorts (random_sample shorts ts ++ random_sample long_form tl) = ts
            /\ count_long_form (random_sample shorts ts ++ random_sample long_form tl) = tl).
  { intros ts tl Hts Htl. unfold count_shorts, count_long_form.
    destruct (Hsample shorts ts Hts) as [Ls Ss]. destruct (Hsample long_form tl Htl) as [Ll Sl].
    rewrite !List.filter_app, !length_app.
    rewrite (filter_all_true is_short (random_sample shorts ts))
      by (intros v Hv; apply Hshorts, Ss, Hv).
    rewrite (filter_all_false is_short (random_sample long_form tl))
      by (intros v Hv; apply Hlong, Sl, Hv).
    rewrite (filter_all_false (fun v => negb (is_short v)) (random_sample shorts ts))
      by (intros v Hv; rewrite (Hshorts v (Ss v Hv)); reflexivity).
    rewrite (filter_all_true (fun v => negb (is_short v)) (random_sample long_form tl))
      by (intros v Hv; rewrite (Hlong v (Sl v Hv)); reflexivity).
    cbn [length]. lia. }
  assert (Hzero : forall population, length (random_sample population 0) = 0%nat)
    by (intros population; apply Hsample; lia).
  assert (Hnil : forall population, random_sample population 0 = [])
    by (intros population; apply length_zero_iff_nil, Hzero).
  set (ts := if (length shorts <? 5)%nat then Nat.min 5 (length shorts)
             else if (length long_form <? 5)%nat
                  then Nat.min (10 - (if (length shorts <? 5)%nat
                                      then Nat.min (10 - Nat.min 5 (length shorts))
                                             (length long_form)
                                      else Nat.min 5 (length long_form)))
                         (length shorts)
                  else Nat.min 5 (length shorts)).
  set (tl := if (length shorts <? 5)%nat
             then Nat.min (10 - Nat.min 5 (length shorts)) (length long_form)
             else Nat.min 5 (length long_form)).
  assert (Hsel : (match shorts with
                  | [] => []
                  | _ => if (0 <? ts)%nat then random_sample shorts ts else []
                  end)
                 ++ (match long_form with
                     | [] => []
                     | _ => if (0 <? tl)%nat then random_sample long_form tl else []
                     end)
                 = random_sample shorts ts ++ random_sample long_form tl).
  { f_equal.
    - destruct shorts as [|s0 shorts'] eqn:Es.
      + replace ts with 0%nat; [rewrite Hnil; reflexivity|].
        subst ts. cbn [length Nat.ltb Nat.leb Nat.min].
        reflexivity.
      + destruct (Nat.ltb_spec 0 ts) as [_|H0]; [reflexivity|].
        replace ts with 0%nat by lia. rewrite Hnil. reflexivity.
    - destruct long_form as [|l0 long_form'] eqn:El.
      + replace tl with 0%nat; [rewrite Hnil; reflexivity|].
        subst tl. cbn [length]. destruct (length shorts <? 5)%nat; lia.
      + destruct (Nat.ltb_spec 0 tl) as [_|H0]; [reflexivity|].
        replace tl with 0%nat by lia. rewrite Hnil. reflexivity. }
  rewrite Hsel.
  assert (Hts : (ts <= length shorts)%nat)
    by (subst ts; destruct (length shorts <? 5)%nat, (length long_form <? 5)%nat; lia).
  assert (Htl : (tl <= length long_form)%nat)
    by (subst tl; destruct (length shorts <? 5)%nat; lia).
  destruct (Hcount ts tl Hts Htl) as [-> ->].
  subst ts tl.
  destruct (Nat.ltb_spec (length shorts) 5), (Nat.ltb_spec (length long_form) 5); lia.
Qed.

(** X28: with max_results = 10, _get_optimized_random_videos makes two
    requests and returns a balanced pick of the videos the detail request
    gave: five shorts (at most 60 seconds) and five long-form videos when
    there are that many of each, and as many of the other kind as it takes
    to reach ten when one kind is short; all of them when there are ten or
    fewer. *)
Theorem streamlit_selects_up_to_ten channel_id self log item items videos_items :
  (forall population k, (k <= length population)%nat ->
     length (random_sample population k) = k
     /\ forall v, In v (random_sample population k) -> In v population) ->
  let search := YtSearchChannel (developerKey self) channel_id 15 in
  let details := YtVideosList (developerKey self)
                   (PyStr.join "," (si_videoId <$> item :: items)) in
  search_execute env (log ++ [search]) = inr (item :: items) ->
  videos_execute env ((log ++ [search]) ++ [details]) = inr videos_items ->
  Forall (fun v => vr_duration v <> None) videos_items ->
  let o := _get_optimized_random_videos env random_sample channel_id 10 self log in
  let shorts := count_shorts (video_data_of <$> videos_items) in
  let long_form := count_long_form (video_data_of <$> videos_items) in
  exists selected,
    out_res o = inr selected
    /\ count_shorts selected = Nat.min shorts (Nat.max 5 (10 - long_form))
    /\ count_long_form selected = Nat.min long_form (Nat.max 5 (10 - shorts))
    /\ length selected = Nat.min 10 (length videos_items)
    /\ out_st o = self
    /\ out_log o = log ++ [search; details].
Proof.
  intros Hsample search details Hs Hv Hall o shorts long_form.
  subst o search details shorts long_form.
  set (log2 := (log ++ [YtSearchChannel (developerKey self) channel_id 15])
               ++ [YtVideosList (developerKey self)
                     (PyStr.join "," (si_videoId <$> item :: items))]).
  pose proof (classify_videos_result videos_items [] [] [] self log2 Hall) as Hres.
  destruct (classify_videos_log videos_items ([], [], []) self log2) as [Hst Hlog].
  cbn [app] in Hres.
  set (data := video_data_of <$> videos_items) in *.
  exists (select_videos random_sample 10 data (List.filter is_short data)
            (List.filter (fun v => negb (is_short v)) data)).
  unfold _get_optimized_random_videos.
  erewrite try_except_returned.
  2:{ rewrite bind_get, bind_external, Hs, bind_external, Hv. fold log2.
      erewrite bind_returns
        by (rewrite (out_eta (classify_videos _ _ _ _)), Hres, Hst, Hlog; reflexivity).
      reflexivity. }
  cbn [out_res out_st out_log].
  destruct (select_videos_counts data (List.filter is_short data)
              (List.filter (fun v => negb (is_short v)) data) Hsample) as [Cs Cl].
  { intros v Hin. apply filter_In in Hin as [_ H]. exact H. }
  { intros v Hin. apply filter_In in Hin as [_ H]. apply negb_true_iff in H. exact H. }
  cbv zeta in Cs, Cl.
  pose proof (filter_length_split is_short data) as Hsplit.
  assert (Hdata : length data = length videos_items) by (subst data; apply length_fmap).
  split; [reflexivity|]. split; [exact Cs|]. split; [exact Cl|].
  split; [|split; [reflexivity | subst log2; rewrite <- app_assoc; reflexivity]].
  pose proof (filter_length_split is_short
                (select_videos random_sample 10 data (List.filter is_short data)
                   (List.filter (fun v => negb (is_short v)) data))) as Hsel.
  unfold count_shorts, count_long_form in Cs, Cl. lia.
Qed.

End StreamlitAnalyzer.

Lemma streamlit_analyzer_reraises_quota_witness :
  search_execute env_quota ([] ++ [YtSearchChannel "key-a" "UCexisting0000000000000a" 15])
  = inl (HttpError 403 quota_text)
  /\ Streamlit._get_optimized_random_videos env_quota (fun population k => take k population)
       "UCexisting0000000000000a" 10 (new_Analyzer "key-a") []
     = mkOut (inl (HttpError 403 quota_text)) (new_Analyzer "key-a")
             [YtSearchChannel "key-a" "UCexisting0000000000000a" 15].
Proof.
  split; [reflexivity|].
  destruct (streamlit_analyzer_reraises_quota env_quota (fun population k => take k population)
              "UCexisting0000000000000a" 10 (new_Analyzer "key-a") []
              (HttpError 403 quota_text)) as (_ & H & _).
  rewrite (H eq_refl).
  assert (Hq : is_quota_error 403 quota_text = true) by (vm_compute; reflexivity).
  rewrite Hq. reflexivity.
Defined.

Lemma streamlit_selects_up_to_ten_witness :
  exists selected,
    out_res (Streamlit._get_optimized_random_videos env_match
               (fun population k => take k population)
               "UCexisting0000000000000a" 10 (new_Analyzer "key-a") []) = inr selected
    /\ length selected = 8%nat.
Proof.
  assert (Hsample : forall (population : list VideoData) k, (k <= length population)%nat ->
                      length (take k population) = k
                      /\ forall v, In v (take k population) -> In v population).
  { intros population k Hk. split; [rewrite length_take; lia|].
    intros v Hv. apply list_elem_of_In. apply list_elem_of_In in Hv.
    apply elem_of_take in Hv as (i & Hi & _). exact (list_elem_of_lookup_2 _ _ _ Hi). }
  assert (Hall : Forall (fun v => vr_duration v <> None) (replicate 8 popular_video))
    by (repeat constructor; discriminate).
  destruct (streamlit_selects_up_to_ten env_match (fun population k => take k population)
              "UCexisting0000000000000a" (new_Analyzer "key-a") []
              (mkSearchItem "vid00000001" "UCexisting0000000000000a" None) []
              (replicate 8 popular_video) Hsample eq_refl eq_refl Hall)
    as (selected & Hres & _ & _ & Hlen & _).
  exists selected. split; [exact Hres | exact Hlen].
Defined.

(* --------------------------------------------------------------------- *)
(* Insights from transcripts and comments                                 *)
(* --------------------------------------------------------------------- *)
Section InsightsFacts.

Context {S : Type}.
Variable env : Env.
Variable tone_prompt : string -> string.
Variable engagement_prompt : string -> string.
Implicit Types (self : AIAnalyzer) (s : S) (log : list Event).

Lemma insight_part_facts self (text fixed : string) (prompt : string -> string)
    (n : nat) analysis_type s log :
  let part : Py S string :=
    if blank text then mret fixed
    else _call_ai_api env self (prompt (PyStr.take n text)) analysis_type in
  exists answer calls,
    part s log = mkOut (inr answer) s (log ++ calls)
    /\ forallb is_llm_call calls = true
    /\ (length calls <= 2)%nat
    /\ (blank text = true -> answer = fixed /\ calls = []).
Proof.
  cbv zeta. destruct (blank text).
  - exists fixed, []. rewrite app_nil_r. repeat split. cbn. lia.
  - destruct (_call_ai_api_calls env self (prompt (PyStr.take n text)) analysis_type s log)
      as (answer & calls & Hres & _ & Hst & Hlog & Hcases & _).
    exists answer, calls. split; [|split; [|split; [|discriminate]]].
    + rewrite (out_eta (_call_ai_api _ _ _ _ _ _)), Hres, Hst, Hlog. reflexivity.
    + destruct Hcases as [-> | [-> | [-> | ->]]]; reflexivity.
    + destruct Hcases as [-> | [-> | [-> | ->]]]; cbn; lia.
Qed.

(** X29: generate_insights never raises and leaves its object alone; it
    makes at most four LLM requests, those for the tone summary before
    those for the engagement notes.  For blank transcripts and blank
    comments it answers with the two fixed texts and makes no request.
    Of transcripts that are not blank only the first 8000 characters
    matter. *)
Theorem generate_insights_bounds self transcripts comments s log :
  let o := generate_insights env tone_prompt engagement_prompt self transcripts comments s log in
  returned (out_res o)
  /\ out_st o = s
  /\ adds_only is_llm_call log (out_log o)
  /\ (llm_calls (out_log o) <= llm_calls log + 4)%nat
  /\ (blank transcripts = true -> blank comments = true ->
      o = mkOut (inr ("No transcript data available for analysis.",
                      "No comment data available for analysis.")) s log)
  /\ (forall transcripts',
        blank transcripts = false -> blank transcripts' = false ->
        PyStr.take (Z.to_nat 8000) transcripts' = PyStr.take (Z.to_nat 8000) transcripts ->
        generate_insights env tone_prompt engagement_prompt self transcripts' comments s log
        = o).
Proof.
  cbv zeta. unfold generate_insights.
  destruct (insight_part_facts self transcripts "No transcript data available for analysis."
              tone_prompt (Z.to_nat 8000) "tone and content summary" s log)
    as (tone & calls1 & H1 & Hc1 & Hl1 & Hb1).
  cbv zeta in H1.
  destruct (insight_part_facts self comments "No comment data available for analysis."
              engagement_prompt (Z.to_nat 6000) "engagement notes" s (log ++ calls1))
    as (notes & calls2 & H2 & Hc2 & Hl2 & Hb2).
  cbv zeta in H2.
  assert (Hrun : (_generate_tone_content_summary env tone_prompt self transcripts
                  ≫= (fun tone_content_summary =>
                        _generate_engagement_notes env engagement_prompt self comments
                        ≫= (fun engagement_notes =>
                              mret (tone_content_summary, engagement_notes)))) s log
                 = mkOut (inr (tone, notes)) s ((log ++ calls1) ++ calls2)).
  { erewrite bind_returns by exact H1. erewrite bind_returns by exact H2. reflexivity. }
  rewrite Hrun. cbn [out_res out_st out_log].
  split; [eexists; reflexivity|]. split; [reflexivity|]. split; [|split; [|split]].
  - exists (calls1 ++ calls2). rewrite app_assoc, forallb_app, Hc1, Hc2. split; reflexivity.
  - unfold llm_calls. rewrite !filter_length_app.
    rewrite (filter_all is_llm_call calls1 Hc1), (filter_all is_llm_call calls2 Hc2). lia.
  - intros B1 B2. destruct (Hb1 B1) as [-> ->]. destruct (Hb2 B2) as [-> ->].
    rewrite !app_nil_r. reflexivity.
  - intros transcripts' B B' Htake. rewrite <- Hrun.
    unfold _generate_tone_content_summary. rewrite B, B', Htake. reflexivity.
Qed.

End InsightsFacts.

Lemma generate_insights_bounds_witness :
  blank "  " = true /\ blank "" = true
  /\ generate_insights env_down (fun text => "Channel Transcripts:" +:+ text)
       (fun text => "Comments:" +:+ text) both_clients "  " "" tt []
     = mkOut (inr ("No transcript data available for analysis.",
                   "No comment data available for analysis.")) tt [].
Proof.
  assert (B1 : blank "  " = true) by reflexivity.
  assert (B2 : blank "" = true) by reflexivity.
  split; [exact B1|]. split; [exact B2|].
  destruct (generate_insights_bounds env_down (fun text => "Channel Transcripts:" +:+ text)
              (fun text => "Comments:" +:+ text) both_clients "  " "" tt [])
    as (_ & _ & _ & _ & H & _).
  exact (H B1 B2).
Defined.

(* --------------------------------------------------------------------- *)
(* The transcription client against the server                            *)
(* --------------------------------------------------------------------- *)
Section ClientAgainstServer.

Import Whisper WhisperClient.
Variable transcriber : string -> Z -> Exc + option string.
Implicit Types (server : WhisperAPIServer).

Lemma read_result_processing n :
  read_result (jsonify [("status", JStr "processing"); ("queue_size", JNum n)]) = Continue.
Proof. reflexivity. Qed.

(* a request id that is not stored and is queued only with videos on
   which the transcriber raises never gets a result *)
Lemma never_stored_step id op server :
  op_avoids id op ->
  dict_mem id (results server) = false ->
  Forall (fun r => req_request_id r = id ->
                   raised (transcriber (req_video_id r) (max_duration_minutes r)))
         (request_queue server) ->
  dict_mem id (results (server_step transcriber op server)) = false
  /\ Forall (fun r => req_request_id r = id ->
                      raised (transcriber (req_video_id r) (max_duration_minutes r)))
            (request_queue (server_step transcriber op server)).
Proof.
  intros Hop Hres Hqueue.
  destruct op as [video_id max_duration fresh_id now | elapsed]; cbn [server_step].
  - rewrite transcribe_video_unfold.
    destruct video_id as [[|c r]|]; cbn [fst]; try (split; assumption).
    destruct (_ <=? _); cbn [fst results request_queue]; [split; assumption|].
    split; [exact Hres|]. apply Forall_app. split; [exact Hqueue|].
    apply Forall_singleton. cbn [req_request_id]. intros E. destruct (Hop E).
  - destruct (request_queue server) as [|req rest] eqn:Hq.
    { unfold _process_queue_step. rewrite Hq. rewrite Hq. split; [exact Hres | constructor]. }
    destruct (work_step_facts transcriber elapsed server req rest Hq) as (Hq' & _ & Hcase).
    cbv zeta in Hq', Hcase. rewrite Hq'.
    apply Forall_cons in Hqueue as [Hreq Hrest]. split; [|exact Hrest].
    destruct (transcriber (req_video_id req) (max_duration_minutes req)) as [e|answer] eqn:Ht.
    + destruct Hcase as (-> & _). exact Hres.
    + rewrite Hcase.
      destruct (dict_mem id (clean_up_old_results _)) eqn:E; [|reflexivity].
      apply clean_up_mem in E. rewrite dict_mem_set, Hres in E. cbn [orb] in E.
      apply String.eqb_eq in E. destruct (Hreq E) as [e He]. discriminate.
Qed.

Lemma never_stored_run id ops : forall server,
  Forall (op_avoids id) ops ->
  dict_mem id (results server) = false ->
  Forall (fun r => req_request_id r = id ->
                   raised (transcriber (req_video_id r) (max_duration_minutes r)))
         (request_queue server) ->
  dict_mem id (results (server_run transcriber ops server)) = false
  /\ Forall (fun r => req_request_id r = id ->
                      raised (transcriber (req_video_id r) (max_duration_minutes r)))
            (request_queue (server_run transcriber ops server)).
Proof.
  unfold server_run. induction ops as [|op ops IH]; intros server Hops Hres Hqueue;
    cbn [foldl]; [split; assumption|].
  apply Forall_cons in Hops as [Hop Hops].
  destruct (never_stored_step id op server Hop Hres Hqueue) as [H1 H2].
  apply IH; assumption.
Qed.

Lemma poll_loop_never_stored id polls : forall world server,
  Forall (Forall (op_avoids id)) world ->
  dict_mem id (results server) = false ->
  Forall (fun r => req_request_id r = id ->
                   raised (transcriber (req_video_id r) (max_duration_minutes r)))
         (request_queue server) ->
  exists server', poll_loop transcriber polls id world server = (JNull, server', polls).
Proof.
  induction polls as [|polls IH]; intros world server Hworld Hres Hqueue; cbn [poll_loop].
  { eexists; reflexivity. }
  assert (Hhd : Forall (op_avoids id) (hd [] world))
    by (destruct world as [|ops world]; [constructor | apply Forall_cons in Hworld as [H _]; exact H]).
  assert (Htl : Forall (Forall (op_avoids id)) (tl world))
    by (destruct world as [|ops world]; [constructor | apply Forall_cons in Hworld as [_ H]; exact H]).
  destruct (never_stored_run id (hd [] world) server Hhd Hres Hqueue) as [H1 H2].
  unfold get_result at 1. rewrite H1. cbn [negb]. rewrite read_result_processing.
  destruct (IH (tl world) _ Htl H1 H2) as [server' ->].
  eexists; reflexivity.
Qed.

(** X30: what the polling client gets from the server.  A submission the
    server turns down (queue full) gives None at once, without a poll.
    For a video on which the transcriber raises, the client polls all 60
    times and then gives None: the server never reports the failure.
    When the queue is empty and the worker serves the job during the
    first sleep with a transcript that is not empty, the client returns
    that transcript after one poll. *)
Theorem client_outcomes server video_id max_duration fresh_id now world :
  (Z.of_nat (max_queue_size server) <= qsize server ->
   transcribe_video_async transcriber video_id max_duration fresh_id now world server
   = (JNull, server, 0%nat))
  /\ (video_id <> "" ->
      qsize server < Z.of_nat (max_queue_size server) ->
      dict_mem fresh_id (results server) = false ->
      Forall (fun r => req_request_id r <> fresh_id) (request_queue server) ->
      raised (transcriber video_id max_duration) ->
      Forall (Forall (op_avoids fresh_id)) world ->
      exists server',
        transcribe_video_async transcriber video_id max_duration fresh_id now world server
        = (JNull, server', 60%nat))
  /\ (forall elapsed rest text,
        video_id <> "" ->
        request_queue server = [] ->
        (0 < max_queue_size server)%nat ->
        (length (results server) < 100)%nat ->
        dict_mem fresh_id (results server) = false ->
        transcriber video_id max_duration = inr (Some text) ->
        text <> "" ->
        world = [OpWork elapsed] :: rest ->
        exists server',
          transcribe_video_async transcriber video_id max_duration fresh_id now world server
          = (JStr text, server', 1%nat)).
Proof.
  unfold transcribe_video_async. rewrite transcribe_video_unfold. split; [|split].
  - intros Hfull. destruct video_id as [|c r]; [reflexivity|].
    destruct (Z.leb_spec (Z.of_nat (max_queue_size server)) (qsize server)); [reflexivity | lia].
  - intros Hvid Hroom Hfresh Hids Hcrash Hworld.
    destruct video_id as [|c r]; [congruence|].
    destruct (Z.leb_spec (Z.of_nat (max_queue_size server)) (qsize server)); [lia|].
    cbn [http_status jsonify Z.eqb Pos.eqb negb body_get body dict_get String.eqb Ascii.eqb
         Bool.eqb].
    apply poll_loop_never_stored; [exact Hworld | exact Hfresh |].
    cbn [request_queue]. apply Forall_app. split.
    + eapply Forall_impl; [exact Hids|]. intros req Hne E. contradiction.
    + apply Forall_singleton. intros _. exact Hcrash.
  - intros elapsed rest text Hvid Hempty Hmax Hlen Hfresh Hanswer Htext ->.
    destruct video_id as [|c r]; [congruence|].
    destruct (Z.leb_spec (Z.of_nat (max_queue_size server)) (qsize server)) as [Hfull|_];
      [unfold qsize in Hfull; rewrite Hempty in Hfull; cbn in Hfull; lia|].
    cbn [http_status jsonify Z.eqb Pos.eqb negb body_get body dict_get String.eqb Ascii.eqb
         Bool.eqb].
    cbn [poll_loop hd server_run foldl server_step]. rewrite Hempty. cbn [app].
    set (queued := mkServer _ _ _ _).
    set (req := mkRequest fresh_id (String c r) (default 120 (Some max_duration)) now).
    destruct (work_step_facts transcriber elapsed queued req [] eq_refl) as (_ & _ & Hcase).
    cbv zeta in Hcase.
    change (req_video_id req) with (String c r) in Hcase.
    change (max_duration_minutes req) with max_duration in Hcase.
    rewrite Hanswer in Hcase.
    pose proof (dict_set_length_le (req_request_id req) (result_of req (Some text) elapsed)
                  (results queued)) as Hs.
    change (results queued) with (results server) in Hs, Hcase.
    rewrite clean_up_small in Hcase by lia.
    rewrite (get_result_stored _ fresh_id (result_of req (Some text) elapsed))
      by (rewrite Hcase; apply dict_get_set).
    destruct text as [|tc tr]; [congruence|].
    eexists. reflexivity.
Qed.

End ClientAgainstServer.

Lemma client_outcomes_witness :
  "dQw4w9WgXcQ" <> ""
  /\ raised (transcriber_crash "dQw4w9WgXcQ" 15)
  /\ exists server',
       WhisperClient.transcribe_video_async transcriber_crash "dQw4w9WgXcQ" 15 (uuid_of 1) 0
         [[OpWork 3]] new_server
       = (Whisper.JNull, server', 60%nat).
Proof.
  assert (Hvid : "dQw4w9WgXcQ" <> "") by discriminate.
  assert (Hcrash : raised (transcriber_crash "dQw4w9WgXcQ" 15)) by (eexists; reflexivity).
  split; [exact Hvid|]. split; [exact Hcrash|].
  destruct (client_outcomes transcriber_crash new_server "dQw4w9WgXcQ" 15 (uuid_of 1) 0
              [[OpWork 3]]) as (_ & H & _).
  apply H; [exact Hvid | vm_compute; reflexivity | reflexivity | constructor | exact Hcrash |].
  repeat constructor.
Defined.
